(** * RentEase: a shallow embedding of the store-facing actions

    The application keeps three Firestore collections, [users], [flats] and
    [messages].  This development embeds the code that talks to them:

    - [handleRemoveUser]  (the admin "remove user" cascade),
    - [loginAction]       (credential check),
    - [registerAction]    (account creation),
    - [newFlatAction]     (flat creation),

    and proves what each of them does to the store.

    Conventions.
    - A collection is a finite map from document id to document.
    - An [async] function is a state transformer over a [World]; [await] of a
      rejected promise is the [Throw] result, and [try]/[catch] is [tryCatch].
    - Every call to the store is recorded, with its answer, in the world's
      [trace]; whether a call is rejected is decided by an [Oracle] that sees
      the whole history, so nothing is assumed about when the store fails.
      A rejected call changes nothing in the store.
    - One execution is followed at a time: no other client writes to the
      store while it runs.
    - [alert] is recorded in the world; [console.error] is not modelled.
    - JavaScript strings are modelled by [string]; a character is one code
      unit below 256.  Numbers are IEEE doubles, [spec_float].

    The file has two parts: the embedding with the notions the statements use,
    then the proofs, which end with one theorem per claim. *)

From Stdlib Require Import ZArith Bool Ascii String List Lia.
From Stdlib Require Import Floats.SpecFloat.
From stdpp Require Import base option list gmap strings fin_maps.

Open Scope string_scope.
Open Scope list_scope.

(** ** Data model *)

Inductive Coll := users | flats | messages.

#[global] Instance Coll_eq_dec : EqDecision Coll.
Proof. solve_decision. Defined.

(** A value read from a submitted form with [formData.get]: a string, or
    [null] ([None]) when the field is missing.  Documents store such values
    as they are. *)
Definition FormValue := option string.

(** A document of the [users] collection, as [registerAction] writes it. *)
Record User := mkUser {
  firstName : FormValue;
  lastName : FormValue;
  email : FormValue;
  password : FormValue;
  birthDate : FormValue;
  favoriteFlats : list string;
  isAdmin : bool;
  userCreatedAt : Z
}.

(** A document of the [flats] collection, as [newFlatAction] writes it.
    Numbers are IEEE doubles ([spec_float]); [ownerID] is what
    [localStorage.getItem] answered, [None] for [null]. *)
Record Flat := mkFlat {
  adTitle : FormValue;
  city : FormValue;
  streetName : FormValue;
  streetNumber : spec_float;
  areaSize : spec_float;
  hasAC : bool;
  yearBuilt : spec_float;
  rentPrice : spec_float;
  dateAvailable : FormValue;
  image : option string;
  flatCreatedAt : Z;
  ownerID : option string
}.

(** A document of the [messages] collection: the two reference fields the
    cascade queries on, and the text. *)
Record Message := mkMessage {
  senderId : string;
  flatID : string;
  content : string
}.

Record Store := mkStore {
  st_users : gmap string User;
  st_flats : gmap string Flat;
  st_messages : gmap string Message
}.

(** ** Store calls, their record, and the world *)

Inductive Op :=
| OpDelete (c : Coll) (id : string)
| OpQuery (c : Coll) (field value : string)
| OpAdd (c : Coll).

(** What was asked and what came back.  A query event carries the ids of the
    documents of the snapshot, [None] when the lookup was rejected. *)
Inductive Event :=
| EvDelete (c : Coll) (id : string) (ok : bool)
| EvQuery (c : Coll) (field value : string) (res : option (list string))
| EvAdd (c : Coll) (id : string) (ok : bool).

(** [true]: the store rejects this call, given everything that happened. *)
Definition Oracle := list Event → Op → bool.

(** The store that never rejects a call. *)
Definition reliable : Oracle := fun _ _ => false.

Record World := mkWorld {
  store : Store;
  cache : list (string * User);   (* the React state behind [setUsers] *)
  trace : list Event;
  alerts : list string            (* what [alert] has shown *)
}.

Inductive Result (A : Type) :=
| Ok (a : A)
| Throw.
Arguments Ok {A} a.
Arguments Throw {A}.

Definition is_ok {A} (r : Result A) : bool :=
  match r with Ok _ => true | Throw => false end.

Definition Async (A : Type) := World → Result A * World.

Definition ret {A} (a : A) : Async A := fun w => (Ok a, w).

Definition bind {A B} (m : Async A) (k : A → Async B) : Async B :=
  fun w => match m w with
           | (Ok a, w1) => k a w1
           | (Throw, w1) => (Throw, w1)
           end.

Notation "'await' x ':=' m 'in' k" := (bind m (fun x => k))
  (at level 10, x name, m at level 100, k at level 200).
Notation "'exec' m 'in' k" := (bind m (fun _ => k))
  (at level 10, m at level 100, k at level 200).

(** [try { m } catch { h }] *)
Definition tryCatch {A} (m : Async A) (h : Async A) : Async A :=
  fun w => match m w with
           | (Ok a, w1) => (Ok a, w1)
           | (Throw, w1) => h w1
           end.

Definition log (e : Event) (w : World) : World :=
  mkWorld (store w) (cache w) (trace w ++ [e]) (alerts w).

Definition setStore (s : Store) (w : World) : World :=
  mkWorld s (cache w) (trace w) (alerts w).

Definition alert (msg : string) : Async unit :=
  fun w => (Ok tt, mkWorld (store w) (cache w) (trace w) (alerts w ++ [msg])).

(** [setUsers(f)] *)
Definition setUsers (f : list (string * User) → list (string * User)) : Async unit :=
  fun w => (Ok tt, mkWorld (store w) (f (cache w)) (trace w) (alerts w)).

(** *** Firestore primitives *)

Definition deleteFrom (c : Coll) (id : string) (s : Store) : Store :=
  match c with
  | users => mkStore (delete id (st_users s)) (st_flats s) (st_messages s)
  | flats => mkStore (st_users s) (delete id (st_flats s)) (st_messages s)
  | messages => mkStore (st_users s) (st_flats s) (delete id (st_messages s))
  end.

(** Does the document with this id, in this collection, have [field == value]?
    Only the fields the application queries on are compared. *)
Definition userField (field value : string) (u : User) : bool :=
  if decide (field = "email") then bool_decide (email u = Some value) else false.
Definition flatField (field value : string) (f : Flat) : bool :=
  if decide (field = "ownerID") then bool_decide (ownerID f = Some value) else false.
Definition messageField (field value : string) (m : Message) : bool :=
  if decide (field = "senderId") then bool_decide (senderId m = value)
  else if decide (field = "flatID") then bool_decide (flatID m = value)
  else false.

Definition matching {A} (p : A → bool) (m : gmap string A) : list string :=
  (map_to_list (filter (fun kv => p kv.2 = true) m)).*1.

(** The ids of the snapshot of [query(collection(db, c), where(field, '==', value))]. *)
Definition queryIds (c : Coll) (field value : string) (s : Store) : list string :=
  match c with
  | users => matching (userField field value) (st_users s)
  | flats => matching (flatField field value) (st_flats s)
  | messages => matching (messageField field value) (st_messages s)
  end.

Section Firestore.
Variable oracle : Oracle.

(** [await deleteDoc(doc(db, c, id))]: deleting an absent document succeeds
    and changes nothing; a rejected call changes nothing. *)
Definition deleteDoc (c : Coll) (id : string) : Async unit :=
  fun w =>
    if oracle (trace w) (OpDelete c id)
    then (Throw, log (EvDelete c id false) w)
    else (Ok tt, log (EvDelete c id true) (setStore (deleteFrom c id (store w)) w)).

(** [await getDocs(query(collection(db, c), where(field, '==', value)))],
    then [snap.docs.map(d => d.id)]. *)
Definition getDocs (c : Coll) (field value : string) : Async (list string) :=
  fun w =>
    if oracle (trace w) (OpQuery c field value)
    then (Throw, log (EvQuery c field value None) w)
    else let ids := queryIds c field value (store w) in
         (Ok ids, log (EvQuery c field value (Some ids)) w).

(** [await Promise.all(ids.map(id => deleteDoc(doc(db, c, id))))]: [map]
    issues every call before anything is awaited, so each deletion is
    attempted whatever happens to the others; the [await] throws when one of
    them was rejected. *)
Fixpoint promiseAllDelete (c : Coll) (ids : list string) : Async unit :=
  match ids with
  | [] => ret tt
  | id :: rest =>
      fun w => match deleteDoc c id w with
               | (r, w1) =>
                   match promiseAllDelete c rest w1 with
                   | (r', w2) => (if is_ok r then r' else Throw, w2)
                   end
               end
  end.

(** [for (const x of xs) { body(x) }] with an [await] inside. *)
Fixpoint forOf {A} (xs : list A) (body : A → Async unit) : Async unit :=
  match xs with
  | [] => ret tt
  | x :: rest => exec body x in forOf rest body
  end.

(** ** [handleRemoveUser] *)

Definition removeFromCache (userId : string) (prevUsers : list (string * User)) :=
  List.filter (fun user => negb (bool_decide (user.1 = userId))) prevUsers.

(** The body of the [try] block, step by step as in the source. *)
Definition handleRemoveUser_try (userId : string) : Async unit :=
  (* 1 *) exec deleteDoc users userId in
  (* 2 *) await messageIds := getDocs messages "senderId" userId in
          exec promiseAllDelete messages messageIds in
  (* 3 *) await flatIds := getDocs flats "ownerID" userId in
  (* 4 *) exec forOf flatIds (fun flatId =>
            await flatMessageIds := getDocs messages "flatID" flatId in
            promiseAllDelete messages flatMessageIds) in
  (* 5 *) exec promiseAllDelete flats flatIds in
  (* 6 *) setUsers (removeFromCache userId).

Definition handleRemoveUser (userId : string) : Async unit :=
  tryCatch (handleRemoveUser_try userId) (alert "Failed to remove user.").

End Firestore.

(** ** A small store to run things on *)

Definition demoUser (mail : string) : User :=
  mkUser (Some "Ann") (Some "Lee") (Some mail) (Some "pass1!") (Some "1990-01-01") [] false 0.
Definition demoFlat (owner : string) : Flat :=
  mkFlat (Some "Sunny flat") (Some "Cluj") (Some "Main") S754_nan S754_nan false
         S754_nan S754_nan (Some "2026-01-01") (Some "a.png") 0 (Some owner).

Definition demoStore : Store :=
  mkStore
    (<["u1" := demoUser "ann@x.io"]> (<["u2" := demoUser "bob@x.io"]> ∅))
    (<["f1" := demoFlat "u1"]> (<["f2" := demoFlat "u1"]> (<["f3" := demoFlat "u2"]> ∅)))
    (<["m1" := mkMessage "u1" "f3" "hi"]>
       (<["m2" := mkMessage "u2" "f1" "hello"]>
          (<["m3" := mkMessage "u1" "f1" "mine"]> ∅))).

Definition demoWorld : World :=
  mkWorld demoStore [("u1", demoUser "ann@x.io"); ("u2", demoUser "bob@x.io")] [] [].


(** ** What an execution did: the calls it made, and their effect *)

(** The store calls made between two worlds. *)
Definition emitted (w w' : World) : list Event :=
  drop (length (trace w)) (trace w').

Definition applyEvent (s : Store) (e : Event) : Store :=
  match e with
  | EvDelete c id true => deleteFrom c id s
  | _ => s
  end.

(** The store after the recorded deletions have been applied. *)
Definition replay (n : list Event) (s : Store) : Store := fold_left applyEvent n s.

Definition succeeded (e : Event) : bool :=
  match e with
  | EvDelete _ _ ok => ok
  | EvQuery _ _ _ res => bool_decide (res ≠ None)
  | EvAdd _ _ ok => ok
  end.

Definition allOk (bs : list bool) : bool := forallb (fun b => b) bs.

(** The deletions of one [Promise.all]: one event per id, in order. *)
Definition batch (c : Coll) (ids : list string) (bs : list bool) : list Event :=
  zip_with (EvDelete c) ids bs.

(** *** Trace relations

    A relation [R s r n] reads: started on store [s], the computation may make
    exactly the calls [n] and end with result [r].  The store's choices (which
    calls it rejects) are left open. *)
Definition Rel (A : Type) := Store → Result A → list Event → Prop.

Definition r_ret {A} (a : A) : Rel A := fun _ r n => r = Ok a ∧ n = [].

Definition r_delete (c : Coll) (id : string) : Rel unit :=
  fun _ r n => ∃ b : bool, n = [EvDelete c id b] ∧ r = if b then Ok tt else Throw.

Definition r_query (c : Coll) (field value : string) : Rel (list string) :=
  fun s r n =>
    (r = Throw ∧ n = [EvQuery c field value None]) ∨
    (r = Ok (queryIds c field value s) ∧
     n = [EvQuery c field value (Some (queryIds c field value s))]).

Definition r_batch (c : Coll) (ids : list string) : Rel unit :=
  fun _ r n => ∃ bs, length bs = length ids ∧ n = batch c ids bs ∧
                     r = if allOk bs then Ok tt else Throw.

(** Sequencing: the second part runs on the store the first part left, and
    only when the first part did not throw. *)
Definition comp {A B} (R1 : Rel A) (R2 : A → Rel B) : Rel B :=
  fun s r n =>
    (R1 s Throw n ∧ r = Throw) ∨
    (∃ a n1 n2, R1 s (Ok a) n1 ∧ R2 a (replay n1 s) r n2 ∧ n = n1 ++ n2).

Fixpoint r_forOf {A} (xs : list A) (R : A → Rel unit) : Rel unit :=
  match xs with
  | [] => r_ret tt
  | x :: rest => comp (R x) (fun _ => r_forOf rest R)
  end.

(** The relation of the [try] block of [handleRemoveUser], read off its text. *)
Definition r_flatMessages (flatId : string) : Rel unit :=
  comp (r_query messages "flatID" flatId) (fun ids => r_batch messages ids).

Definition r_afterMessages (userId : string) : Rel unit :=
  comp (r_query flats "ownerID" userId) (fun flatIds =>
  comp (r_forOf flatIds r_flatMessages) (fun _ =>
  comp (r_batch flats flatIds) (fun _ => r_ret tt))).

Definition r_afterUser (userId : string) : Rel unit :=
  comp (r_query messages "senderId" userId) (fun ids =>
  comp (r_batch messages ids) (fun _ => r_afterMessages userId)).

Definition r_try (userId : string) : Rel unit :=
  comp (r_delete users userId) (fun _ => r_afterUser userId).

(** [m] follows [R]: it only appends to the trace, the store it leaves is the
    replay of what it appended, it shows no alert, and result and calls are
    related by [R]. *)
Definition follows {A} (m : Async A) (R : Rel A) : Prop :=
  ∀ w, trace (m w).2 = trace w ++ emitted w (m w).2 ∧
       store (m w).2 = replay (emitted w (m w).2) (store w) ∧
       alerts (m w).2 = alerts w ∧
       R (store w) (m w).1 (emitted w (m w).2).

(** ** Properties of executions *)

(** The calls made by one execution of [handleRemoveUser], and whether its
    [try] block ran to the end. *)
Definition removalCalls (oracle : Oracle) (userId : string) (w : World) : list Event :=
  emitted w (handleRemoveUser oracle userId w).2.

Definition completed (oracle : Oracle) (userId : string) (w : World) : bool :=
  is_ok (handleRemoveUser_try oracle userId w).1.

(** An attempt to delete a document of collection [c]. *)
Definition isDelete (c : Coll) (e : Event) : bool :=
  match e with
  | EvDelete c' _ _ => bool_decide (c' = c)
  | _ => false
  end.

Definition isQuery (e : Event) : bool :=
  match e with EvQuery _ _ _ _ => true | _ => false end.

(** Every [p]-call of the trace comes before every [q]-call. *)
Definition before (p q : Event → bool) (t : list Event) : Prop :=
  ∀ i j a b, t !! i = Some a → t !! j = Some b → p a = true → q b = true → i < j.

(** A message deletion comes before the deletion of the flat that message
    (as found in store [s]) refers to. *)
Definition messageBeforeItsFlat (s : Store) (t : list Event) : Prop :=
  ∀ i j mid fid b1 b2 msg,
    t !! i = Some (EvDelete messages mid b1) →
    t !! j = Some (EvDelete flats fid b2) →
    st_messages s !! mid = Some msg → flatID msg = fid → i < j.

(** The order the specification asks for: messages, then flats, then the user. *)
Definition leavesFirst (s : Store) (t : list Event) : Prop :=
  messageBeforeItsFlat s t ∧
  before (isDelete messages) (isDelete users) t ∧
  before (isDelete flats) (isDelete users) t.

(** The order of the code: the user, then messages, then flats. *)
Definition userFirst (t : list Event) : Prop :=
  before (isDelete users) (isDelete messages) t ∧
  before (isDelete users) (isDelete flats) t ∧
  before (isDelete messages) (isDelete flats) t.

(** ** Auxiliary notions for the proofs *)

(** All, respectively none, of the calls are of class [p]. *)
Definition only (p : Event → bool) (n : list Event) : Prop := Forall (fun e => p e = true) n.
Definition none (p : Event → bool) (n : list Event) : Prop := Forall (fun e => p e = false) n.

(** The calls of the [try] block come in three runs: the user deletion; then
    lookups and message deletions; then flat deletions. *)
Definition isMiddle (e : Event) : Prop :=
  isDelete users e = false ∧ isDelete flats e = false.
Definition isFlatDelete (e : Event) : Prop :=
  isDelete users e = false ∧ isDelete messages e = false ∧ isQuery e = false.

(** [m] leaves the cached list alone; [m] applies [f] to it exactly when it
    does not throw. *)
Definition quiet {A} (m : Async A) : Prop := ∀ w, cache (m w).2 = cache w.

Definition cacheSpec {A} (f : list (string * User) → list (string * User)) (m : Async A) : Prop :=
  ∀ w, cache (m w).2 = if is_ok (m w).1 then f (cache w) else cache w.

(** How a failed execution ends: with a rejected lookup, or with a batch of
    deletions of which at least one was rejected. *)
Definition failTail (tail : list Event) : Prop :=
  (∃ c f v, tail = [EvQuery c f v None]) ∨
  (∃ c ids bs, length bs = length ids ∧ tail = batch c ids bs ∧ allOk bs = false).

(** No call is rejected before the execution is over: either every call
    succeeded, or the trace is a run of successful calls followed by the
    failing tail. *)
Definition disciplined {A} (r : Result A) (n : list Event) : Prop :=
  match r with
  | Ok _ => only succeeded n
  | Throw => ∃ pre tail, n = pre ++ tail ∧ only succeeded pre ∧ failTail tail
  end.

(** Some lookup of the execution was rejected. *)
Definition lookupFailed (n : list Event) : Prop := ∃ c f v, In (EvQuery c f v None) n.

(** Some deletion of the execution was rejected. *)
Definition deleteFailed (n : list Event) : Prop := ∃ c i, In (EvDelete c i false) n.

(** The specification's fail-fast reading: a rejected lookup leaves the store
    as it was. *)
Definition abortsUntouched (oracle : Oracle) (userId : string) (w : World) : Prop :=
  lookupFailed (removalCalls oracle userId w) →
  store (handleRemoveUser oracle userId w).2 = store w.

(** A store that rejects every lookup, and one that rejects the deletion of
    one given document. *)
Definition rejectQueries : Oracle :=
  fun _ op => match op with OpQuery _ _ _ => true | _ => false end.

Definition rejectDelete (c : Coll) (i : string) : Oracle :=
  fun _ op => match op with
              | OpDelete c' i' => bool_decide (c' = c ∧ i' = i)
              | _ => false
              end.

(** Every answered lookup on [messages] is followed at once by a deletion
    attempt for each id it returned, whatever the outcome of the others. *)
Definition messagesAllAttempted (t : list Event) : Prop :=
  ∀ pre f v ids post,
    t = pre ++ EvQuery messages f v (Some ids) :: post →
    ∃ bs rest, length bs = length ids ∧ post = batch messages ids bs ++ rest.

(** If any flat deletion is attempted, the execution ends with a deletion
    attempt for each id the lookup of the user's flats returned. *)
Definition flatsAllAttempted (userId : string) (t : list Event) : Prop :=
  (∃ i b, In (EvDelete flats i b) t) →
  ∃ pre ids bs, t = pre ++ batch flats ids bs ∧ length bs = length ids ∧
                In (EvQuery flats "ownerID" userId (Some ids)) pre.

(** The same, in a form that is checked call by call. *)
Fixpoint batchesFollow (t : list Event) : Prop :=
  match t with
  | [] => True
  | e :: t' =>
      match e with
      | EvQuery messages _ _ (Some ids) =>
          ∃ bs, length bs = length ids ∧ take (length ids) t' = batch messages ids bs
      | _ => True
      end ∧ batchesFollow t'
  end.

(** The messages the specification's deletion set holds for a user: those the
    user sent and those attached to a flat the user owns. *)
Definition inDeletionSet (s : Store) (userId mid : string) : Prop :=
  ∃ msg, st_messages s !! mid = Some msg ∧
         (senderId msg = userId ∨
          ∃ flat, st_flats s !! flatID msg = Some flat ∧ ownerID flat = Some userId).

(** The specification's reading of a partial failure: the user document is
    kept, and every message of the deletion set is still attempted. *)
Definition userKeptOnFailure (oracle : Oracle) (userId : string) (w : World) : Prop :=
  deleteFailed (removalCalls oracle userId w) →
  ¬ In (EvDelete users userId true) (removalCalls oracle userId w).

Definition stageSiblingsAttempted (oracle : Oracle) (userId : string) (w : World) : Prop :=
  (∃ i, In (EvDelete messages i false) (removalCalls oracle userId w)) →
  ∀ mid, inDeletionSet (store w) userId mid →
         ∃ b, In (EvDelete messages mid b) (removalCalls oracle userId w).

Definition partialFailureContained (oracle : Oracle) (userId : string) (w : World) : Prop :=
  userKeptOnFailure oracle userId w ∧ stageSiblingsAttempted oracle userId w ∧
  ((∃ i, In (EvDelete messages i false) (removalCalls oracle userId w)) →
   none (isDelete flats) (removalCalls oracle userId w)).

(** Either no flat deletion is attempted at all, or the execution ends with
    the whole batch of the user's flats. *)
Definition flatsNoneOrAll (userId : string) (n : list Event) : Prop :=
  none (isDelete flats) n ∨
  ∃ pre ids bs, n = pre ++ batch flats ids bs ∧ length bs = length ids ∧
                In (EvQuery flats "ownerID" userId (Some ids)) pre.

(** No message, respectively no flat, of the store satisfies [p]. *)
Definition noMessage (p : Message → bool) (s : Store) : Prop :=
  ∀ k x, st_messages s !! k = Some x → p x = false.
Definition noFlat (p : Flat → bool) (s : Store) : Prop :=
  ∀ k x, st_flats s !! k = Some x → p x = false.

(** After the removal of [userId], started on store [s0], store [s'] holds
    nothing that refers to the user: the three lookups of the specification
    come back empty, and the user document is gone. *)
Definition noOrphans (s0 s' : Store) (userId : string) : Prop :=
  queryIds messages "senderId" userId s' = [] ∧
  queryIds flats "ownerID" userId s' = [] ∧
  (∀ flatId, In flatId (queryIds flats "ownerID" userId s0) →
             queryIds messages "flatID" flatId s' = []) ∧
  st_users s' !! userId = None.

(** [m] never throws. *)
Definition total {A} (m : Async A) : Prop := ∀ w, is_ok (m w).1 = true.

(** ** Counting what happens to one message *)

Definition deletesMessage (mid : string) (e : Event) : bool :=
  match e with
  | EvDelete messages i _ => bool_decide (i = mid)
  | _ => false
  end.

(** How many deletions of message [mid] the execution issued. *)
Definition deletionsOf (mid : string) (n : list Event) : nat :=
  length (List.filter (deletesMessage mid) n).

(** The message ids the execution found and slated for removal, lookup after
    lookup, with repetitions. *)
Definition slated (n : list Event) : list string :=
  flat_map (fun e => match e with
                     | EvQuery messages _ _ (Some ids) => ids
                     | _ => []
                     end) n.

Definition occurrences (mid : string) (l : list string) : nat :=
  length (List.filter (fun i => bool_decide (i = mid)) l).

(** The call neither deletes message [mid] nor reports it found. *)
Definition notAbout (mid : string) (e : Event) : Prop :=
  match e with
  | EvDelete messages i _ => i ≠ mid
  | EvQuery messages _ _ (Some ids) => ¬ In mid ids
  | _ => True
  end.

(** The lookup of the messages the user sent was answered. *)
Definition senderLookupAnswered (userId : string) (n : list Event) : Prop :=
  ∃ ids, In (EvQuery messages "senderId" userId (Some ids)) n.

(** The user owns the flat with this id. *)
Definition ownsFlat (s : Store) (userId flatId : string) : Prop :=
  ∃ flat, st_flats s !! flatId = Some flat ∧ ownerID flat = Some userId.

(** * The form actions *)

(** ** Field tests *)

(** [!value] for a form value: [null] and the empty string are falsy. *)
Definition falsy (v : FormValue) : bool :=
  match v with
  | None => true
  | Some s => bool_decide (s = "")
  end.

(** [value.length], for a value already known not to be [null]. *)
Definition len (v : FormValue) : nat :=
  match v with
  | None => 0
  | Some s => String.length s
  end.

Definition code (c : ascii) : N := N_of_ascii c.

(** [\s], [\d], [\w] and [[a-zA-Z]] on code units below 256. *)
Definition isSpace (c : ascii) : bool :=
  let n := code c in
  ((9 <=? n) && (n <=? 13) || (n =? 32) || (n =? 160))%N.
Definition isDigit (c : ascii) : bool :=
  let n := code c in ((48 <=? n) && (n <=? 57))%N.
Definition isLetter (c : ascii) : bool :=
  let n := code c in
  ((65 <=? n) && (n <=? 90) || (97 <=? n) && (n <=? 122))%N.
Definition isWord (c : ascii) : bool :=
  isLetter c || isDigit c || (code c =? 95)%N.

(** [[^\s@]] *)
Definition isAddressChar (c : ascii) : bool :=
  negb (isSpace c) && negb (code c =? 64)%N.

(** Some ["."] of the list is followed by at least one more character. *)
Fixpoint dotThenMore (l : list ascii) : bool :=
  match l with
  | [] => false
  | c :: rest =>
      ((code c =? 46)%N && negb (bool_decide (rest = []))) || dotThenMore rest
  end.

(** Split at the first ["@"]. *)
Fixpoint atSign (l : list ascii) : option (list ascii * list ascii) :=
  match l with
  | [] => None
  | c :: rest =>
      if (code c =? 64)%N then Some ([], rest)
      else match atSign rest with
           | Some (a, b) => Some (c :: a, b)
           | None => None
           end
  end.

(** [/^[^\s@]+@[^\s@]+\.[^\s@]+$/.test(s)]: a non-empty local part, one ["@"],
    and a domain with a dot that is neither its first nor its last character,
    no white space anywhere. *)
Definition emailPattern (s : string) : bool :=
  match atSign (list_ascii_of_string s) with
  | None => false
  | Some (local, domain) =>
      negb (bool_decide (local = [])) && forallb isAddressChar local &&
      forallb isAddressChar domain &&
      match domain with
      | [] => false
      | _ :: rest => dotThenMore rest
      end
  end.

(** [/[a-zA-Z]/.test(s)], [/\d/.test(s)] and [/[^\w\s]/.test(s)]. *)
Definition hasLetter (s : string) : bool := existsb isLetter (list_ascii_of_string s).
Definition hasDigit (s : string) : bool := existsb isDigit (list_ascii_of_string s).
Definition hasSpecial (s : string) : bool :=
  existsb (fun c => negb (isWord c) && negb (isSpace c)) (list_ascii_of_string s).

(** [regex.test(value)] converts its argument to a string first. *)
Definition asString (v : FormValue) : string :=
  match v with
  | None => "null"
  | Some s => s
  end.

Definition emailError (value : FormValue) : option string :=
  if falsy value || negb (emailPattern (asString value))
  then Some "Email must be in a valid format." else None.

Definition passwordError (value : FormValue) : option string :=
  if falsy value || (len value <? 6)%nat
  then Some "Password must be at least 6 characters long."
  else if negb (hasLetter (asString value)) || negb (hasDigit (asString value)) ||
          negb (hasSpecial (asString value))
  then Some "Password must include letters, numbers, and a special character."
  else None.

(** The [errors] object of an action: field name to message. *)
Definition Errors := gmap string string.

(** [if (cond) errors[key] = msg] *)
Definition flag (cond : bool) (key msg : string) (errors : gmap string string) :
    gmap string string :=
  if cond then <[key := msg]> errors else errors.

(** [Object.keys(errors).length > 0] *)
Definition hasErrors (errors : gmap string string) : bool :=
  negb (bool_decide (errors = ∅)).

(** What an action returns: [{ errors }], [{ success: true }] or
    [{ success: true, userID }]. *)
Inductive ActionData :=
| ActErrors (errors : gmap string string)
| ActSuccess
| ActSuccessUser (userID : string).

(** ** [loginAction] *)

(** [validateField(name, value)] of the login page. *)
Definition validateField (name : string) (value : FormValue) : option string :=
  match (if decide (name = "email") then emailError value else None) with
  | Some msg => Some msg
  | None => if decide (name = "password") then passwordError value else None
  end.

(** A message that is [null] or empty is dropped by the loop
    [for (key in errors) if (!errors[key]) delete errors[key]]. *)
Definition truthyMessage (v : option string) : option string :=
  match v with
  | Some msg => if bool_decide (msg = "") then None else Some msg
  | None => None
  end.

Definition loginErrors (email password : FormValue) : gmap string string :=
  omap truthyMessage
       (<["password" := validateField "password" password]>
          (<["email" := validateField "email" email]> (∅ : gmap string (option string)))).

Definition invalidCredentials : ActionData :=
  ActErrors {[ "general" := "Invalid credentials." ]}.

(** [user.password] *)
Definition storedPassword (user : User) : FormValue := password user.

(** ** Numbers *)

(** An integer as an IEEE double (exact below 2^53). *)
Definition double (z : Z) : spec_float := binary_normalize 53 1024 z 0 false.

Definition isNaNdouble (x : spec_float) : bool :=
  match x with
  | S754_nan => true
  | _ => false
  end.

Definition insertUser (i : string) (u : User) (s : Store) : Store :=
  mkStore (<[i := u]> (st_users s)) (st_flats s) (st_messages s).
Definition insertFlat (i : string) (f : Flat) (s : Store) : Store :=
  mkStore (st_users s) (<[i := f]> (st_flats s)) (st_messages s).

Section Actions.
Variable oracle : Oracle.

(** The id Firestore gives a document created with [addDoc]. *)
Variable autoId : list Event → string.

(** JavaScript's [Number(s)] on a string, [!isNaN(new Date(s).getTime())],
    and [new Date().getFullYear()]: the language's, not the application's. *)
Variable Number : string → spec_float.
Variable dateIsValid : string → bool.
Variable currentYear : spec_float.

(** [calculateAge] and the date-window test built on [getOneYearFromToday]
    live in the application's [utils], outside the files at hand; they are
    taken as given.  [dateOutOfRange d] stands for
    [selectedDate < today || selectedDate > oneYearFromToday], and
    [dateRangeMessage] for the message built from the two dates. *)
Variable calculateAge : string → Z.
Variable dateOutOfRange : string → bool.
Variable dateRangeMessage : string.

(** [await getDocs(query(collection(db, 'users'), where(field, '==', value)))]
    with the documents of the snapshot. *)
Definition getUserDocs (field value : string) : Async (list (string * User)) :=
  fun w =>
    if oracle (trace w) (OpQuery users field value)
    then (Throw, log (EvQuery users field value None) w)
    else let docs := map_to_list (filter (fun kv => userField field value kv.2 = true)
                                         (st_users (store w))) in
         (Ok docs, log (EvQuery users field value (Some docs.*1)) w).

(** [await addDoc(collection(db, 'users'), user)]; a rejected call writes
    nothing. *)
Definition addUser (user : User) : Async unit :=
  fun w =>
    let i := autoId (trace w) in
    if oracle (trace w) (OpAdd users)
    then (Throw, log (EvAdd users i false) w)
    else (Ok tt, log (EvAdd users i true) (setStore (insertUser i user (store w)) w)).

(** [await addDoc(collection(db, 'flats'), flatData)] *)
Definition addFlat (flatData : Flat) : Async unit :=
  fun w =>
    let i := autoId (trace w) in
    if oracle (trace w) (OpAdd flats)
    then (Throw, log (EvAdd flats i false) w)
    else (Ok tt, log (EvAdd flats i true) (setStore (insertFlat i flatData (store w)) w)).

Definition loginAction (formData : gmap string string) : Async ActionData :=
  let email := formData !! "email" in
  let password := formData !! "password" in
  let errors := loginErrors email password in
  if hasErrors errors then ret (ActErrors errors)
  else
    tryCatch
      (await docs := getUserDocs "email" (asString email) in
       match docs with
       | [] => ret invalidCredentials
       | (userID, user) :: _ =>
           if bool_decide (storedPassword user ≠ password)
           then ret invalidCredentials
           else ret (ActSuccessUser userID)
       end)
      (ret (ActErrors {[ "general" := "Login failed. Please try again later." ]})).

(** ** [registerAction] *)

Definition registerErrors (formData : gmap string string) : gmap string string :=
  let firstName := formData !! "firstName" in
  let lastName := formData !! "lastName" in
  let email := formData !! "email" in
  let password := formData !! "password" in
  let confirmPassword := formData !! "confirmPassword" in
  let birthDate := formData !! "birthDate" in
  let errors : gmap string string := ∅ in
  let errors := flag (falsy firstName || (len firstName <? 2)%nat)
                     "firstName" "First name must be at least 2 characters." errors in
  let errors := flag (falsy lastName || (len lastName <? 2)%nat)
                     "lastName" "Last name must be at least 2 characters." errors in
  let errors := flag (falsy email || negb (emailPattern (asString email)))
                     "email" "Email must be in a valid format." errors in
  let errors :=
    if falsy password || (len password <? 6)%nat
    then <["password" := "Password must be at least 6 characters long."]> errors
    else flag (negb (hasLetter (asString password)) || negb (hasDigit (asString password)) ||
               negb (hasSpecial (asString password)))
              "password" "Password must include letters, numbers, and a special character."
              errors in
  let errors := flag (bool_decide (password ≠ confirmPassword))
                     "confirmPassword" "Passwords do not match." errors in
  let errors :=
    if falsy birthDate || negb (dateIsValid (asString birthDate))
    then <["birthDate" := "Birth date is required."]> errors
    else let age := calculateAge (asString birthDate) in
         flag ((age <? 18)%Z || (age >? 120)%Z)
              "birthDate" "Age must be between 18 and 120." errors in
  errors.

Definition emailTaken : ActionData :=
  ActErrors {[ "email" :=
    "This email is not available. Please try another or log in if you already have an account." ]}.

(** [now] is what [Date.now()] answers. *)
Definition registerAction (formData : gmap string string) (now : Z) : Async ActionData :=
  let firstName := formData !! "firstName" in
  let lastName := formData !! "lastName" in
  let email := formData !! "email" in
  let password := formData !! "password" in
  let birthDate := formData !! "birthDate" in
  let errors := registerErrors formData in
  if hasErrors errors then ret (ActErrors errors)
  else
    tryCatch
      (await existingUsers := getUserDocs "email" (asString email) in
       if negb (bool_decide (existingUsers = []))
       then ret emailTaken
       else
         exec addUser (mkUser firstName lastName email password birthDate [] false now) in
         ret ActSuccess)
      (ret (ActErrors {[ "general" := "Registration failed. Please try again." ]})).

(** ** [newFlatAction] *)

(** [Number(value)]: [null] converts to [+0]. *)
Definition toNumber (v : FormValue) : spec_float :=
  match v with
  | None => S754_zero false
  | Some s => Number s
  end.

(** [isNaN(value)], [value <= 0], [value < bound] and [value > bound] on a
    form value: the value is converted with [Number] first. *)
Definition isNaN (v : FormValue) : bool := isNaNdouble (toNumber v).
Definition notPositive (v : FormValue) : bool := SFleb (toNumber v) (S754_zero false).
Definition below (v : FormValue) (bound : spec_float) : bool := SFltb (toNumber v) bound.
Definition above (v : FormValue) (bound : spec_float) : bool := SFltb bound (toNumber v).

(** [files] maps a file field to the name of the uploaded file. *)
Definition newFlatErrors (formData files : gmap string string) : gmap string string :=
  let adTitle := formData !! "adTitle" in
  let city := formData !! "city" in
  let streetName := formData !! "streetName" in
  let streetNumber := formData !! "streetNumber" in
  let areaSize := formData !! "areaSize" in
  let yearBuilt := formData !! "yearBuilt" in
  let rentPrice := formData !! "rentPrice" in
  let dateAvailable := formData !! "dateAvailable" in
  let imageFile := files !! "image" in
  let errors : gmap string string := ∅ in
  let errors := flag (falsy adTitle || (len adTitle <? 5)%nat || (60 <? len adTitle)%nat)
                     "adTitle" "Ad title must be between 5 and 60 characters." errors in
  let errors := flag (falsy city || (len city <? 2)%nat)
                     "city" "City name must be at least 2 characters." errors in
  let errors := flag (falsy streetName || (len streetName <? 2)%nat)
                     "streetName" "Street name must be at least 2 characters." errors in
  let errors := flag (falsy streetNumber || isNaN streetNumber)
                     "streetNumber" "Street number must be greater than zero." errors in
  let errors := flag (falsy areaSize || isNaN areaSize || notPositive areaSize)
                     "areaSize" "Area size must be a valid positive number." errors in
  let errors := flag (falsy yearBuilt || isNaN yearBuilt || below yearBuilt (double 1900) ||
                      above yearBuilt currentYear)
                     "yearBuilt" "Year built must be between 1900 and the current year."
                     errors in
  let errors := flag (falsy rentPrice || isNaN rentPrice || notPositive rentPrice)
                     "rentPrice" "Rent price must be greater than zero." errors in
  let errors :=
    if falsy dateAvailable
    then <["dateAvailable" := "Date available is required."]> errors
    else flag (dateOutOfRange (asString dateAvailable))
              "dateAvailable" dateRangeMessage errors in
  let errors := flag (falsy imageFile) "image" "Image file is required." errors in
  errors.

Definition newFlatAction (formData files localStorage : gmap string string) (now : Z) :
    Async ActionData :=
  let adTitle := formData !! "adTitle" in
  let city := formData !! "city" in
  let streetName := formData !! "streetName" in
  let streetNumber := formData !! "streetNumber" in
  let areaSize := formData !! "areaSize" in
  let hasAC := bool_decide (formData !! "hasAC" = Some "on") in
  let yearBuilt := formData !! "yearBuilt" in
  let rentPrice := formData !! "rentPrice" in
  let dateAvailable := formData !! "dateAvailable" in
  let imageFile := files !! "image" in
  let errors := newFlatErrors formData files in
  if hasErrors errors then ret (ActErrors errors)
  else
    tryCatch
      (let userID := localStorage !! "loggedInUser" in
       let imagePath := imageFile in
       let flatData :=
         mkFlat adTitle city streetName (toNumber streetNumber) (toNumber areaSize) hasAC
                (toNumber yearBuilt) (toNumber rentPrice) dateAvailable imagePath now userID in
       exec addFlat flatData in
       ret ActSuccess)
      (ret (ActErrors {[ "general" := "Failed to add flat. Please try again." ]})).
End Actions.

(** ** Inputs to run the actions on *)

Definition credentials (mail pass : string) : gmap string string :=
  <["email" := mail]> (<["password" := pass]> ∅).

(** Two login attempts are refused alike: when the email [e1] is registered in
    [w1] and no account of that email has the password [p1], and the email
    [e2] is not registered in [w2], both attempts are answered
    [{ errors: { general: 'Invalid credentials.' } }].  Nothing is asked of the
    submitted values themselves. *)
Definition refusedAlike (oracle : Oracle) (w1 w2 : World) (e1 p1 e2 p2 : string) : Prop :=
  (∃ i u, st_users (store w1) !! i = Some u ∧ email u = Some e1) →
  (∀ i u, st_users (store w1) !! i = Some u → email u = Some e1 → password u ≠ Some p1) →
  (∀ i u, st_users (store w2) !! i = Some u → email u ≠ Some e2) →
  (loginAction oracle (credentials e1 p1) w1).1 = Ok invalidCredentials ∧
  (loginAction oracle (credentials e2 p2) w2).1 = Ok invalidCredentials.

(** The message an answer carries for a field, if any. *)
Definition messageFor (key : string) (answer : Result ActionData) : option string :=
  match answer with
  | Ok (ActErrors errors) => errors !! key
  | _ => None
  end.

(** Decimal digits to a number; anything else is [NaN].  Enough of [Number]
    for the examples. *)
Fixpoint digitsValue (acc : Z) (l : list ascii) : option Z :=
  match l with
  | [] => Some acc
  | c :: rest =>
      if isDigit c then digitsValue (10 * acc + (Z.of_N (code c) - 48)) rest else None
  end.

Definition demoNumber (s : string) : spec_float :=
  match list_ascii_of_string s with
  | [] => S754_zero false
  | l => match digitsValue 0 l with
         | Some z => double z
         | None => S754_nan
         end
  end.

Definition demoFlatForm : gmap string string :=
  <["adTitle" := "Sunny flat"]> (<["city" := "Cluj"]> (<["streetName" := "Main"]>
  (<["streetNumber" := "12"]> (<["areaSize" := "55"]> (<["yearBuilt" := "1999"]>
  (<["rentPrice" := "400"]> (<["dateAvailable" := "2026-12-01"]> ∅))))))).

Definition demoRegisterForm : gmap string string :=
  <["firstName" := "Cleo"]> (<["lastName" := "Ray"]> (<["email" := "cleo@x.io"]>
  (<["password" := "secret1!"]> (<["confirmPassword" := "secret1!"]>
  (<["birthDate" := "1990-01-01"]> ∅))))).

Definition demoFiles : gmap string string := <["image" := "a.png"]> ∅.
Definition demoLocalStorage : gmap string string := <["loggedInUser" := "u1"]> ∅.

(** * More about [handleRemoveUser] *)

(** What the removal of [userId], started on store [s0], may address: the user
    document, a flat the user owns, a message of the user's deletion set. *)
Definition target (s0 : Store) (userId : string) (e : Event) : Prop :=
  match e with
  | EvDelete users i _ => i = userId
  | EvDelete flats i _ => ownsFlat s0 userId i
  | EvDelete messages i _ => inDeletionSet s0 userId i
  | _ => True
  end.

(** Store [s] holds nothing that [s0] does not hold. *)
Definition within (s0 s : Store) : Prop :=
  st_users s ⊆ st_users s0 ∧ st_flats s ⊆ st_flats s0 ∧ st_messages s ⊆ st_messages s0.

(** Store [s'] is store [s] without the user, the user's flats, and the
    messages the user sent or that are attached to one of those flats;
    everything else is there, unchanged. *)
Definition removedExactly (s s' : Store) (userId : string) : Prop :=
  (∀ i x, st_users s' !! i = Some x ↔ st_users s !! i = Some x ∧ i ≠ userId) ∧
  (∀ i x, st_flats s' !! i = Some x ↔ st_flats s !! i = Some x ∧ ownerID x ≠ Some userId) ∧
  (∀ i x, st_messages s' !! i = Some x ↔
          st_messages s !! i = Some x ∧ senderId x ≠ userId ∧
          ¬ ownsFlat s userId (flatID x)).

(** Nothing of store [s] refers to the user, and the user has no document. *)
Definition unknownUser (s : Store) (userId : string) : Prop :=
  st_users s !! userId = None ∧
  (∀ i x, st_flats s !! i = Some x → ownerID x ≠ Some userId) ∧
  (∀ i x, st_messages s !! i = Some x → senderId x ≠ userId).

(** * More about the form actions *)

(** What the regular expression [/^[^\s@]+@[^\s@]+\.[^\s@]+$/] says of a
    string: it is [a @ b . c] with [a], [b], [c] non-empty and free of white
    space and ["@"]. *)
Definition emailShape (s : string) : Prop :=
  ∃ a b c : list ascii,
    list_ascii_of_string s = a ++ "@"%char :: b ++ "."%char :: c ∧
    a ≠ [] ∧ b ≠ [] ∧ c ≠ [] ∧
    forallb isAddressChar a = true ∧ forallb isAddressChar b = true ∧
    forallb isAddressChar c = true.

(** No two user documents have the same email. *)
Definition uniqueEmails (s : Store) : Prop :=
  ∀ i j u v, st_users s !! i = Some u → st_users s !! j = Some v →
             email u = email v → i = j.

(** The user document [registerAction] writes for a form. *)
Definition newUser (formData : gmap string string) (now : Z) : User :=
  mkUser (formData !! "firstName") (formData !! "lastName") (formData !! "email")
         (formData !! "password") (formData !! "birthDate") [] false now.

(** What the field checks of [registerAction] ask of a form. *)
Definition registrable (dateIsValid : string → bool) (calculateAge : string → Z)
    (formData : gmap string string) : Prop :=
  ∃ first last mail pass birth,
    formData !! "firstName" = Some first ∧ (2 ≤ String.length first)%nat ∧
    formData !! "lastName" = Some last ∧ (2 ≤ String.length last)%nat ∧
    formData !! "email" = Some mail ∧ emailShape mail ∧
    formData !! "password" = Some pass ∧ (6 ≤ String.length pass)%nat ∧
    hasLetter pass = true ∧ hasDigit pass = true ∧ hasSpecial pass = true ∧
    formData !! "confirmPassword" = Some pass ∧
    formData !! "birthDate" = Some birth ∧ birth ≠ "" ∧ dateIsValid birth = true ∧
    (18 ≤ calculateAge birth ≤ 120)%Z.

(** The flat document [newFlatAction] writes for a form. *)
Definition newFlat (Number : string → spec_float)
    (formData files localStorage : gmap string string) (now : Z) : Flat :=
  mkFlat (formData !! "adTitle") (formData !! "city") (formData !! "streetName")
         (toNumber Number (formData !! "streetNumber"))
         (toNumber Number (formData !! "areaSize"))
         (bool_decide (formData !! "hasAC" = Some "on"))
         (toNumber Number (formData !! "yearBuilt"))
         (toNumber Number (formData !! "rentPrice"))
         (formData !! "dateAvailable") (files !! "image") now
         (localStorage !! "loggedInUser").

(** * [editFlatLoader] and [editFlatAction] *)

(** An uploaded file: [file.name] and [file.type]. *)
Record Upload := mkUpload { fileName : string; fileType : string }.

(** [throw ...]: the exception leaves the function unless a [catch] takes it. *)
Definition throw {A} : Async A := fun w => (Throw, w).

Definition validImageTypes : list string := ["image/jpeg"; "image/png"; "image/gif"].

(** [originalFlatData.dateAvailable] *)
Definition storedDateAvailable (flat : Flat) : FormValue := dateAvailable flat.

Section EditFlat.
Variable oracle : Oracle.

(** JavaScript's [Number(s)] and [new Date().getFullYear()], as for
    [newFlatAction]. *)
Variable Number : string → spec_float.
Variable currentYear : spec_float.

(** Dates are compared as numbers.  [midnight v] is [new Date(v)] after
    [setHours(0, 0, 0, 0)], [NaN] when [v] is not a date; [today] is
    [new Date()] after [setHours(0, 0, 0, 0)]; [oneYearFromToday] is what
    [getOneYearFromToday(today)] of the application's [utils] answers;
    [formatDate] is [toLocaleDateString('en-US', ...)]. *)
Variable midnight : FormValue → spec_float.
Variable today : spec_float.
Variable oneYearFromToday : spec_float.
Variable formatDate : spec_float → string.

(** [await getDoc(doc(db, 'flats', flatID))], then [flatDoc.exists()] and
    [flatDoc.data()].  The call is recorded as the lookup by document id. *)
Definition getFlat (flatID : string) : Async (option Flat) :=
  fun w =>
    if oracle (trace w) (OpQuery flats "__name__" flatID)
    then (Throw, log (EvQuery flats "__name__" flatID None) w)
    else let flatDoc := st_flats (store w) !! flatID in
         (Ok flatDoc,
          log (EvQuery flats "__name__" flatID
                       (Some (match flatDoc with Some _ => [flatID] | None => [] end))) w).

(** [await updateDoc(doc(db, 'flats', flatID), updatedData)]: the fields of
    [updatedData] replace those of the document, the others stay; the call is
    rejected when the document does not exist.  It is recorded as a write of
    the document. *)
Definition updateFlat (flatID : string) (update : Flat → Flat) : Async unit :=
  fun w =>
    if oracle (trace w) (OpAdd flats) ||
       negb (bool_decide (is_Some (st_flats (store w) !! flatID)))
    then (Throw, log (EvAdd flats flatID false) w)
    else (Ok tt,
          log (EvAdd flats flatID true)
              (setStore (mkStore (st_users (store w))
                                 (alter update flatID (st_flats (store w)))
                                 (st_messages (store w))) w)).

(** The loader of the edit page: the flat with its id, or the 404 response,
    thrown whether the read was rejected or the flat does not exist. *)
Definition editFlatLoader (flatID : string) : Async (string * Flat) :=
  tryCatch
    (await flatDoc := getFlat flatID in
     match flatDoc with
     | Some data => ret (flatID, data)
     | None => throw
     end)
    throw.

Definition dateTodayMessage : string :=
  "Date available must be between today (" ++ formatDate today ++
  ") and one year from today (" ++ formatDate oneYearFromToday ++ ").".

Definition dateOriginalMessage (originalDate : spec_float) : string :=
  "Date available must be between the original date (" ++ formatDate originalDate ++
  ") and one year from today (" ++ formatDate oneYearFromToday ++ ").".

Definition editFlatErrors (formData : gmap string string) (imageFile : option Upload)
    (originalFlatData : Flat) : gmap string string :=
  let adTitle := formData !! "adTitle" in
  let city := formData !! "city" in
  let streetName := formData !! "streetName" in
  let streetNumber := formData !! "streetNumber" in
  let areaSize := formData !! "areaSize" in
  let yearBuilt := formData !! "yearBuilt" in
  let rentPrice := formData !! "rentPrice" in
  let dateAvailable := formData !! "dateAvailable" in
  let errors : gmap string string := ∅ in
  let errors := flag (falsy adTitle || (len adTitle <? 5)%nat || (60 <? len adTitle)%nat)
                     "adTitle" "Ad title must be between 5 and 60 characters." errors in
  let errors := flag (falsy city || (len city <? 2)%nat)
                     "city" "City name must be at least 2 characters." errors in
  let errors := flag (falsy streetName || (len streetName <? 2)%nat)
                     "streetName" "Street name must be at least 2 characters." errors in
  let errors := flag (falsy streetNumber || isNaN Number streetNumber)
                     "streetNumber" "Street number must be greater than zero." errors in
  let errors := flag (falsy areaSize || isNaN Number areaSize || notPositive Number areaSize)
                     "areaSize" "Area size must be a valid positive number." errors in
  let errors := flag (falsy yearBuilt || isNaN Number yearBuilt ||
                      below Number yearBuilt (double 1900) ||
                      above Number yearBuilt currentYear)
                     "yearBuilt" "Year built must be between 1900 and the current year."
                     errors in
  let errors := flag (falsy rentPrice || isNaN Number rentPrice || notPositive Number rentPrice)
                     "rentPrice" "Rent price must be greater than zero." errors in
  let errors :=
    if falsy dateAvailable
    then <["dateAvailable" := "Date available is required."]> errors
    else
      let originalDate := midnight (storedDateAvailable originalFlatData) in
      let selectedDate := midnight dateAvailable in
      if SFltb today originalDate
      then flag (SFltb selectedDate today || SFltb oneYearFromToday selectedDate)
                "dateAvailable" dateTodayMessage errors
      else flag (SFltb selectedDate originalDate || SFltb oneYearFromToday selectedDate)
                "dateAvailable" (dateOriginalMessage originalDate) errors in
  let errors :=
    match imageFile with
    | Some file =>
        if negb (bool_decide (fileName file = ""))
        then flag (negb (bool_decide (fileType file ∈ validImageTypes)))
                  "image" "Only JPG, PNG, and GIF images are allowed." errors
        else errors
    | None => errors
    end in
  errors.
(** The document after [updateDoc(..., updatedData)]: the submitted fields,
    the new image name when a file with a name was uploaded, and the rest of
    the document ([createdAt], [ownerID], else the image) as it was. *)
Definition editedFlat (formData : gmap string string) (imageFile : option Upload)
    (current : Flat) : Flat :=
  mkFlat (formData !! "adTitle") (formData !! "city") (formData !! "streetName")
         (toNumber Number (formData !! "streetNumber"))
         (toNumber Number (formData !! "areaSize"))
         (bool_decide (formData !! "hasAC" = Some "on"))
         (toNumber Number (formData !! "yearBuilt"))
         (toNumber Number (formData !! "rentPrice"))
         (formData !! "dateAvailable")
         (match imageFile with
          | Some file => if negb (bool_decide (fileName file = ""))
                         then Some (fileName file) else image current
          | None => image current
          end)
         (flatCreatedAt current) (ownerID current).

(** [imageFile] is the uploaded file, [None] when the form has none.  The read
    comes before the [try]: its rejection, and the error for a missing flat,
    leave the function. *)
Definition editFlatAction (formData : gmap string string) (imageFile : option Upload)
    (flatID : string) : Async ActionData :=
  await flatDoc := getFlat flatID in
  match flatDoc with
  | None => throw
  | Some originalFlatData =>
      let errors := editFlatErrors formData imageFile originalFlatData in
      if hasErrors errors then ret (ActErrors errors)
      else
        tryCatch
          (exec updateFlat flatID (editedFlat formData imageFile) in
           ret ActSuccess)
          (ret (ActErrors {[ "general" := "Failed to update flat. Please try again." ]}))
  end.
End EditFlat.

(** Inputs to run the edit on. *)
Definition demoEditForm : gmap string string := <["rentPrice" := "450"]> demoFlatForm.
Definition demoMidnight (v : FormValue) : spec_float :=
  match v with
  | Some "2026-01-01" => double 100
  | Some "2026-12-01" => double 434
  | _ => S754_nan
  end.

(** The store after the flat [flatID] has been given the content [flat]. *)
Definition withFlat (flatID : string) (flat : Flat) (s : Store) : Store :=
  mkStore (st_users s) (<[flatID := flat]> (st_flats s)) (st_messages s).

(** * The registration page *)

(** [value.trim() === ''], on code units below 256, where [trim] removes what
    [\s] matches. *)
Definition blank (value : string) : bool := forallb isSpace (list_ascii_of_string value).

Module Register.

(** The state of the component.  An entry of [fieldErrors] is a message,
    [''] after a check that passed, or [null] after a change of the field. *)
Record State := mkState {
  fieldErrors : gmap string FormValue;
  formData : gmap string string;
  generalError : option string;
  isCheckingEmail : bool
}.

(** [setFieldErrors((prev) => ({ ...prev, [name]: error }))] *)
Definition setFieldErrors (name : string) (error : FormValue) (st : State) : State :=
  mkState (<[name := error]> (fieldErrors st)) (formData st) (generalError st)
          (isCheckingEmail st).

Definition setIsCheckingEmail (b : bool) (st : State) : State :=
  mkState (fieldErrors st) (formData st) (generalError st) b.

Definition emailNotAvailable : string :=
  "This email is not available. Please try another or log in if you already have an account.".

Section Component.
Variable oracle : Oracle.
Variable dateIsValid : string → bool.
Variable calculateAge : string → Z.

(** The cases of the [switch] that make no call. *)
Definition fieldError (name value : string) (st : State) : string :=
  if decide (name = "firstName")
  then (if falsy (Some value) || (String.length value <? 2)%nat
        then "First name must be at least 2 characters." else "")
  else if decide (name = "lastName")
  then (if falsy (Some value) || (String.length value <? 2)%nat
        then "Last name must be at least 2 characters." else "")
  else if decide (name = "password")
  then (if falsy (Some value) || (String.length value <? 6)%nat
        then "Password must be at least 6 characters long."
        else if negb (hasLetter value) || negb (hasDigit value) || negb (hasSpecial value)
        then "Password must include letters, numbers, and a special character."
        else "")
  else if decide (name = "confirmPassword")
  then (if bool_decide (Some value ≠ formData st !! "password")
        then "Passwords do not match." else "")
  else if decide (name = "birthDate")
  then (if falsy (Some value) || negb (dateIsValid value)
        then "Birth date is required."
        else let age := calculateAge value in
             if (age <? 18)%Z || (age >? 120)%Z
             then "Age must be between 18 and 120." else "")
  else "".

(** [validateField(name, value)]: the answer, the state of the component and
    the world when it ends.  A rejected [getDocs] leaves the function between
    [setIsCheckingEmail(true)] and [setIsCheckingEmail(false)]. *)
Definition validateField (name value : string) (st : State) (w : World) :
    Result unit * State * World :=
  if decide (name = "email")
  then
    if falsy (Some value) || negb (emailPattern value)
    then (Ok tt, setFieldErrors name (Some "Email must be in a valid format.") st, w)
    else
      let st := setIsCheckingEmail true st in
      match getUserDocs oracle "email" value w with
      | (Throw, w') => (Throw, st, w')
      | (Ok existingUsers, w') =>
          let error := if negb (bool_decide (existingUsers = []))
                       then emailNotAvailable else "" in
          (Ok tt, setFieldErrors name (Some error) (setIsCheckingEmail false st), w')
      end
  else (Ok tt, setFieldErrors name (Some (fieldError name value st)) st, w).

(** [handleChange] on a field [name] that now holds [value]. *)
Definition handleChange (name value : string) (st : State) : State :=
  mkState (<[name := None]> (fieldErrors st)) (<[name := value]> (formData st)) None
          (isCheckingEmail st).

Definition isFormValid (st : State) : bool :=
  bool_decide (map_Forall (fun _ error => falsy error = true) (fieldErrors st)) &&
  bool_decide (map_Forall (fun _ value => blank value = false) (formData st)) &&
  negb (isCheckingEmail st).

(** What the user does to a field; each handler runs to its end before the
    next one starts, and [handleBlur] drops what [validateField] answers. *)
Inductive Input :=
| Change (name value : string)
| Blur (name value : string).

Definition handle (i : Input) (sw : State * World) : State * World :=
  match i with
  | Change name value => (handleChange name value sw.1, sw.2)
  | Blur name value =>
      let r := validateField name value sw.1 sw.2 in (r.1.2, r.2)
  end.

Definition handleAll (inputs : list Input) (sw : State * World) : State * World :=
  fold_left (fun sw i => handle i sw) inputs sw.

Definition onEmail (i : Input) : bool :=
  match i with
  | Change _ _ => false
  | Blur name _ => bool_decide (name = "email")
  end.
End Component.

Definition initial : State :=
  mkState ∅
          (<["firstName" := ""]> (<["lastName" := ""]> (<["email" := ""]>
           (<["password" := ""]> (<["confirmPassword" := ""]> (<["birthDate" := ""]> ∅))))))
          None false.
End Register.

(** * The page that adds a flat *)

Module NewFlat.
Section Component.
(** As for [newFlatAction].  The page builds its dates with [normalizeDate]
    of the application's [utils]; [dateOutOfRange] stands for the page's test
    [selectedDate < today || selectedDate > oneYearFromToday]. *)
Variable Number : string → spec_float.
Variable currentYear : spec_float.
Variable dateOutOfRange : string → bool.
Variable dateRangeMessage : string.

(** The [switch] of [validateField]. *)
Definition fieldError (name value : string) : string :=
  if decide (name = "adTitle")
  then (if falsy (Some value) || (String.length value <? 5)%nat ||
           (60 <? String.length value)%nat
        then "Ad title must be between 5 and 60 characters." else "")
  else if decide (name = "city")
  then (if falsy (Some value) || (String.length value <? 2)%nat
        then "City name must be at least 2 characters." else "")
  else if decide (name = "streetName")
  then (if falsy (Some value) || (String.length value <? 2)%nat
        then "Street name must be at least 2 characters." else "")
  else if decide (name = "streetNumber")
  then (if falsy (Some value) || isNaN Number (Some value)
        then "Street number must be a valid number." else "")
  else if decide (name = "areaSize")
  then (if falsy (Some value) || isNaN Number (Some value) || notPositive Number (Some value)
        then "Area size must be a valid positive number." else "")
  else if decide (name = "yearBuilt")
  then (if falsy (Some value) || isNaN Number (Some value) ||
           below Number (Some value) (double 1900) || above Number (Some value) currentYear
        then "Year built must be between 1900 and the current year." else "")
  else if decide (name = "rentPrice")
  then (if falsy (Some value) || isNaN Number (Some value) || notPositive Number (Some value)
        then "Rent price must be greater than zero." else "")
  else if decide (name = "dateAvailable")
  then (if falsy (Some value) then "Date available is required."
        else if dateOutOfRange value then dateRangeMessage else "")
  else if decide (name = "image")
  then (if falsy (Some value) then "Image file is required." else "")
  else "".

(** [validateField(name, value)], on the [fieldErrors] of the component. *)
Definition validateField (name value : string) (fieldErrors : gmap string FormValue) :
    gmap string FormValue :=
  <[name := Some (fieldError name value)]> fieldErrors.
End Component.
End NewFlat.

(** * Proofs *)

(** ** The definitions at work *)

(** The example scenario: "u1" owns "f1" and "f2"; "m1" and "m3" are sent by
    "u1", "m2" and "m3" are attached to "f1". *)
Example demo_calls :
  removalCalls reliable "u1" demoWorld =
  [EvDelete users "u1" true;
   EvQuery messages "senderId" "u1" (Some ["m3"; "m1"]);
   EvDelete messages "m3" true; EvDelete messages "m1" true;
   EvQuery flats "ownerID" "u1" (Some ["f1"; "f2"]);
   EvQuery messages "flatID" "f1" (Some ["m2"]);
   EvDelete messages "m2" true;
   EvQuery messages "flatID" "f2" (Some []);
   EvDelete flats "f1" true; EvDelete flats "f2" true].
Proof. vm_compute. reflexivity. Qed.

Example demo_rejected_message :
  removalCalls (rejectDelete messages "m3") "u1" demoWorld =
  [EvDelete users "u1" true;
   EvQuery messages "senderId" "u1" (Some ["m3"; "m1"]);
   EvDelete messages "m3" false; EvDelete messages "m1" true] ∧
  alerts (handleRemoveUser (rejectDelete messages "m3") "u1" demoWorld).2 =
  ["Failed to remove user."].
Proof. split; vm_compute; reflexivity. Qed.

Example emailPattern_examples :
  emailPattern "ann@x.io" = true ∧ emailPattern "a@b.c." = true ∧
  emailPattern "a@.b.c" = true ∧ emailPattern "a@b" = false ∧
  emailPattern "a@.b" = false ∧ emailPattern "a@b." = false ∧
  emailPattern "a@@b.c" = false ∧ emailPattern "a b@c.d" = false ∧
  emailPattern "@b.c" = false ∧ emailPattern "" = false.
Proof. repeat split; reflexivity. Qed.

Example passwordError_examples :
  passwordError (Some "pass1!") = None ∧
  passwordError (Some "abc") = Some "Password must be at least 6 characters long." ∧
  passwordError None = Some "Password must be at least 6 characters long." ∧
  passwordError (Some "password1") =
    Some "Password must include letters, numbers, and a special character." ∧
  passwordError (Some "pass_word1") =
    Some "Password must include letters, numbers, and a special character.".
Proof. repeat split; reflexivity. Qed.

Example double_1900 : double 1900 = S754_finite false 8356288371097600 (-42).
Proof. reflexivity. Qed.

(** ** The trace only grows *)

Lemma emitted_app w t l : emitted w (mkWorld (store w) (cache w) (trace w ++ l) t) = l.
Proof. unfold emitted; simpl. by rewrite drop_app_length. Qed.

Lemma emitted_of (w w' : World) n : trace w' = trace w ++ n → emitted w w' = n.
Proof. unfold emitted. intros ->. by rewrite drop_app_length. Qed.

Lemma replay_app n1 n2 s : replay (n1 ++ n2) s = replay n2 (replay n1 s).
Proof. unfold replay. by rewrite fold_left_app. Qed.

(** A more convenient way to establish [follows]. *)
Lemma follows_intro {A} (m : Async A) (R : Rel A) :
  (∀ w, ∃ n, trace (m w).2 = trace w ++ n ∧ store (m w).2 = replay n (store w) ∧
             alerts (m w).2 = alerts w ∧ R (store w) (m w).1 n) →
  follows m R.
Proof.
  intros H w. destruct (H w) as (n & Ht & Hs & Ha & HR).
  rewrite (emitted_of _ _ _ Ht). auto.
Qed.

Lemma follows_ret {A} (a : A) : follows (ret a) (r_ret a).
Proof.
  apply follows_intro. intros w. exists []. simpl.
  rewrite app_nil_r. repeat split; reflexivity.
Qed.

Lemma follows_setUsers f : follows (setUsers f) (r_ret tt).
Proof.
  apply follows_intro. intros w. exists []. simpl.
  rewrite app_nil_r. repeat split; reflexivity.
Qed.

Lemma follows_bind {A B} (m : Async A) (k : A → Async B) R1 R2 :
  follows m R1 → (∀ a, follows (k a) (R2 a)) → follows (bind m k) (comp R1 R2).
Proof.
  intros Hm Hk. apply follows_intro. intros w. unfold bind.
  destruct (Hm w) as (Ht & Hs & Ha & HR).
  destruct (m w) as [[a|] w1] eqn:E; simpl in *.
  - destruct (Hk a w1) as (Ht2 & Hs2 & Ha2 & HR2).
    exists (emitted w w1 ++ emitted w1 (k a w1).2).
    rewrite Ht2, Ht, Hs2, Hs, Ha2, Ha, replay_app, app_assoc.
    repeat split; try reflexivity.
    right. exists a, (emitted w w1), (emitted w1 (k a w1).2).
    rewrite <- Hs. auto.
  - exists (emitted w w1). repeat split; auto. left. auto.
Qed.

Section FirestoreFacts.
Variable oracle : Oracle.

Lemma follows_deleteDoc c id : follows (deleteDoc oracle c id) (r_delete c id).
Proof.
  apply follows_intro. intros w. unfold deleteDoc.
  destruct (oracle (trace w) (OpDelete c id)); simpl.
  - exists [EvDelete c id false]. repeat split; try reflexivity. by exists false.
  - exists [EvDelete c id true]. repeat split; try reflexivity. by exists true.
Qed.

Lemma follows_getDocs c f v : follows (getDocs oracle c f v) (r_query c f v).
Proof.
  apply follows_intro. intros w. unfold getDocs.
  destruct (oracle (trace w) (OpQuery c f v)); simpl.
  - exists [EvQuery c f v None]. repeat split; try reflexivity. by left.
  - eexists. repeat split; try reflexivity. by right.
Qed.

Lemma follows_promiseAllDelete c ids :
  follows (promiseAllDelete oracle c ids) (r_batch c ids).
Proof.
  apply follows_intro. induction ids as [|i rest IH]; intros w.
  - exists []. simpl. rewrite app_nil_r. repeat split; try reflexivity.
    by exists [].
  - simpl. destruct (follows_deleteDoc c i w) as (Ht & Hs & Ha & (b & Hn & Hr)).
    destruct (deleteDoc oracle c i w) as [r w1]; simpl in *.
    destruct (IH w1) as (n & Ht1 & Hs1 & Ha1 & (bs & Hl & Hn1 & Hr1)).
    destruct (promiseAllDelete oracle c rest w1) as [r' w2]; simpl in *.
    exists (EvDelete c i b :: n).
    rewrite Ht1, Ht, Hn, Hs1, Hs, Hn, Ha1, Ha, <- app_assoc. simpl.
    repeat split; try reflexivity.
    exists (b :: bs). simpl. rewrite Hl, Hn1. repeat split; try reflexivity.
    subst r r'. destruct b; simpl; [reflexivity|]. by destruct (allOk bs).
Qed.

Lemma follows_forOf {A} (xs : list A) (body : A → Async unit) R :
  (∀ x, follows (body x) (R x)) → follows (forOf xs body) (r_forOf xs R).
Proof.
  intros Hb. induction xs as [|x rest IH]; simpl.
  - apply follows_ret.
  - apply follows_bind; auto.
Qed.

Lemma follows_try userId : follows (handleRemoveUser_try oracle userId) (r_try userId).
Proof.
  unfold handleRemoveUser_try, r_try, r_afterUser, r_afterMessages.
  repeat (first [ apply follows_bind; [|intros ?]
                | apply follows_deleteDoc | apply follows_getDocs
                | apply follows_promiseAllDelete | apply follows_setUsers
                | apply follows_forOf; intros ? ]).
Qed.

End FirestoreFacts.

(** ** The order of the deletions *)


Lemma before_split p q l1 l2 : none q l1 → none p l2 → before p q (l1 ++ l2).
Proof.
  intros H1 H2 i j a b Hi Hj Hp Hq.
  destruct (decide (i < length l1)) as [Hlt|Hge].
  - destruct (decide (j < length l1)) as [Hj1|]; [|lia].
    rewrite lookup_app_l in Hj by done.
    eapply Forall_lookup_1 in H1; eauto. simpl in H1. congruence.
  - rewrite lookup_app_r in Hi by lia.
    eapply Forall_lookup_1 in H2; eauto. simpl in H2. congruence.
Qed.

Lemma before_messageBeforeItsFlat s t :
  before (isDelete messages) (isDelete flats) t → messageBeforeItsFlat s t.
Proof. intros H i j mid fid b1 b2 msg Hi Hj _ _. eapply H; eauto. Qed.

(** Classes of calls made by each part of the cascade. *)
Section Classes.
Variable P : Event → Prop.

Lemma r_delete_Forall c i s r n :
  (∀ b, P (EvDelete c i b)) → r_delete c i s r n → Forall P n.
Proof. intros H (b & -> & _). auto. Qed.

Lemma r_query_Forall c f v s r n :
  (∀ res, P (EvQuery c f v res)) → r_query c f v s r n → Forall P n.
Proof. intros H [[_ ->]|[_ ->]]; auto. Qed.

Lemma batch_Forall c ids bs : (∀ i b, P (EvDelete c i b)) → Forall P (batch c ids bs).
Proof.
  intros H. unfold batch. revert bs.
  induction ids as [|i ids IH]; intros [|b bs]; simpl; auto.
Qed.

Lemma r_batch_Forall c ids s r n :
  (∀ i b, P (EvDelete c i b)) → r_batch c ids s r n → Forall P n.
Proof. intros H (bs & _ & -> & _). by apply batch_Forall. Qed.

Lemma comp_Forall {A B} (R1 : Rel A) (R2 : A → Rel B) s r n :
  (∀ s r n, R1 s r n → Forall P n) → (∀ a s r n, R2 a s r n → Forall P n) →
  comp R1 R2 s r n → Forall P n.
Proof.
  intros H1 H2 [[H _]|(a & n1 & n2 & Ha & Hb & ->)]; eauto.
  apply Forall_app; eauto.
Qed.

Lemma r_forOf_Forall {A} (xs : list A) (R : A → Rel unit) s r n :
  (∀ x s r n, R x s r n → Forall P n) → r_forOf xs R s r n → Forall P n.
Proof.
  intros H. revert s r n. induction xs as [|x xs IH]; simpl; intros s r n.
  - intros [_ ->]. constructor.
  - apply comp_Forall; eauto.
Qed.

Lemma r_flatMessages_Forall f s r n :
  (∀ v res, P (EvQuery messages "flatID" v res)) → (∀ i b, P (EvDelete messages i b)) →
  r_flatMessages f s r n → Forall P n.
Proof.
  intros Hq Hd. apply comp_Forall.
  - intros ???. by apply r_query_Forall.
  - intros ????. by apply r_batch_Forall.
Qed.
End Classes.


Lemma r_afterMessages_runs u s r n :
  r_afterMessages u s r n → ∃ n2 n3, n = n2 ++ n3 ∧ Forall isMiddle n2 ∧ Forall isFlatDelete n3.
Proof.
  intros [[H ->]|(fids & n1 & n' & Hq & H & ->)].
  - exists n, []. rewrite app_nil_r. repeat split; auto.
    eapply r_query_Forall; [|exact H]. by intros.
  - assert (Forall isMiddle n1) as Hn1
        by (eapply r_query_Forall; [|exact Hq]; by intros).
    destruct H as [[H ->]|(? & nl & n'' & Hl & H & ->)].
    + exists (n1 ++ n'), []. rewrite app_nil_r. repeat split; auto.
      apply Forall_app; split; auto.
      eapply r_forOf_Forall; [|exact H]. intros ? ? ? ?.
      apply r_flatMessages_Forall; by intros.
    + exists (n1 ++ nl), n''. rewrite app_assoc. repeat split; auto.
      * apply Forall_app; split; auto.
        eapply r_forOf_Forall; [|exact Hl]. intros ? ? ? ?.
        apply r_flatMessages_Forall; by intros.
      * eapply comp_Forall; [| |exact H].
        -- intros ???. apply r_batch_Forall. by intros.
        -- intros ???? [_ ->]. constructor.
Qed.

Lemma r_afterUser_runs u s r n :
  r_afterUser u s r n → ∃ n2 n3, n = n2 ++ n3 ∧ Forall isMiddle n2 ∧ Forall isFlatDelete n3.
Proof.
  intros [[H ->]|(ids & n1 & n' & Hq & H & ->)].
  - exists n, []. rewrite app_nil_r. repeat split; auto.
    eapply r_query_Forall; [|exact H]. by intros.
  - assert (Forall isMiddle n1) as Hn1
        by (eapply r_query_Forall; [|exact Hq]; by intros).
    destruct H as [[H ->]|(? & nb & n'' & Hb & H & ->)].
    + exists (n1 ++ n'), []. rewrite app_nil_r. repeat split; auto.
      apply Forall_app; split; auto.
      eapply r_batch_Forall; [|exact H]. by intros.
    + apply r_afterMessages_runs in H as (n2 & n3 & -> & H2 & H3).
      exists (n1 ++ nb ++ n2), n3. rewrite <- !app_assoc. repeat split; auto.
      repeat (apply Forall_app; split); auto.
      eapply r_batch_Forall; [|exact Hb]. by intros.
Qed.

Lemma r_try_runs u s r n :
  r_try u s r n →
  ∃ b n2 n3, n = EvDelete users u b :: n2 ++ n3 ∧ Forall isMiddle n2 ∧ Forall isFlatDelete n3.
Proof.
  intros [[(b & -> & _) ->]|([] & n1 & n' & (b & -> & _) & H & ->)].
  - exists b, [], []. auto.
  - apply r_afterUser_runs in H as (n2 & n3 & -> & H2 & H3). by exists b, n2, n3.
Qed.

Lemma runs_userFirst u b n2 n3 :
  Forall isMiddle n2 → Forall isFlatDelete n3 →
  userFirst (EvDelete users u b :: n2 ++ n3).
Proof.
  intros H2 H3.
  assert (none (isDelete users) (n2 ++ n3)) as HnoU.
  { apply Forall_app; split; eapply Forall_impl; eauto; simpl.
    - by intros ? [? _]. - by intros ? [? _]. }
  repeat split.
  - apply (before_split _ _ [_]); [by repeat constructor|].
    exact HnoU.
  - apply (before_split _ _ [_]); [by repeat constructor|].
    exact HnoU.
  - rewrite app_comm_cons. apply before_split.
    + constructor; [done|]. eapply Forall_impl; eauto. by intros ? [_ ?].
    + eapply Forall_impl; eauto. by intros ? (_ & ? & _).
Qed.

(** ** The cached list of users *)


Lemma quiet_bind {A B} (m : Async A) (k : A → Async B) :
  quiet m → (∀ a, quiet (k a)) → quiet (bind m k).
Proof.
  intros Hm Hk w. unfold bind. specialize (Hm w).
  destruct (m w) as [[a|] w1]; simpl in *; [|done]. by rewrite Hk.
Qed.

Lemma cacheSpec_bind {A B} f (m : Async A) (k : A → Async B) :
  quiet m → (∀ a, cacheSpec f (k a)) → cacheSpec f (bind m k).
Proof.
  intros Hm Hk w. unfold bind. specialize (Hm w).
  destruct (m w) as [[a|] w1]; simpl in *; [|done]. by rewrite Hk, Hm.
Qed.

Lemma quiet_deleteDoc o c i : quiet (deleteDoc o c i).
Proof. intros w. unfold deleteDoc. by destruct (o _ _). Qed.

Lemma quiet_getDocs o c f v : quiet (getDocs o c f v).
Proof. intros w. unfold getDocs. by destruct (o _ _). Qed.

Lemma quiet_promiseAllDelete o c ids : quiet (promiseAllDelete o c ids).
Proof.
  induction ids as [|i ids IH]; intros w; simpl; [done|].
  pose proof (quiet_deleteDoc o c i w) as H.
  destruct (deleteDoc o c i w) as [r w1]. specialize (IH w1).
  destruct (promiseAllDelete o c ids w1) as [r' w2]. simpl in *. congruence.
Qed.

Lemma quiet_forOf {A} (xs : list A) (body : A → Async unit) :
  (∀ x, quiet (body x)) → quiet (forOf xs body).
Proof.
  intros H. induction xs as [|x xs IH]; simpl; [done|]. by apply quiet_bind.
Qed.

Lemma cacheSpec_try o u : cacheSpec (removeFromCache u) (handleRemoveUser_try o u).
Proof.
  unfold handleRemoveUser_try.
  repeat (first [ apply cacheSpec_bind; [|intros ?]
                | apply quiet_deleteDoc | apply quiet_getDocs
                | apply quiet_promiseAllDelete
                | apply quiet_forOf; intros ?; apply quiet_bind; [|intros ?] ]).
  intros w. reflexivity.
Qed.

(** ** [handleRemoveUser] and its [try] block *)

Lemma removal_unfold o u w :
  let w1 := (handleRemoveUser_try o u w).2 in
  let w' := (handleRemoveUser o u w).2 in
  trace w' = trace w1 ∧ store w' = store w1 ∧ cache w' = cache w1 ∧
  alerts w' = alerts w1 ++ (if completed o u w then [] else ["Failed to remove user."]).
Proof.
  unfold handleRemoveUser, tryCatch, completed.
  destruct (handleRemoveUser_try o u w) as [[[]|] w1]; simpl.
  - by rewrite app_nil_r.
  - done.
Qed.

Lemma result_completed o u w :
  (handleRemoveUser_try o u w).1 = if completed o u w then Ok tt else Throw.
Proof.
  unfold completed. by destruct (handleRemoveUser_try o u w) as [[[]|] w1].
Qed.

(** Everything the relation says about the [try] block holds of the calls of
    the whole function. *)
Lemma removal_follows o u w :
  let w' := (handleRemoveUser o u w).2 in
  trace w' = trace w ++ removalCalls o u w ∧
  store w' = replay (removalCalls o u w) (store w) ∧
  alerts w' = alerts w ++ (if completed o u w then [] else ["Failed to remove user."]) ∧
  cache w' = (if completed o u w then removeFromCache u (cache w) else cache w) ∧
  r_try u (store w) (if completed o u w then Ok tt else Throw) (removalCalls o u w).
Proof.
  destruct (removal_unfold o u w) as (Ht & Hs & Hc & Ha).
  destruct (follows_try o u w) as (Ht1 & Hs1 & Ha1 & HR).
  simpl. unfold removalCalls, emitted in *.
  rewrite Ht, Hs, Hc, Ha, Ha1, (cacheSpec_try o u w), <- result_completed.
  repeat split; auto.
Qed.

(** ** Replaying a trace *)

Lemma replay_none_users n s : none (isDelete users) n → st_users (replay n s) = st_users s.
Proof.
  revert s. induction n as [|e n IH]; intros s H; [done|].
  inversion H as [|?? He Hn]; subst. unfold replay in *. simpl. rewrite IH by done.
  destruct e as [[] i []| |]; simpl in *; done.
Qed.

Lemma replay_none_flats n s : none (isDelete flats) n → st_flats (replay n s) = st_flats s.
Proof.
  revert s. induction n as [|e n IH]; intros s H; [done|].
  inversion H as [|?? He Hn]; subst. unfold replay in *. simpl. rewrite IH by done.
  destruct e as [[] i []| |]; simpl in *; done.
Qed.

Lemma replay_none_messages n s :
  none (isDelete messages) n → st_messages (replay n s) = st_messages s.
Proof.
  revert s. induction n as [|e n IH]; intros s H; [done|].
  inversion H as [|?? He Hn]; subst. unfold replay in *. simpl. rewrite IH by done.
  destruct e as [[] i []| |]; simpl in *; done.
Qed.

(** Replaying never adds a document. *)
Lemma replay_shrinks n s :
  st_users (replay n s) ⊆ st_users s ∧ st_flats (replay n s) ⊆ st_flats s ∧
  st_messages (replay n s) ⊆ st_messages s.
Proof.
  revert s. induction n as [|e n IH]; intros s; [done|].
  unfold replay in *. simpl. destruct (IH (applyEvent s e)) as (Hu & Hf & Hm).
  assert (st_users (applyEvent s e) ⊆ st_users s ∧ st_flats (applyEvent s e) ⊆ st_flats s ∧
          st_messages (applyEvent s e) ⊆ st_messages s) as (Hu' & Hf' & Hm').
  { destruct e as [[] i []| |]; simpl; repeat split; try done; apply delete_subseteq. }
  repeat split; etrans; eauto.
Qed.

(** ** Nothing happens after a failure *)

Lemma batch_allOk c ids bs :
  length bs = length ids → allOk bs = true → only succeeded (batch c ids bs).
Proof.
  unfold batch, only, allOk. revert bs.
  induction ids as [|i ids IH]; intros [|b bs]; simpl; try done.
  intros [= Hl] [-> H]%andb_prop. constructor; auto.
Qed.

Lemma r_delete_disciplined c i s r n : r_delete c i s r n → disciplined r n.
Proof.
  intros ([] & -> & ->); simpl.
  - by repeat constructor.
  - exists [], [EvDelete c i false]. split; [done|]. split; [constructor|].
    right. by exists c, [i], [false].
Qed.

Lemma r_query_disciplined c f v s r n : r_query c f v s r n → disciplined r n.
Proof.
  intros [[-> ->]|[-> ->]]; simpl.
  - exists [], [EvQuery c f v None]. split; [done|]. split; [constructor|].
    left. by exists c, f, v.
  - by repeat constructor.
Qed.

Lemma r_batch_disciplined c ids s r n : r_batch c ids s r n → disciplined r n.
Proof.
  intros (bs & Hl & -> & ->). destruct (allOk bs) eqn:E; simpl.
  - by apply batch_allOk.
  - exists [], (batch c ids bs). split; [done|]. split; [constructor|].
    right. by exists c, ids, bs.
Qed.

Lemma comp_disciplined {A B} (R1 : Rel A) (R2 : A → Rel B) s r n :
  (∀ s r n, R1 s r n → disciplined r n) → (∀ a s r n, R2 a s r n → disciplined r n) →
  comp R1 R2 s r n → disciplined r n.
Proof.
  intros H1 H2 [[H ->]|(a & n1 & n2 & Ha & Hb & ->)].
  - by apply H1 in H.
  - apply H1 in Ha. apply H2 in Hb. simpl in Ha. destruct r as [b|]; simpl in *.
    + by apply Forall_app.
    + destruct Hb as (pre & tail & -> & Hp & Ht).
      exists (n1 ++ pre), tail. rewrite app_assoc. split; [done|]. split; [|done].
      by apply Forall_app.
Qed.

Lemma r_forOf_disciplined {A} (xs : list A) (R : A → Rel unit) s r n :
  (∀ x s r n, R x s r n → disciplined r n) → r_forOf xs R s r n → disciplined r n.
Proof.
  intros H. revert s r n. induction xs as [|x xs IH]; simpl; intros s r n.
  - intros [-> ->]. constructor.
  - apply comp_disciplined; eauto.
Qed.

Lemma r_try_disciplined u s r n : r_try u s r n → disciplined r n.
Proof.
  unfold r_try, r_afterUser, r_afterMessages, r_flatMessages.
  revert s r n.
  repeat (first [ apply r_delete_disciplined | apply r_query_disciplined
                | apply r_batch_disciplined
                | intros ???; apply comp_disciplined; [| intros ?]
                | intros ???; apply r_forOf_disciplined; intros ?
                | intros ??? [-> ->]; constructor ]).
Qed.

Lemma batch_failed c ids bs :
  length bs = length ids → allOk bs = false → ∃ i, In (EvDelete c i false) (batch c ids bs).
Proof.
  unfold batch, allOk. revert bs.
  induction ids as [|i ids IH]; intros [|b bs]; simpl; try done.
  intros [= Hl] H. destruct b; simpl in H.
  - destruct (IH bs Hl H) as (j & Hj). eauto.
  - eauto.
Qed.

Lemma failTail_failed tail : failTail tail → ∃ e, In e tail ∧ succeeded e = false.
Proof.
  intros [(c & f & v & ->)|(c & ids & bs & Hl & -> & Hb)].
  - eexists. split; [by left|done].
  - destruct (batch_failed c ids bs Hl Hb) as (i & Hi). eauto.
Qed.

(** The [try] block runs to the end exactly when no call is rejected. *)
Lemma completed_iff_all_succeeded o u w :
  completed o u w = true ↔ only succeeded (removalCalls o u w).
Proof.
  destruct (removal_follows o u w) as (_ & _ & _ & _ & H).
  apply r_try_disciplined in H. destruct (completed o u w); simpl in H.
  - done.
  - split; [done|]. intros Hall. destruct H as (pre & tail & E & _ & Ht).
    apply failTail_failed in Ht as (e & He & Hf). rewrite E in Hall.
    apply Forall_app in Hall as [_ Hall]. rewrite Forall_forall in Hall.
    apply list_elem_of_In in He. specialize (Hall e He). simpl in Hall. congruence.
Qed.

Lemma removeFromCache_ids u l i :
  In i (map fst (removeFromCache u l)) ↔ In i (map fst l) ∧ i ≠ u.
Proof.
  unfold removeFromCache. rewrite !in_map_iff. split.
  - intros ([k x] & <- & [Hin Hf]%filter_In). simpl in *.
    apply negb_true_iff, bool_decide_eq_false in Hf. split; [|done].
    by exists (k, x).
  - intros (([k x] & <- & Hin) & Hne). exists (k, x). split; [done|].
    apply filter_In. split; [done|]. simpl in *.
    by apply negb_true_iff, bool_decide_eq_false.
Qed.

(** ** Order of the deletions; the cached list *)

(** C1 (amended).  In every execution of [handleRemoveUser] the user document
    is deleted first: its deletion comes before every message deletion and
    every flat deletion.  Every message deletion comes before every flat
    deletion, in particular before the deletion of the flat the message
    refers to. *)
Theorem C1_user_then_messages_then_flats (oracle : Oracle) (userId : string) (w : World) :
  userFirst (removalCalls oracle userId w) ∧
  messageBeforeItsFlat (store w) (removalCalls oracle userId w).
Proof.
  destruct (removal_follows oracle userId w) as (_ & _ & _ & _ & H).
  apply r_try_runs in H as (b & n2 & n3 & E & H2 & H3). rewrite E.
  pose proof (runs_userFirst userId b n2 n3 H2 H3) as HU. split; [done|].
  apply before_messageBeforeItsFlat, HU.
Qed.

(** C1 as stated fails: on the demonstration store, with a store that rejects
    nothing, the message "m3" is deleted after the user "u1". *)
Lemma C1_leavesFirst_fails :
  ¬ leavesFirst demoStore (removalCalls reliable "u1" demoWorld).
Proof.
  intros (_ & H & _).
  assert (removalCalls reliable "u1" demoWorld !! 2 = Some (EvDelete messages "m3" true)) as E2
      by (vm_compute; reflexivity).
  assert (removalCalls reliable "u1" demoWorld !! 0 = Some (EvDelete users "u1" true)) as E0
      by (vm_compute; reflexivity).
  specialize (H 2 0 _ _ E2 E0 eq_refl eq_refl). lia.
Qed.

(** C7.  The cached list of users loses the target user exactly when the
    cascade ran to the end, that is, when no store call was rejected; then the
    list is filtered and nothing is alerted.  On any failure the list is left
    as it was and the failure is alerted. *)
Theorem C7_cache_updated_iff_completed (oracle : Oracle) (userId : string) (w : World) :
  let w' := (handleRemoveUser oracle userId w).2 in
  (completed oracle userId w = true ↔ only succeeded (removalCalls oracle userId w)) ∧
  (completed oracle userId w = true →
     cache w' = removeFromCache userId (cache w) ∧ alerts w' = alerts w) ∧
  (completed oracle userId w = false →
     cache w' = cache w ∧ alerts w' = alerts w ++ ["Failed to remove user."]) ∧
  (In userId (map fst (cache w)) →
     (¬ In userId (map fst (cache w')) ↔ completed oracle userId w = true)).
Proof.
  destruct (removal_follows oracle userId w) as (_ & _ & Ha & Hc & _). simpl.
  split; [apply completed_iff_all_succeeded|].
  rewrite Ha, Hc. destruct (completed oracle userId w).
  - rewrite app_nil_r. repeat split; try done.
    intros _ [_ Hne]%removeFromCache_ids. done.
  - repeat split; try done.
Qed.

Lemma C7_witness :
  In "u1" (map fst (cache demoWorld)) ∧
  (¬ In "u1" (map fst (cache (handleRemoveUser reliable "u1" demoWorld).2)) ↔
   completed reliable "u1" demoWorld = true).
Proof.
  split; [simpl; auto|].
  apply (C7_cache_updated_iff_completed reliable "u1" demoWorld). simpl; auto.
Defined.

(** The shape of an execution in which a lookup was rejected. *)
Lemma lookup_failure_shape u s r n :
  r_try u s r n → lookupFailed n →
  r = Throw ∧
  ∃ n2 c f v, n = EvDelete users u true :: n2 ++ [EvQuery c f v None] ∧
              only succeeded n2 ∧ Forall isMiddle n2.
Proof.
  intros HR (c & f & v & Hin).
  pose proof (r_try_disciplined _ _ _ _ HR) as HD.
  apply r_try_runs in HR as (b & n2 & n3 & E & H2 & H3).
  destruct r as [[]|]; simpl in HD.
  { unfold only in HD. rewrite Forall_forall in HD.
    apply list_elem_of_In, HD in Hin. done. }
  split; [done|]. destruct HD as (pre & tail & E' & Hpre & Htail).
  assert (∃ c f v, tail = [EvQuery c f v None]) as (c' & f' & v' & ->).
  { destruct Htail as [?|(c' & ids & bs & _ & -> & _)]; [done|]. exfalso.
    rewrite E' in Hin. apply in_app_or in Hin as [Hin|Hin].
    - unfold only in Hpre. rewrite Forall_forall in Hpre.
      apply list_elem_of_In, Hpre in Hin. done.
    - pose proof (batch_Forall (fun e => isQuery e = false) c' ids bs (fun _ _ => eq_refl)) as HF.
      rewrite Forall_forall in HF. apply list_elem_of_In, HF in Hin. done. }
  subst n. destruct n3 as [|e n3 _] using rev_ind.
  - rewrite app_nil_r in E'. destruct pre as [|e pre]; simpl in E'.
    + destruct n2; simpl in E'; [done|]. injection E' as _ E'. by destruct n2.
    + injection E' as <- E'.
      assert (n2 = pre ++ [EvQuery c' f' v' None]) as -> by done.
      inversion Hpre as [|?? Hb Hpre']; subst. simpl in Hb. subst b.
      apply Forall_app in H2 as [H2 _].
      exists pre, c', f', v'. rewrite app_nil_r. auto.
  - exfalso. rewrite app_assoc, app_comm_cons in E'.
    apply app_inj_tail in E' as [_ ->].
    apply Forall_app in H3 as [_ H3]. inversion H3 as [|?? (_ & _ & Hq) _]. done.
Qed.

Lemma middle_none_flats n : Forall isMiddle n → none (isDelete flats) n.
Proof. intros H. eapply Forall_impl; eauto. by intros ? [_ ?]. Qed.

Lemma middle_none_users n : Forall isMiddle n → none (isDelete users) n.
Proof. intros H. eapply Forall_impl; eauto. by intros ? [? _]. Qed.

(** C2 (amended).  When a lookup is rejected the cascade stops there: the
    rejected lookup is its last store call and every call before it succeeded,
    no flat document has been deleted, the cached list is untouched and the
    failure is alerted.  The store is not unchanged, though: the user document
    was deleted before the first lookup, and the messages deleted before the
    rejected lookup stay deleted. *)
Theorem C2_rejected_lookup_ends_the_cascade (oracle : Oracle) (userId : string) (w : World) :
  let w' := (handleRemoveUser oracle userId w).2 in
  lookupFailed (removalCalls oracle userId w) →
  (∃ pre c f v, removalCalls oracle userId w = pre ++ [EvQuery c f v None] ∧
                only succeeded pre) ∧
  st_flats (store w') = st_flats (store w) ∧
  st_users (store w') = delete userId (st_users (store w)) ∧
  st_messages (store w') ⊆ st_messages (store w) ∧
  cache w' = cache w ∧
  alerts w' = alerts w ++ ["Failed to remove user."].
Proof.
  intros w' HF. subst w'.
  destruct (removal_follows oracle userId w) as (_ & Hs & Ha & Hc & HR).
  destruct (lookup_failure_shape _ _ _ _ HR HF) as (Hr & n2 & c & f & v & E & Hok & Hmid).
  destruct (completed oracle userId w); [done|].
  rewrite Hs, Ha, Hc, E. repeat split; try done.
  - exists (EvDelete users userId true :: n2), c, f, v. split; [done|].
    by constructor.
  - apply replay_none_flats. constructor; [done|].
    apply Forall_app. split; [by apply middle_none_flats|by repeat constructor].
  - change (st_users (replay (n2 ++ [EvQuery c f v None])
                             (deleteFrom users userId (store w))) = delete userId (st_users (store w))).
    rewrite replay_none_users; [done|].
    apply Forall_app. split; [by apply middle_none_users|by repeat constructor].
  - apply replay_shrinks.
Qed.

Lemma C2_witness :
  lookupFailed (removalCalls rejectQueries "u1" demoWorld) ∧
  st_flats (store (handleRemoveUser rejectQueries "u1" demoWorld).2) = st_flats demoStore.
Proof.
  assert (lookupFailed (removalCalls rejectQueries "u1" demoWorld)) as H.
  { exists messages, "senderId", "u1". vm_compute. auto. }
  split; [exact H|].
  apply (C2_rejected_lookup_ends_the_cascade rejectQueries "u1" demoWorld H).
Defined.

(** C2 as stated fails: when the first lookup is rejected the user document
    "u1" is already gone from the store. *)
Lemma C2_abortsUntouched_fails : ¬ abortsUntouched rejectQueries "u1" demoWorld.
Proof.
  intros H.
  assert (lookupFailed (removalCalls rejectQueries "u1" demoWorld)) as HF.
  { exists messages, "senderId", "u1". vm_compute. auto. }
  apply H in HF.
  apply (f_equal (fun s => bool_decide (is_Some (st_users s !! "u1")))) in HF.
  vm_compute in HF. discriminate.
Qed.

(** ** Every deletion of a batch is attempted *)

Lemma batch_length c ids bs : length bs = length ids → length (batch c ids bs) = length ids.
Proof. intros H. unfold batch. rewrite length_zip_with. lia. Qed.

Lemma batchesFollow_app a b : batchesFollow a → batchesFollow b → batchesFollow (a ++ b).
Proof.
  intros Ha Hb. induction a as [|e a IH]; [done|].
  destruct Ha as [He Ha]. simpl. split; [|by apply IH].
  destruct e as [| [] f v [ids|] |]; try done.
  destruct He as (bs & Hl & Ht). exists bs. split; [done|].
  rewrite take_app_le; [done|].
  apply (f_equal length) in Ht. rewrite batch_length, length_take in Ht by done. lia.
Qed.

Lemma batchesFollow_none n : none isQuery n → batchesFollow n.
Proof.
  induction 1 as [|e n He _ IH]; [done|]. simpl. split; [|done].
  by destruct e as [| [] f v [ids|] |].
Qed.

Lemma batch_none_query c ids bs : none isQuery (batch c ids bs).
Proof. by apply batch_Forall. Qed.

Lemma batchesFollow_query_batch f v ids bs rest :
  length bs = length ids → batchesFollow rest →
  batchesFollow (EvQuery messages f v (Some ids) :: batch messages ids bs ++ rest).
Proof.
  intros Hl Hr. simpl. split.
  - exists bs. split; [done|]. rewrite take_app_le by (rewrite batch_length; done).
    apply take_ge. rewrite batch_length; done.
  - apply batchesFollow_app; [|done]. apply batchesFollow_none, batch_none_query.
Qed.

Lemma comp_batchesFollow {A B} (R1 : Rel A) (R2 : A → Rel B) s r n :
  (∀ s r n, R1 s r n → batchesFollow n) → (∀ a s r n, R2 a s r n → batchesFollow n) →
  comp R1 R2 s r n → batchesFollow n.
Proof.
  intros H1 H2 [[H _]|(a & n1 & n2 & Ha & Hb & ->)]; eauto.
  apply batchesFollow_app; eauto.
Qed.

(** A lookup on [messages], its batch, and whatever comes next. *)
Lemma query_batch_batchesFollow {B} f v (R : Rel B) s r n :
  (∀ s r n, R s r n → batchesFollow n) →
  comp (r_query messages f v) (fun ids => comp (r_batch messages ids) (fun _ => R)) s r n →
  batchesFollow n.
Proof.
  intros HR [[[[_ ->]|[? _]] _]|(ids & n1 & n2 & Hq & H & ->)]; try done.
  destruct Hq as [[? _]|[[= ->] ->]]; [done|].
  destruct H as [[(bs & Hl & -> & _) _]|([] & nb & n' & (bs & Hl & -> & _) & H & ->)].
  - rewrite <- (app_nil_r (batch _ _ _)). by apply batchesFollow_query_batch.
  - apply batchesFollow_query_batch; eauto.
Qed.

Lemma r_flatMessages_batchesFollow f s r n : r_flatMessages f s r n → batchesFollow n.
Proof.
  intros [[[[_ ->]|[? _]] _]|(ids & n1 & n2 & Hq & (bs & Hl & -> & _) & ->)]; try done.
  destruct Hq as [[? _]|[[= ->] ->]]; [done|].
  rewrite <- (app_nil_r (batch _ _ _)). by apply batchesFollow_query_batch.
Qed.

Lemma r_forOf_batchesFollow {A} (xs : list A) (R : A → Rel unit) s r n :
  (∀ x s r n, R x s r n → batchesFollow n) → r_forOf xs R s r n → batchesFollow n.
Proof.
  intros H. revert s r n. induction xs as [|x xs IH]; simpl; intros s r n.
  - by intros [_ ->].
  - apply comp_batchesFollow; eauto.
Qed.

Lemma r_afterMessages_batchesFollow u s r n : r_afterMessages u s r n → batchesFollow n.
Proof.
  revert s r n. unfold r_afterMessages.
  intros ???. apply comp_batchesFollow.
  { intros ??? [[_ ->]|[_ ->]]; done. }
  intros fids ???. apply comp_batchesFollow.
  { intros ???. apply r_forOf_batchesFollow. intros ?. apply r_flatMessages_batchesFollow. }
  intros _ ???. apply comp_batchesFollow.
  { intros ??? (bs & _ & -> & _). apply batchesFollow_none, batch_none_query. }
  by intros _ ??? [_ ->].
Qed.

Lemma r_try_batchesFollow u s r n : r_try u s r n → batchesFollow n.
Proof.
  revert s r n. unfold r_try, r_afterUser.
  intros ???. apply comp_batchesFollow.
  { intros ??? (b & -> & _). done. }
  intros _ ???. apply query_batch_batchesFollow. apply r_afterMessages_batchesFollow.
Qed.

Lemma batchesFollow_messagesAllAttempted t : batchesFollow t → messagesAllAttempted t.
Proof.
  intros H pre f v ids post ->. induction pre as [|e pre IH].
  - destruct H as [(bs & Hl & Ht) _]. exists bs, (drop (length ids) post).
    split; [done|]. by rewrite <- Ht, take_drop.
  - destruct H as [_ H]. by apply IH.
Qed.

Lemma flatsNoneOrAll_prepend u p n :
  none (isDelete flats) p → flatsNoneOrAll u n → flatsNoneOrAll u (p ++ n).
Proof.
  intros Hp [Hn|(pre & ids & bs & -> & Hl & Hin)].
  - left. by apply Forall_app.
  - right. exists (p ++ pre), ids, bs. rewrite app_assoc. repeat split; auto.
    apply in_or_app. by right.
Qed.

Lemma r_afterMessages_flats u s r n : r_afterMessages u s r n → flatsNoneOrAll u n.
Proof.
  intros [[[[_ ->]|[? _]] _]|(fids & n1 & n2 & Hq & H & ->)]; try done.
  { left. by repeat constructor. }
  destruct Hq as [[? _]|[[= ->] ->]]; [done|].
  assert (∀ s r n, r_forOf (queryIds flats "ownerID" u s) r_flatMessages s r n →
                   none (isDelete flats) n) as Hloop.
  { intros ???. apply r_forOf_Forall. intros ????. by apply r_flatMessages_Forall. }
  destruct H as [[H _]|([] & nl & n' & Hl & H & ->)].
  - left. constructor; [done|]. by apply Hloop in H.
  - destruct H as [[(bs & Hb & -> & _) _]|([] & nb & ? & (bs & Hb & -> & _) & [_ ->] & ->)].
    + right. eexists (_ :: nl), _, bs. split; [reflexivity|]. split; [done|]. by left.
    + right. eexists (_ :: nl), _, bs. rewrite app_nil_r.
      split; [reflexivity|]. split; [done|]. by left.
Qed.

Lemma r_try_flats u s r n : r_try u s r n → flatsNoneOrAll u n.
Proof.
  intros [[(b & -> & _) _]|([] & n1 & n' & (b & -> & _) & H & ->)].
  { left. by repeat constructor. }
  apply flatsNoneOrAll_prepend; [by repeat constructor|].
  destruct H as [[[[_ ->]|[? _]] _]|(ids & n1 & n2 & Hq & H & ->)]; try done.
  { left. by repeat constructor. }
  assert (none (isDelete flats) n1) as Hn1.
  { eapply r_query_Forall; [|exact Hq]. done. }
  apply flatsNoneOrAll_prepend; [done|].
  destruct H as [[H _]|([] & nb & n'' & Hb & H & ->)].
  - left. eapply r_batch_Forall; [|exact H]. done.
  - apply flatsNoneOrAll_prepend; [eapply r_batch_Forall; [|exact Hb]; done|].
    by apply r_afterMessages_flats in H.
Qed.

Lemma flatsNoneOrAll_flatsAllAttempted u n : flatsNoneOrAll u n → flatsAllAttempted u n.
Proof.
  intros [Hn|H] (i & b & Hin); [|done]. exfalso.
  unfold none in Hn. rewrite Forall_forall in Hn.
  apply list_elem_of_In, Hn in Hin. done.
Qed.

(** The shape of an execution in which a deletion was rejected. *)
Lemma delete_failure_shape {A} (r : Result A) n c i :
  disciplined r n → In (EvDelete c i false) n →
  r = Throw ∧
  ∃ pre ids bs, n = pre ++ batch c ids bs ∧ length bs = length ids ∧
                only succeeded pre ∧ In i ids.
Proof.
  intros HD Hin. destruct r as [a|]; simpl in HD.
  { unfold only in HD. rewrite Forall_forall in HD.
    apply list_elem_of_In, HD in Hin. done. }
  split; [done|]. destruct HD as (pre & tail & -> & Hpre & Htail).
  apply in_app_or in Hin as [Hin|Hin].
  { unfold only in Hpre. rewrite Forall_forall in Hpre.
    apply list_elem_of_In, Hpre in Hin. done. }
  destruct Htail as [(? & ? & ? & ->)|(c' & ids & bs & Hl & -> & _)].
  { by destruct Hin. }
  assert (c' = c ∧ In i ids) as [-> Hi].
  { clear Hl. unfold batch in Hin. revert bs Hin.
    induction ids as [|j ids IH]; intros [|b bs]; simpl; try done.
    intros [[= -> -> ->]|Hin]; [auto|]. destruct (IH _ Hin). auto. }
  exists pre, ids, bs. auto.
Qed.

Lemma batch_only_isDelete c ids bs : only (isDelete c) (batch c ids bs).
Proof. apply batch_Forall. intros. simpl. by apply bool_decide_eq_true. Qed.

Lemma only_none_nil p n : only p n → none p n → n = [].
Proof.
  intros H1 H2. destruct n as [|e n]; [done|].
  inversion H1; inversion H2; subst. congruence.
Qed.

(** C3 (amended).  When a deletion is rejected: the cascade reports failure
    (alert, cached list unchanged); the rejected deletion sits in the last
    batch of the execution, every call before that batch succeeded and nothing
    is attempted after it; every id of a batch is attempted whatever happens
    to the others (each answered lookup on messages is followed by an attempt
    on each id it returned, and flats are attempted all or none); after a
    rejected message deletion no flat deletion is attempted.  The user
    document is not kept: unless its own deletion is the rejected one (then
    that is the only call), it has already been deleted. *)
Theorem C3_rejected_deletion_ends_the_cascade
    (oracle : Oracle) (userId : string) (w : World) (c : Coll) (i : string) :
  let w' := (handleRemoveUser oracle userId w).2 in
  let calls := removalCalls oracle userId w in
  In (EvDelete c i false) calls →
  (completed oracle userId w = false ∧ cache w' = cache w ∧
   alerts w' = alerts w ++ ["Failed to remove user."]) ∧
  (∃ pre ids bs, calls = pre ++ batch c ids bs ∧ length bs = length ids ∧
                 only succeeded pre ∧ In i ids) ∧
  messagesAllAttempted calls ∧ flatsAllAttempted userId calls ∧
  (c = messages → none (isDelete flats) calls) ∧
  (c ≠ users → In (EvDelete users userId true) calls) ∧
  (c = users → calls = [EvDelete users userId false] ∧ store w' = store w).
Proof.
  intros w' calls Hin. subst w' calls.
  destruct (removal_follows oracle userId w) as (_ & Hs & Ha & Hc & HR).
  pose proof (r_try_disciplined _ _ _ _ HR) as HD.
  destruct (delete_failure_shape _ _ _ _ HD Hin) as (Hr & pre & ids & bs & E & Hl & Hpre & Hi).
  pose proof (r_try_runs _ _ _ _ HR) as (b & n2 & n3 & E' & H2 & H3).
  destruct (completed oracle userId w); [done|].
  split; [done|]. split; [by exists pre, ids, bs|].
  split; [by apply batchesFollow_messagesAllAttempted, (r_try_batchesFollow _ _ _ _ HR)|].
  split; [by apply flatsNoneOrAll_flatsAllAttempted, (r_try_flats _ _ _ _ HR)|].
  assert (batch c ids bs ≠ []) as Hne.
  { intros Hb. apply (f_equal length) in Hb. rewrite batch_length in Hb by done.
    destruct ids; simpl in *; done. }
  split; [|split].
  - intros ->. rewrite E'. constructor; [done|].
    apply Forall_app. split; [by apply middle_none_flats|].
    destruct n3 as [|e n3 _] using rev_ind; [constructor|]. exfalso.
    destruct (batch messages ids bs) as [|e' l _] eqn:Eb using rev_ind; [done|].
    rewrite E' in E.
    assert ((EvDelete users userId b :: n2 ++ n3) ++ [e] = (pre ++ l) ++ [e']) as E2
        by (simpl; rewrite <- !app_assoc; exact E).
    apply app_inj_tail in E2 as [_ ->].
    pose proof (batch_only_isDelete messages ids bs) as Ho. rewrite Eb in Ho.
    apply Forall_app in Ho as [_ Ho]. inversion Ho as [|?? Hm _].
    apply Forall_app in H3 as [_ H3]. inversion H3 as [|?? (_ & Hm' & _) _].
    congruence.
  - intros Hc'. rewrite E'. destruct pre as [|e pre]; simpl in E; rewrite E' in E.
    + exfalso. pose proof (batch_only_isDelete c ids bs) as Ho. rewrite <- E in Ho.
      inversion Ho as [|?? Hu _]. simpl in Hu. apply bool_decide_eq_true in Hu. done.
    + injection E as <- _. inversion Hpre as [|?? Hb _]. simpl in Hb. subst b. by left.
  - intros ->.
    assert (none (isDelete users) (n2 ++ n3)) as HnoU.
    { apply Forall_app; split; eapply Forall_impl; eauto; simpl.
      - by intros ? [? _]. - by intros ? [? _]. }
    assert (i = userId ∧ b = false) as [-> ->].
    { rewrite E' in Hin. destruct Hin as [[= -> ->]|Hin]; [done|]. exfalso.
      unfold none in HnoU. rewrite Forall_forall in HnoU.
      apply list_elem_of_In, HnoU in Hin. simpl in Hin. done. }
    assert (pre = []) as ->.
    { destruct pre as [|e pre]; [done|]. rewrite E' in E. injection E as <- _.
      by inversion Hpre. }
    assert (n2 ++ n3 = []) as Hnil.
    { apply (only_none_nil (isDelete users)); [|done].
      pose proof (batch_only_isDelete users ids bs) as Ho. simpl in E.
      rewrite <- E, E' in Ho. by inversion Ho. }
    rewrite Hs, E', Hnil. done.
Qed.

Lemma C3_witness :
  In (EvDelete messages "m3" false) (removalCalls (rejectDelete messages "m3") "u1" demoWorld) ∧
  completed (rejectDelete messages "m3") "u1" demoWorld = false ∧
  none (isDelete flats) (removalCalls (rejectDelete messages "m3") "u1" demoWorld).
Proof.
  assert (In (EvDelete messages "m3" false)
             (removalCalls (rejectDelete messages "m3") "u1" demoWorld)) as H
      by (vm_compute; auto).
  split; [exact H|].
  pose proof (C3_rejected_deletion_ends_the_cascade
                (rejectDelete messages "m3") "u1" demoWorld messages "m3" H) as HC.
  simpl in HC. destruct HC as ((Hc & _) & _ & _ & _ & Hf & _). auto.
Defined.

(** C3 as stated fails: when the deletion of message "m3" is rejected, the
    user document "u1" has already been deleted. *)
Lemma C3_partialFailureContained_fails :
  ¬ partialFailureContained (rejectDelete messages "m3") "u1" demoWorld.
Proof.
  intros (H & _).
  assert (removalCalls (rejectDelete messages "m3") "u1" demoWorld =
          [EvDelete users "u1" true; EvQuery messages "senderId" "u1" (Some ["m3"; "m1"]);
           EvDelete messages "m3" false; EvDelete messages "m1" true]) as E
      by (vm_compute; reflexivity).
  apply H.
  - exists messages, "m3". rewrite E. simpl. auto.
  - rewrite E. simpl. auto.
Qed.

(** In the same execution the message "m2", attached to the user's flat "f1",
    is never attempted: each lookup has its own batch, and the cascade stops
    at the first batch with a rejected deletion. *)
Lemma stageSiblings_not_attempted :
  ¬ stageSiblingsAttempted (rejectDelete messages "m3") "u1" demoWorld.
Proof.
  intros H.
  assert (removalCalls (rejectDelete messages "m3") "u1" demoWorld =
          [EvDelete users "u1" true; EvQuery messages "senderId" "u1" (Some ["m3"; "m1"]);
           EvDelete messages "m3" false; EvDelete messages "m1" true]) as E
      by (vm_compute; reflexivity).
  assert (∃ i, In (EvDelete messages i false)
                   (removalCalls (rejectDelete messages "m3") "u1" demoWorld)) as HF
      by (exists "m3"; rewrite E; simpl; auto).
  destruct (H HF "m2") as (b & Hb).
  - exists (mkMessage "u2" "f1" "hello"). split; [by vm_compute|].
    right. exists (demoFlat "u1"). split; by vm_compute.
  - rewrite E in Hb. simpl in Hb.
    destruct Hb as [Hb|[Hb|[Hb|[Hb|[]]]]]; discriminate Hb.
Qed.

(** ** Lookups *)

Lemma In_matching {A} (p : A → bool) (m : gmap string A) k :
  In k (matching p m) ↔ ∃ x, m !! k = Some x ∧ p x = true.
Proof.
  unfold matching. rewrite <- list_elem_of_In, list_elem_of_fmap. split.
  - intros ([k' x] & -> & H). apply elem_of_map_to_list in H.
    apply map_lookup_filter_Some in H as [H1 H2]. eauto.
  - intros (x & H1 & H2). exists (k, x). split; [done|].
    apply elem_of_map_to_list, map_lookup_filter_Some. auto.
Qed.

Lemma matching_nil {A} (p : A → bool) (m : gmap string A) :
  (∀ k x, m !! k = Some x → p x = false) → matching p m = [].
Proof.
  intros H. destruct (matching p m) as [|k l] eqn:E; [done|]. exfalso.
  assert (In k (matching p m)) as Hin by (rewrite E; by left).
  apply In_matching in Hin as (x & H1 & H2). apply H in H1. congruence.
Qed.

Lemma matching_NoDup {A} (p : A → bool) (m : gmap string A) : NoDup (matching p m).
Proof. unfold matching. apply NoDup_fst_map_to_list. Qed.

(** ** Deleting a batch *)

Lemma replay_batch_messages ids bs s k :
  length bs = length ids → allOk bs = true → In k ids →
  st_messages (replay (batch messages ids bs) s) !! k = None.
Proof.
  unfold allOk, batch. revert bs s.
  induction ids as [|i ids IH]; intros [|b bs] s; simpl; try done.
  intros [= Hl] [-> Hb]%andb_prop Hin.
  change (st_messages (replay (zip_with (EvDelete messages) ids bs)
                              (deleteFrom messages i s)) !! k = None).
  destruct (decide (k = i)) as [->|Hne].
  - eapply lookup_weaken_None; [|apply replay_shrinks]. simpl. apply lookup_delete_eq.
  - destruct Hin as [?|Hin]; [done|]. by apply IH.
Qed.

Lemma replay_batch_flats ids bs s k :
  length bs = length ids → allOk bs = true → In k ids →
  st_flats (replay (batch flats ids bs) s) !! k = None.
Proof.
  unfold allOk, batch. revert bs s.
  induction ids as [|i ids IH]; intros [|b bs] s; simpl; try done.
  intros [= Hl] [-> Hb]%andb_prop Hin.
  change (st_flats (replay (zip_with (EvDelete flats) ids bs)
                           (deleteFrom flats i s)) !! k = None).
  destruct (decide (k = i)) as [->|Hne].
  - eapply lookup_weaken_None; [|apply replay_shrinks]. simpl. apply lookup_delete_eq.
  - destruct Hin as [?|Hin]; [done|]. by apply IH.
Qed.

Lemma noMessage_replay p n s : noMessage p s → noMessage p (replay n s).
Proof.
  intros H k x Hk. eapply H, lookup_weaken; [exact Hk|]. apply replay_shrinks.
Qed.

Lemma noFlat_replay p n s : noFlat p s → noFlat p (replay n s).
Proof.
  intros H k x Hk. eapply H, lookup_weaken; [exact Hk|]. apply replay_shrinks.
Qed.

(** ** Executions that run to the end *)

Lemma comp_Ok {A B} (R1 : Rel A) (R2 : A → Rel B) s b n :
  comp R1 R2 s (Ok b) n →
  ∃ a n1 n2, R1 s (Ok a) n1 ∧ R2 a (replay n1 s) (Ok b) n2 ∧ n = n1 ++ n2.
Proof. intros [[_ ?]|H]; done. Qed.

Lemma r_query_Ok c f v s ids n :
  r_query c f v s (Ok ids) n →
  ids = queryIds c f v s ∧ n = [EvQuery c f v (Some ids)] ∧ replay n s = s.
Proof. intros [[? _]|[[= ->] ->]]; done. Qed.

Lemma r_batch_Ok c ids s n :
  r_batch c ids s (Ok tt) n →
  ∃ bs, length bs = length ids ∧ n = batch c ids bs ∧ allOk bs = true.
Proof.
  intros (bs & Hl & -> & Hr). exists bs. destruct (allOk bs); done.
Qed.

(** A lookup on messages and the deletion of what it found leave no message
    that matches. *)
Lemma r_flatMessages_clean f s n :
  r_flatMessages f s (Ok tt) n → noMessage (messageField "flatID" f) (replay n s).
Proof.
  intros (ids & n1 & n2 & (-> & -> & Hs)%r_query_Ok & (bs & Hl & -> & Hb)%r_batch_Ok & ->)%comp_Ok.
  rewrite replay_app, Hs. intros k x Hk.
  destruct (messageField "flatID" f x) eqn:E; [|done]. exfalso.
  assert (In k (queryIds messages "flatID" f s)) as Hin.
  { apply In_matching. exists x. split; [|done].
    eapply lookup_weaken; [exact Hk|]. apply replay_shrinks. }
  rewrite (replay_batch_messages _ _ _ _ Hl Hb Hin) in Hk. done.
Qed.

Lemma r_forOf_clean fids s n :
  r_forOf fids r_flatMessages s (Ok tt) n →
  ∀ f, In f fids → noMessage (messageField "flatID" f) (replay n s).
Proof.
  revert s n. induction fids as [|f' fids IH]; simpl; intros s n H f Hin; [done|].
  apply comp_Ok in H as ([] & n1 & n2 & H1 & H2 & ->). rewrite replay_app.
  destruct Hin as [->|Hin].
  - apply noMessage_replay. by apply r_flatMessages_clean.
  - by apply IH.
Qed.

Lemma query_batch_clean f v s bs :
  length bs = length (queryIds messages f v s) → allOk bs = true →
  noMessage (messageField f v) (replay (batch messages (queryIds messages f v s) bs) s).
Proof.
  intros Hl Hb k x Hk. destruct (messageField f v x) eqn:E; [|done]. exfalso.
  assert (In k (queryIds messages f v s)) as Hin.
  { apply In_matching. exists x. split; [|done].
    eapply lookup_weaken; [exact Hk|]. apply replay_shrinks. }
  rewrite (replay_batch_messages _ _ _ _ Hl Hb Hin) in Hk. done.
Qed.

Lemma query_batch_clean_flats f v s s' bs :
  st_flats s' = st_flats s →
  length bs = length (queryIds flats f v s) → allOk bs = true →
  noFlat (flatField f v) (replay (batch flats (queryIds flats f v s) bs) s').
Proof.
  intros Hs Hl Hb k x Hk. destruct (flatField f v x) eqn:E; [|done]. exfalso.
  assert (In k (queryIds flats f v s)) as Hin.
  { apply In_matching. exists x. split; [|done]. rewrite <- Hs.
    eapply lookup_weaken; [exact Hk|]. apply replay_shrinks. }
  rewrite (replay_batch_flats _ _ _ _ Hl Hb Hin) in Hk. done.
Qed.

Lemma r_forOf_none_flats fids s r n :
  r_forOf fids r_flatMessages s r n → none (isDelete flats) n.
Proof. apply r_forOf_Forall. intros ????. by apply r_flatMessages_Forall. Qed.

(** The store an execution leaves when it runs to the end. *)
Lemma r_try_Ok_noOrphans u s n : r_try u s (Ok tt) n → noOrphans s (replay n s) u.
Proof.
  intros ([] & nd & n1 & (b & -> & Hb) & H & ->)%comp_Ok.
  destruct b; [clear Hb|done].
  set (s1 := replay [EvDelete users u true] s) in *.
  apply comp_Ok in H as (ids & nq & n2 & (-> & -> & Hq)%r_query_Ok & H & ->).
  rewrite Hq in H.
  apply comp_Ok in H as ([] & nb & n3 & (bs & Hl & -> & Hbs)%r_batch_Ok & H & ->).
  set (s2 := replay (batch messages (queryIds messages "senderId" u s1) bs) s1) in *.
  apply comp_Ok in H as (fids & nq2 & n4 & (-> & -> & Hq2)%r_query_Ok & H & ->).
  rewrite Hq2 in H.
  apply comp_Ok in H as ([] & nl & n5 & Hloop & H & ->).
  set (s3 := replay nl s2) in *.
  apply comp_Ok in H as ([] & nbf & n6 & (bs' & Hl' & -> & Hbs')%r_batch_Ok & [_ ->] & ->).
  rewrite app_nil_r.
  assert (st_flats s2 = st_flats s) as Hf2.
  { unfold s2, s1. rewrite !replay_none_flats; [done|by repeat constructor|].
    apply batch_Forall. done. }
  assert (st_flats s3 = st_flats s2) as Hf3.
  { unfold s3. apply replay_none_flats. by apply r_forOf_none_flats in Hloop. }
  assert (replay ([EvDelete users u true] ++
                  [EvQuery messages "senderId" u (Some (queryIds messages "senderId" u s1))] ++
                  batch messages (queryIds messages "senderId" u s1) bs ++
                  [EvQuery flats "ownerID" u (Some (queryIds flats "ownerID" u s2))] ++
                  nl ++ batch flats (queryIds flats "ownerID" u s2) bs') s
          = replay (batch flats (queryIds flats "ownerID" u s2) bs') s3) as ->.
  { rewrite !replay_app. fold s1. rewrite Hq. fold s2. rewrite Hq2. done. }
  assert (noMessage (messageField "senderId" u) s2) as Hm2
      by (by apply query_batch_clean).
  repeat split.
  - apply matching_nil. apply noMessage_replay. unfold s3. by apply noMessage_replay.
  - apply matching_nil. apply query_batch_clean_flats; done.
  - intros f Hin. apply matching_nil. apply noMessage_replay.
    apply (r_forOf_clean _ _ _ Hloop).
    unfold queryIds in *. by rewrite Hf2.
  - eapply lookup_weaken_None; [|apply replay_shrinks].
    eapply lookup_weaken_None; [|apply replay_shrinks].
    eapply lookup_weaken_None; [|apply replay_shrinks].
    unfold s1. simpl. apply lookup_delete_eq.
Qed.

(** C4.  After [handleRemoveUser] has run to the end, no message sent by the
    user is left, no flat owned by the user is left, no message attached to a
    flat the user owned is left (the three lookups come back empty), and the
    user document is gone. *)
Theorem C4_no_orphans_after_success (oracle : Oracle) (userId : string) (w : World) :
  completed oracle userId w = true →
  noOrphans (store w) (store (handleRemoveUser oracle userId w).2) userId.
Proof.
  intros Hc.
  destruct (removal_follows oracle userId w) as (_ & Hs & _ & _ & HR).
  rewrite Hc in HR. rewrite Hs. by apply r_try_Ok_noOrphans.
Qed.

Lemma C4_witness :
  completed reliable "u1" demoWorld = true ∧
  noOrphans demoStore (store (handleRemoveUser reliable "u1" demoWorld).2) "u1".
Proof.
  split; [reflexivity|].
  apply (C4_no_orphans_after_success reliable "u1" demoWorld). reflexivity.
Defined.

(** ** A store that rejects nothing *)

Lemma total_bind {A B} (m : Async A) (k : A → Async B) :
  total m → (∀ a, total (k a)) → total (bind m k).
Proof.
  intros Hm Hk w. unfold bind. specialize (Hm w).
  destruct (m w) as [[a|] w1]; [apply Hk|done].
Qed.

Lemma total_promiseAllDelete c ids : total (promiseAllDelete reliable c ids).
Proof.
  induction ids as [|i ids IH]; intros w; [done|]. simpl.
  specialize (IH (log (EvDelete c i true) (setStore (deleteFrom c i (store w)) w))).
  by destruct (promiseAllDelete reliable c ids _) as [r' w2].
Qed.

Lemma total_forOf {A} (xs : list A) (body : A → Async unit) :
  (∀ x, total (body x)) → total (forOf xs body).
Proof.
  intros H. induction xs as [|x xs IH]; [done|]. by apply total_bind.
Qed.

Lemma completed_reliable u w : completed reliable u w = true.
Proof.
  unfold completed. revert w. change (total (handleRemoveUser_try reliable u)).
  unfold handleRemoveUser_try.
  repeat (first [ apply total_bind; [|intros ?]
                | apply total_promiseAllDelete
                | apply total_forOf; intros ?
                | by intros ? ]).
Qed.

(** On a store that holds nothing of the user, a complete execution changes
    nothing. *)
Lemma r_try_Ok_noop u s0 s n :
  noOrphans s0 s u → r_try u s (Ok tt) n → replay n s = s.
Proof.
  intros (Hm & Hf & _ & Hu).
  intros ([] & nd & n1 & (b & -> & Hb) & H & ->)%comp_Ok.
  destruct b; [clear Hb|done].
  assert (replay [EvDelete users u true] s = s) as Hs1.
  { destruct s as [us fs ms]. unfold replay. simpl in *. by rewrite delete_id. }
  rewrite Hs1 in H.
  apply comp_Ok in H as (ids & nq & n2 & (-> & -> & Hq)%r_query_Ok & H & ->).
  rewrite Hq, Hm in H.
  apply comp_Ok in H as ([] & nb & n3 & (bs & Hl & -> & Hbs)%r_batch_Ok & H & ->).
  destruct bs; [|done]. change (replay (batch messages [] []) s) with s in H.
  apply comp_Ok in H as (fids & nq2 & n4 & (-> & -> & Hq2)%r_query_Ok & H & ->).
  rewrite Hq2, Hf in H. simpl in H.
  apply comp_Ok in H as ([] & nl & n5 & [_ ->] & H & ->).
  apply comp_Ok in H as ([] & nbf & n6 & (bs' & Hl' & -> & Hbs')%r_batch_Ok & [_ ->] & ->).
  destruct bs'; [|done].
  rewrite Hm, Hf. simpl. exact Hs1.
Qed.

Lemma removeFromCache_idem u l : removeFromCache u (removeFromCache u l) = removeFromCache u l.
Proof.
  unfold removeFromCache. induction l as [|x l IH]; [done|]. simpl.
  destruct (negb (bool_decide (x.1 = u))) eqn:E; simpl; rewrite ?E, IH; done.
Qed.

(** C5.  On a store that rejects nothing, [handleRemoveUser] run twice in a
    row runs to the end both times, alerts nothing, and leaves the store and
    the cached list exactly as the first run left them. *)
Theorem C5_idempotent (userId : string) (w : World) :
  let w1 := (handleRemoveUser reliable userId w).2 in
  let w2 := (handleRemoveUser reliable userId w1).2 in
  completed reliable userId w = true ∧ completed reliable userId w1 = true ∧
  store w2 = store w1 ∧ cache w2 = cache w1 ∧ alerts w2 = alerts w.
Proof.
  intros w1 w2. subst w2.
  pose proof (completed_reliable userId w) as Hc1.
  pose proof (completed_reliable userId w1) as Hc2.
  destruct (removal_follows reliable userId w) as (_ & Hs1 & Ha1 & Hk1 & HR1).
  destruct (removal_follows reliable userId w1) as (_ & Hs2 & Ha2 & Hk2 & HR2).
  fold w1 in Hs1, Ha1, Hk1.
  rewrite Hc1 in *. rewrite Hc2 in *.
  rewrite app_nil_r in Ha1, Ha2.
  repeat split; try done.
  - rewrite Hs2. eapply r_try_Ok_noop; [|exact HR2].
    rewrite Hs1. apply r_try_Ok_noOrphans. exact HR1.
  - rewrite Hk2, Hk1. apply removeFromCache_idem.
  - by rewrite Ha2.
Qed.

(** ** One message, one deletion *)

Lemma deletionsOf_app mid a b : deletionsOf mid (a ++ b) = deletionsOf mid a + deletionsOf mid b.
Proof. unfold deletionsOf. by rewrite List.filter_app, length_app. Qed.

Lemma slated_app a b : slated (a ++ b) = slated a ++ slated b.
Proof. unfold slated. by rewrite flat_map_app. Qed.

Lemma occurrences_app mid a b : occurrences mid (a ++ b) = occurrences mid a + occurrences mid b.
Proof. unfold occurrences. by rewrite List.filter_app, length_app. Qed.

Lemma notAbout_zero mid n :
  Forall (notAbout mid) n → deletionsOf mid n = 0 ∧ occurrences mid (slated n) = 0.
Proof.
  induction 1 as [|e n He _ [IH1 IH2]]; [done|].
  change (e :: n) with ([e] ++ n). rewrite deletionsOf_app, slated_app, occurrences_app, IH1, IH2.
  assert (occurrences mid [] = 0) as H0 by done.
  assert (∀ ids, ¬ In mid ids → occurrences mid (ids ++ []) = 0) as Hnot.
  { intros ids Hn. rewrite app_nil_r. unfold occurrences.
    induction ids as [|i ids IH]; [done|]. simpl.
    rewrite bool_decide_eq_false_2 by (intros ->; apply Hn; by left).
    apply IH. intros ?. apply Hn. by right. }
  destruct e as [[] i b|[] f v [ids|]|]; simpl in *; auto.
  - unfold deletionsOf. simpl. by rewrite bool_decide_eq_false_2.
  - by rewrite Hnot.
Qed.

Lemma occurrences_NoDup mid l : NoDup l → In mid l → occurrences mid l = 1.
Proof.
  unfold occurrences. induction 1 as [|i l Hi Hl IH]; [done|]. simpl.
  intros [->|Hin].
  - rewrite bool_decide_eq_true_2 by done. simpl. f_equal.
    clear IH Hl. induction l as [|j l IH]; [done|]. simpl.
    rewrite bool_decide_eq_false_2.
    + apply IH. intros ?. apply Hi. by right.
    + intros ->. apply Hi. by left.
  - rewrite bool_decide_eq_false_2; [by apply IH|].
    intros ->. by apply Hi, list_elem_of_In.
Qed.

Lemma deletionsOf_batch mid ids bs :
  length bs = length ids → deletionsOf mid (batch messages ids bs) = occurrences mid ids.
Proof.
  unfold deletionsOf, occurrences, batch. revert bs.
  induction ids as [|i ids IH]; intros [|b bs]; simpl; try done.
  intros [= Hl]. destruct (bool_decide (i = mid)); simpl; by rewrite IH.
Qed.

Lemma slated_batch c ids bs : slated (batch c ids bs) = [].
Proof.
  unfold slated, batch. revert bs.
  induction ids as [|i ids IH]; intros [|b bs]; simpl; auto.
Qed.

Lemma batch_notAbout mid ids bs : ¬ In mid ids → Forall (notAbout mid) (batch messages ids bs).
Proof.
  unfold batch. revert bs. induction ids as [|i ids IH]; intros [|b bs] Hn; simpl; try done.
  constructor.
  - simpl. intros ->. apply Hn. by left.
  - apply IH. intros ?. apply Hn. by right.
Qed.

(** Once the message is gone from the store, no later lookup finds it and no
    later batch deletes it. *)
Lemma absent_query mid f v s :
  st_messages s !! mid = None → ¬ In mid (queryIds messages f v s).
Proof. intros Hm (x & Hx & _)%In_matching. congruence. Qed.

Lemma r_flatMessages_notAbout mid f s r n :
  st_messages s !! mid = None → r_flatMessages f s r n → Forall (notAbout mid) n.
Proof.
  intros Hm [[[[_ ->]|[? _]] _]|(ids & n1 & n2 & Hq & (bs & Hl & -> & _) & ->)]; try done.
  { by repeat constructor. }
  destruct Hq as [[? _]|[[= ->] ->]]; [done|].
  pose proof (absent_query mid "flatID" f s Hm) as Hn.
  constructor; [done|]. by apply batch_notAbout.
Qed.

Lemma absent_replay mid n s :
  st_messages s !! mid = None → st_messages (replay n s) !! mid = None.
Proof. intros H. eapply lookup_weaken_None; [exact H|apply replay_shrinks]. Qed.

Lemma r_forOf_notAbout mid fids s r n :
  st_messages s !! mid = None → r_forOf fids r_flatMessages s r n → Forall (notAbout mid) n.
Proof.
  revert s r n. induction fids as [|f fids IH]; simpl; intros s r n Hm.
  - by intros [_ ->].
  - intros [[H _]|([] & n1 & n2 & H1 & H2 & ->)].
    + by eapply r_flatMessages_notAbout.
    + apply Forall_app. split; [by eapply r_flatMessages_notAbout|].
      eapply IH; [|exact H2]. by apply absent_replay.
Qed.

Lemma r_afterMessages_notAbout mid u s r n :
  st_messages s !! mid = None → r_afterMessages u s r n → Forall (notAbout mid) n.
Proof.
  intros Hm [[[[_ ->]|[? _]] _]|(fids & n1 & n2 & Hq & H & ->)]; try done.
  { by repeat constructor. }
  destruct Hq as [[? _]|[[= ->] ->]]; [done|].
  constructor; [done|].
  destruct H as [[H _]|([] & nl & n' & Hl & H & ->)].
  - eapply r_forOf_notAbout; [|exact H]. done.
  - apply Forall_app. split; [eapply r_forOf_notAbout; [|exact Hl]; done|].
    eapply comp_Forall; [| |exact H].
    + intros ???. apply r_batch_Forall. done.
    + intros ???? [_ ->]. constructor.
Qed.

Lemma r_try_once u s r n mid msg :
  st_messages s !! mid = Some msg → senderId msg = u → r_try u s r n →
  (deletionsOf mid n = 0 ∧ occurrences mid (slated n) = 0 ∧ ¬ senderLookupAnswered u n) ∨
  (deletionsOf mid n = 1 ∧ occurrences mid (slated n) = 1).
Proof.
  intros Hm Hu [[(b & -> & Hb) _]|([] & n1 & n' & (b & -> & Hb) & H & ->)].
  { left. repeat split; try done. intros (ids & [?|[]]). done. }
  destruct b; [clear Hb|done].
  set (s1 := replay [EvDelete users u true] s) in *.
  assert (st_messages s1 = st_messages s) as Hs1 by done.
  destruct H as [[[[_ ->]|[? _]] _]|(ids & nq & n2 & Hq & H & ->)]; try done.
  { left. repeat split; try done. intros (ids & [?|[?|[]]]); done. }
  destruct Hq as [[? _]|[[= ->] ->]]; [done|].
  right.
  assert (replay [EvQuery messages "senderId" u (Some (queryIds messages "senderId" u s1))] s1
          = s1) as Hq by done.
  rewrite Hq in H.
  assert (In mid (queryIds messages "senderId" u s1)) as Hin.
  { apply In_matching. exists msg. rewrite Hs1. split; [done|].
    unfold messageField. simpl. by apply bool_decide_eq_true. }
  assert (occurrences mid (queryIds messages "senderId" u s1) = 1) as Hocc
      by (apply occurrences_NoDup; [apply matching_NoDup|done]).
  assert (occurrences mid (matching (messageField "senderId" u) (st_messages s)) = 1)
    as Hocc' by exact Hocc.
  change ([EvDelete users u true] ++
          [EvQuery messages "senderId" u (Some (queryIds messages "senderId" u s1))] ++ n2)
    with ([EvDelete users u true;
           EvQuery messages "senderId" u (Some (queryIds messages "senderId" u s1))] ++ n2).
  rewrite deletionsOf_app, slated_app, occurrences_app.
  change (slated [EvDelete users u true;
                  EvQuery messages "senderId" u (Some (queryIds messages "senderId" u s1))])
    with (queryIds messages "senderId" u s1 ++ []).
  rewrite app_nil_r, Hocc.
  change (deletionsOf mid [EvDelete users u true;
            EvQuery messages "senderId" u (Some (queryIds messages "senderId" u s1))]) with 0.
  destruct H as [[(bs & Hl & -> & _) _]|([] & nb & n3 & (bs & Hl & -> & Hr) & H & ->)].
  - rewrite deletionsOf_batch, slated_batch, Hocc' by done. done.
  - rewrite deletionsOf_app, slated_app, occurrences_app.
    rewrite deletionsOf_batch, slated_batch, Hocc' by done.
    destruct (allOk bs) eqn:Hbs; [|done].
    assert (Forall (notAbout mid) n3) as Hn3.
    { eapply r_afterMessages_notAbout; [|exact H].
      by apply replay_batch_messages. }
    apply notAbout_zero in Hn3 as [-> ->]. done.
Qed.

(** C6.  A message in the store that the user sent and that is attached to a
    flat the user owns is found by one lookup only and deleted by one call
    only: never more than once, and exactly once as soon as the lookup of the
    user's messages is answered (the deletion by sender removes it before the
    lookup by flat runs). *)
Theorem C6_doubly_referenced_message_deleted_once
    (oracle : Oracle) (userId : string) (w : World) (mid : string) (msg : Message) :
  let calls := removalCalls oracle userId w in
  st_messages (store w) !! mid = Some msg →
  senderId msg = userId →
  ownsFlat (store w) userId (flatID msg) →
  ((deletionsOf mid calls ≤ 1)%nat ∧ (occurrences mid (slated calls) ≤ 1)%nat) ∧
  (senderLookupAnswered userId calls →
   deletionsOf mid calls = 1 ∧ occurrences mid (slated calls) = 1) ∧
  (completed oracle userId w = true →
   deletionsOf mid calls = 1 ∧ occurrences mid (slated calls) = 1).
Proof.
  intros calls Hm Hu _. subst calls.
  destruct (removal_follows oracle userId w) as (_ & _ & _ & _ & HR).
  pose proof (r_try_once _ _ _ _ _ _ Hm Hu HR) as [(H1 & H2 & H3)|[H1 H2]].
  - split; [rewrite H1, H2; lia|]. split; [done|].
    intros Hc. exfalso. rewrite Hc in HR.
    destruct HR as [[_ ?]|([] & nd & n1 & _ & H & E)]; [done|].
    apply comp_Ok in H as (ids & nq & n2 & (-> & -> & _)%r_query_Ok & _ & ->).
    apply H3. eexists. rewrite E. apply in_or_app. right. by left.
  - rewrite H1, H2. repeat split; lia.
Qed.

Lemma C6_witness :
  st_messages (store demoWorld) !! "m3" = Some (mkMessage "u1" "f1" "mine") ∧
  ownsFlat (store demoWorld) "u1" "f1" ∧
  deletionsOf "m3" (removalCalls reliable "u1" demoWorld) = 1 ∧
  occurrences "m3" (slated (removalCalls reliable "u1" demoWorld)) = 1.
Proof.
  assert (st_messages (store demoWorld) !! "m3" = Some (mkMessage "u1" "f1" "mine")) as Hm
      by (vm_compute; reflexivity).
  assert (ownsFlat (store demoWorld) "u1" "f1") as Ho.
  { exists (demoFlat "u1"). split; vm_compute; reflexivity. }
  split; [exact Hm|]. split; [exact Ho|].
  apply (C6_doubly_referenced_message_deleted_once reliable "u1" demoWorld "m3" _ Hm eq_refl Ho).
  reflexivity.
Defined.

(** ** The errors object *)

Lemma flag_empty cond key msg errors :
  flag cond key msg errors = ∅ → cond = false ∧ errors = ∅.
Proof.
  unfold flag. destruct cond; [|done]. intros H. by apply insert_non_empty in H.
Qed.

Lemma hasErrors_false errors : hasErrors errors = false → errors = ∅.
Proof. unfold hasErrors. intros H. by apply negb_false_iff, bool_decide_eq_true in H. Qed.

Lemma hasErrors_empty : hasErrors ∅ = false.
Proof. unfold hasErrors. by rewrite bool_decide_eq_true_2. Qed.

Lemma loginErrors_empty e p :
  validateField "email" e = None → validateField "password" p = None →
  loginErrors e p = ∅.
Proof.
  intros He Hp. unfold loginErrors. rewrite He, Hp. apply map_eq. intros k.
  rewrite lookup_omap, lookup_empty.
  destruct (decide (k = "password")) as [->|H1]; [by rewrite lookup_insert_eq|].
  rewrite lookup_insert_ne by done.
  destruct (decide (k = "email")) as [->|H2]; [by rewrite lookup_insert_eq|].
  by rewrite lookup_insert_ne.
Qed.

(** ** [loginAction] *)

Lemma login_rejects o formData (e p : string) w :
  formData !! "email" = Some e → formData !! "password" = Some p →
  validateField "email" (Some e) = None → validateField "password" (Some p) = None →
  o (trace w) (OpQuery users "email" e) = false →
  (∀ i u, st_users (store w) !! i = Some u → email u = Some e → password u ≠ Some p) →
  (loginAction o formData w).1 = Ok invalidCredentials.
Proof.
  intros He Hp Hve Hvp Ho Hwrong. unfold loginAction. rewrite He, Hp.
  rewrite (loginErrors_empty _ _ Hve Hvp), hasErrors_empty.
  unfold tryCatch, bind, getUserDocs, asString. rewrite Ho.
  destruct (map_to_list _) as [|[i u] docs] eqn:E; [done|].
  assert ((i, u) ∈ map_to_list (filter (λ kv : string * User, userField "email" e kv.2 = true)
                                       (st_users (store w)))) as Hin
      by (rewrite E; left).
  apply elem_of_map_to_list, map_lookup_filter_Some in Hin as [Hi Hf].
  unfold userField in Hf. simpl in Hf. apply bool_decide_eq_true in Hf.
  specialize (Hwrong i u Hi Hf).
  unfold storedPassword. by rewrite bool_decide_eq_true_2.
Qed.

(** Whatever is submitted, the answer to one and the same attempt is the same
    on a store where the email is registered with other passwords and on a
    store where it is not registered at all. *)
Lemma login_answer_independent_of_registration o formData w1 w2 :
  o (trace w1) (OpQuery users "email" (asString (formData !! "email"))) = false →
  o (trace w2) (OpQuery users "email" (asString (formData !! "email"))) = false →
  (∀ i u, st_users (store w1) !! i = Some u → email u = formData !! "email" →
          password u ≠ formData !! "password") →
  (∀ i u, st_users (store w2) !! i = Some u → email u ≠ formData !! "email") →
  (loginAction o formData w1).1 = (loginAction o formData w2).1.
Proof.
  intros Ho1 Ho2 Hwrong Hnone.
  destruct (hasErrors (loginErrors (formData !! "email") (formData !! "password"))) eqn:E.
  { unfold loginAction. by rewrite E. }
  apply hasErrors_false in E.
  assert (validateField "email" (formData !! "email") = None ∧
          validateField "password" (formData !! "password") = None) as [Hve Hvp].
  { assert (∀ k, loginErrors (formData !! "email") (formData !! "password") !! k = None) as Hk
        by (intros k; by rewrite E).
    unfold loginErrors in Hk. split.
    - specialize (Hk "email"). rewrite lookup_omap, lookup_insert_ne, lookup_insert_eq in Hk by done.
      simpl in Hk. destruct (validateField "email" _) as [msg|] eqn:Ev; [|done].
      unfold validateField, emailError in Ev. simpl in Ev.
      destruct (falsy _ || _); [injection Ev as <-; done|done].
    - specialize (Hk "password"). rewrite lookup_omap, lookup_insert_eq in Hk.
      simpl in Hk. destruct (validateField "password" _) as [msg|] eqn:Ev; [|done].
      unfold validateField, passwordError in Ev. simpl in Ev.
      destruct (falsy _ || _); [injection Ev as <-; done|].
      destruct (negb _ || _ || _); [injection Ev as <-; done|done]. }
  destruct (formData !! "email") as [e|] eqn:He; [|done].
  destruct (formData !! "password") as [p|] eqn:Hp; [|done].
  rewrite (login_rejects o formData e p w1), (login_rejects o formData e p w2); try done.
  intros i u Hi Hu. by destruct (Hnone i u Hi).
Qed.

(** C8.  Two login attempts that pass the field checks and whose lookup is
    answered, one with a registered email and a password that matches no
    account of that email, one with an email that is not registered, get the
    same answer, [{ errors: { general: 'Invalid credentials.' } }]: the answer
    does not tell whether the email has an account. *)
Theorem C8_login_does_not_reveal_accounts
    (oracle : Oracle) (w1 w2 : World)
    (formData1 formData2 : gmap string string) (e1 p1 e2 p2 : string) :
  formData1 !! "email" = Some e1 → formData1 !! "password" = Some p1 →
  formData2 !! "email" = Some e2 → formData2 !! "password" = Some p2 →
  validateField "email" (Some e1) = None → validateField "password" (Some p1) = None →
  validateField "email" (Some e2) = None → validateField "password" (Some p2) = None →
  oracle (trace w1) (OpQuery users "email" e1) = false →
  oracle (trace w2) (OpQuery users "email" e2) = false →
  (∃ i u, st_users (store w1) !! i = Some u ∧ email u = Some e1) →
  (∀ i u, st_users (store w1) !! i = Some u → email u = Some e1 → password u ≠ Some p1) →
  (∀ i u, st_users (store w2) !! i = Some u → email u ≠ Some e2) →
  (loginAction oracle formData1 w1).1 = Ok invalidCredentials ∧
  (loginAction oracle formData2 w2).1 = Ok invalidCredentials ∧
  (loginAction oracle formData1 w1).1 = (loginAction oracle formData2 w2).1.
Proof.
  intros He1 Hp1 He2 Hp2 Hve1 Hvp1 Hve2 Hvp2 Ho1 Ho2 _ Hwrong Hnone.
  assert ((loginAction oracle formData1 w1).1 = Ok invalidCredentials) as H1
      by (by eapply login_rejects).
  assert ((loginAction oracle formData2 w2).1 = Ok invalidCredentials) as H2.
  { eapply login_rejects; eauto. intros i u Hi Hu. by destruct (Hnone i u Hi). }
  rewrite H1, H2. done.
Qed.

Lemma C8_witness :
  (loginAction reliable (credentials "ann@x.io" "wrong1!") demoWorld).1 = Ok invalidCredentials ∧
  (loginAction reliable (credentials "zed@x.io" "pass1!") demoWorld).1 = Ok invalidCredentials.
Proof.
  assert (∀ i u, st_users demoStore !! i = Some u → i = "u1" ∨ i = "u2") as Hids.
  { intros i u. unfold demoStore. simpl.
    destruct (decide (i = "u1")) as [|H1]; [auto|]. rewrite lookup_insert_ne by done.
    destruct (decide (i = "u2")) as [|H2]; [auto|]. rewrite lookup_insert_ne by done.
    by rewrite lookup_empty. }
  pose proof (C8_login_does_not_reveal_accounts reliable demoWorld demoWorld
                (credentials "ann@x.io" "wrong1!") (credentials "zed@x.io" "pass1!")
                "ann@x.io" "wrong1!" "zed@x.io" "pass1!"
                eq_refl eq_refl eq_refl eq_refl eq_refl eq_refl eq_refl eq_refl eq_refl eq_refl)
    as H.
  destruct H as (H1 & H2 & _).
  - exists "u1", (demoUser "ann@x.io"). split; reflexivity.
  - intros i u Hi _. destruct (Hids i u Hi) as [-> | ->];
      vm_compute in Hi; injection Hi as <-; discriminate.
  - intros i u Hi. destruct (Hids i u Hi) as [-> | ->];
      vm_compute in Hi; injection Hi as <-; discriminate.
  - split; assumption.
Defined.

(** The users of the demonstration store. *)
Lemma demoStore_users i u :
  st_users demoStore !! i = Some u → u = demoUser "ann@x.io" ∨ u = demoUser "bob@x.io".
Proof.
  unfold demoStore. simpl.
  destruct (decide (i = "u1")) as [->|H1].
  { rewrite lookup_insert_eq. intros [= <-]. by left. }
  rewrite lookup_insert_ne by done.
  destruct (decide (i = "u2")) as [->|H2].
  { rewrite lookup_insert_eq. intros [= <-]. by right. }
  rewrite lookup_insert_ne by done. by rewrite lookup_empty.
Qed.

(** C8 as stated fails: the attempt is checked field by field before the
    store is asked.  With the registered email "ann@x.io" and the password
    "abc", which matches no account, the answer is the message of the password
    field, not "Invalid credentials.". *)
Lemma C8_refusedAlike_fails :
  ¬ refusedAlike reliable demoWorld demoWorld "ann@x.io" "abc" "zed@x.io" "abc".
Proof.
  intros H. destruct H as [H _].
  - exists "u1", (demoUser "ann@x.io"). split; reflexivity.
  - intros i u Hi _. by destruct (demoStore_users i u Hi) as [-> | ->].
  - intros i u Hi. by destruct (demoStore_users i u Hi) as [-> | ->].
  - apply (f_equal (messageFor "password")) in H. vm_compute in H. discriminate.
Qed.

(** ** [registerAction] *)

Lemma not_falsy (v : FormValue) : falsy v = false → ∃ s, v = Some s.
Proof. destruct v as [s|]; [eauto|done]. Qed.

(** Take an empty errors object apart: every test that could have flagged a
    field was false. *)
Ltac peel H :=
  repeat first
    [ apply flag_empty in H as [? H]
    | match type of H with
      | (if ?c then _ else _) = ∅ =>
          destruct c eqn:?; [by apply insert_non_empty in H|]
      end ];
  repeat match goal with
         | E : (_ || _) = false |- _ => apply orb_false_elim in E as [? ?]
         end.

Lemma registerErrors_email dateIsValid calculateAge formData :
  registerErrors dateIsValid calculateAge formData = ∅ → ∃ e, formData !! "email" = Some e.
Proof.
  unfold registerErrors. cbv zeta. intros H. peel H. by apply not_falsy.
Qed.

(** C9.  [registerAction] writes a user document only when every field check
    passes and no user document has the submitted email; whenever it returns
    errors the store is as it was; and the document it writes is the submitted
    one with [favoriteFlats = []] and [isAdmin = false]. *)
Theorem C9_register_writes_only_valid_new_users
    (oracle : Oracle) (autoId : list Event → string)
    (dateIsValid : string → bool) (calculateAge : string → Z)
    (formData : gmap string string) (now : Z) (w : World) :
  let r := registerAction oracle autoId dateIsValid calculateAge formData now w in
  (∀ errors, r.1 = Ok (ActErrors errors) → store r.2 = store w) ∧
  (store r.2 ≠ store w → r.1 = Ok ActSuccess) ∧
  (r.1 = Ok ActSuccess →
     registerErrors dateIsValid calculateAge formData = ∅ ∧
     (∀ i u, st_users (store w) !! i = Some u → email u ≠ formData !! "email") ∧
     ∃ i user, store r.2 = insertUser i user (store w) ∧
               email user = formData !! "email" ∧
               favoriteFlats user = [] ∧ isAdmin user = false).
Proof.
  unfold registerAction.
  destruct (hasErrors (registerErrors dateIsValid calculateAge formData)) eqn:E; simpl.
  { repeat split; done. }
  apply hasErrors_false in E.
  destruct (registerErrors_email _ _ _ E) as (e & He). rewrite He.
  unfold tryCatch, bind, getUserDocs, asString.
  destruct (oracle (trace w) (OpQuery users "email" e)); simpl.
  { repeat split; done. }
  destruct (map_to_list _) as [|d docs] eqn:Ed; simpl.
  2: { repeat split; done. }
  unfold addUser. simpl.
  destruct (oracle _ (OpAdd users)); simpl.
  { repeat split; done. }
  repeat split; try done.
  - intros i u Hi Hu.
    assert ((i, u) ∈ map_to_list (filter (λ kv : string * User, userField "email" e kv.2 = true)
                                         (st_users (store w)))) as Hin.
    { apply elem_of_map_to_list, map_lookup_filter_Some. split; [done|].
      unfold userField. simpl. by apply bool_decide_eq_true. }
    rewrite Ed in Hin. by apply elem_of_nil in Hin.
  - eexists _, _. split; [reflexivity|]. done.
Qed.

Lemma C9_witness :
  let r := registerAction reliable (fun _ => "u3") (fun _ => true) (fun _ => 36%Z)
                          demoRegisterForm 0 demoWorld in
  r.1 = Ok ActSuccess ∧
  ∃ i user, store r.2 = insertUser i user demoStore ∧
            email user = Some "cleo@x.io" ∧ favoriteFlats user = [] ∧ isAdmin user = false.
Proof.
  assert ((registerAction reliable (fun _ => "u3") (fun _ => true) (fun _ => 36%Z)
                          demoRegisterForm 0 demoWorld).1 = Ok ActSuccess) as H
      by (vm_compute; reflexivity).
  split; [exact H|].
  apply (C9_register_writes_only_valid_new_users reliable (fun _ => "u3") (fun _ => true)
           (fun _ => 36%Z) demoRegisterForm 0 demoWorld). exact H.
Defined.

(** ** Comparing doubles *)

Lemma SFcompare_antisym x y : SFcompare y x = option_map CompOpp (SFcompare x y).
Proof.
  destruct x as [s|s| |s m e], y as [s'|s'| |s' m' e']; simpl; try done;
    try (by destruct s); try (by destruct s'); try (by destruct s, s').
  destruct s, s'; simpl; try done.
  - rewrite (Z.compare_antisym e e'). destruct (e ?= e')%Z; simpl; try done.
    change (Pos.compare_cont Eq m' m) with (m' ?= m)%positive.
    change (Pos.compare_cont Eq m m') with (m ?= m')%positive.
    rewrite (Pos.compare_antisym m m'). by destruct (m ?= m')%positive.
  - rewrite (Z.compare_antisym e e'). destruct (e ?= e')%Z; simpl; try done.
    change (Pos.compare_cont Eq m' m) with (m' ?= m)%positive.
    change (Pos.compare_cont Eq m m') with (m ?= m')%positive.
    rewrite (Pos.compare_antisym m m'). by destruct (m ?= m')%positive.
Qed.

Lemma SFcompare_defined x y :
  isNaNdouble x = false → isNaNdouble y = false → ∃ c, SFcompare x y = Some c.
Proof. destruct x, y; simpl; try done; eauto. Qed.

(** For numbers, [!(x < c)] is [c <= x], and [!(x <= c)] is [c < x]. *)
Lemma not_lt_ge x c :
  isNaNdouble x = false → isNaNdouble c = false → SFltb x c = false → SFleb c x = true.
Proof.
  intros Hx Hc. unfold SFltb, SFleb. rewrite (SFcompare_antisym x c).
  destruct (SFcompare_defined x c Hx Hc) as ([] & ->); simpl; done.
Qed.

Lemma not_le_gt x c :
  isNaNdouble x = false → isNaNdouble c = false → SFleb x c = false → SFltb c x = true.
Proof.
  intros Hx Hc. unfold SFltb, SFleb. rewrite (SFcompare_antisym x c).
  destruct (SFcompare_defined x c Hx Hc) as ([] & ->); simpl; done.
Qed.

(** ** [newFlatAction] *)

(** C10.  When [newFlatAction] succeeds, the flat document it wrote has
    [streetNumber], [areaSize], [yearBuilt] and [rentPrice] equal to
    [Number] of the submitted strings, has as [ownerID] what
    [localStorage.getItem('loggedInUser')] answered, and meets the checked
    conditions: [areaSize > 0], [rentPrice > 0] and
    [1900 <= yearBuilt <= current year]. *)
Theorem C10_new_flat_document
    (oracle : Oracle) (autoId : list Event → string)
    (Number : string → spec_float) (currentYear : spec_float)
    (dateOutOfRange : string → bool) (dateRangeMessage : string)
    (formData files localStorage : gmap string string) (now : Z) (w : World) :
  let r := newFlatAction oracle autoId Number currentYear dateOutOfRange dateRangeMessage
                         formData files localStorage now w in
  isNaNdouble currentYear = false →
  r.1 = Ok ActSuccess →
  ∃ i flat sN aS yB rP,
    store r.2 = insertFlat i flat (store w) ∧
    formData !! "streetNumber" = Some sN ∧ streetNumber flat = Number sN ∧
    formData !! "areaSize" = Some aS ∧ areaSize flat = Number aS ∧
    formData !! "yearBuilt" = Some yB ∧ yearBuilt flat = Number yB ∧
    formData !! "rentPrice" = Some rP ∧ rentPrice flat = Number rP ∧
    ownerID flat = localStorage !! "loggedInUser" ∧
    SFltb (S754_zero false) (areaSize flat) = true ∧
    SFltb (S754_zero false) (rentPrice flat) = true ∧
    SFleb (double 1900) (yearBuilt flat) = true ∧
    SFleb (yearBuilt flat) currentYear = true.
Proof.
  intros r Hyear. subst r. unfold newFlatAction.
  destruct (hasErrors (newFlatErrors _ _ _ _ _ _)) eqn:E; simpl; [done|].
  apply hasErrors_false in E.
  unfold tryCatch, bind, addFlat.
  destruct (oracle (trace w) (OpAdd flats)); simpl; [done|]. intros _.
  unfold newFlatErrors in E. cbv zeta in E. peel E.
  repeat match goal with
         | H : falsy (formData !! _) = false |- _ => apply not_falsy in H as [? H]
         end.
  repeat match goal with
         | H : formData !! _ = Some _ |- _ => rewrite H in *; clear H
         end.
  unfold isNaN, notPositive, below, above, toNumber in *.
  eexists _, _, _, _, _, _. split; [reflexivity|]. simpl.
  repeat split; try reflexivity.
  - by apply not_le_gt.
  - by apply not_le_gt.
  - by apply not_lt_ge.
  - by apply not_lt_ge.
Qed.

Lemma C10_witness :
  let r := newFlatAction reliable (fun _ => "f9") demoNumber (double 2026) (fun _ => false)
                         "out of range" demoFlatForm demoFiles demoLocalStorage 0 demoWorld in
  isNaNdouble (double 2026) = false ∧ r.1 = Ok ActSuccess ∧
  ∃ i flat sN aS yB rP,
    store r.2 = insertFlat i flat (store demoWorld) ∧
    demoFlatForm !! "streetNumber" = Some sN ∧ streetNumber flat = demoNumber sN ∧
    demoFlatForm !! "areaSize" = Some aS ∧ areaSize flat = demoNumber aS ∧
    demoFlatForm !! "yearBuilt" = Some yB ∧ yearBuilt flat = demoNumber yB ∧
    demoFlatForm !! "rentPrice" = Some rP ∧ rentPrice flat = demoNumber rP ∧
    ownerID flat = demoLocalStorage !! "loggedInUser" ∧
    SFltb (S754_zero false) (areaSize flat) = true ∧
    SFltb (S754_zero false) (rentPrice flat) = true ∧
    SFleb (double 1900) (yearBuilt flat) = true ∧
    SFleb (yearBuilt flat) (double 2026) = true.
Proof.
  assert (isNaNdouble (double 2026) = false) as Hy by reflexivity.
  assert ((newFlatAction reliable (fun _ => "f9") demoNumber (double 2026) (fun _ => false)
             "out of range" demoFlatForm demoFiles demoLocalStorage 0 demoWorld).1
          = Ok ActSuccess) as Hr by (vm_compute; reflexivity).
  split; [exact Hy|]. split; [exact Hr|].
  exact (C10_new_flat_document reliable (fun _ => "f9") demoNumber (double 2026)
           (fun _ => false) "out of range" demoFlatForm demoFiles demoLocalStorage 0 demoWorld
           Hy Hr).
Defined.

(** * More about [handleRemoveUser] *)

(** ** Nothing but the user's own data is addressed *)

Lemma within_refl s : within s s.
Proof. by repeat split. Qed.

Lemma within_replay s0 s n : within s0 s → within s0 (replay n s).
Proof.
  intros (Hu & Hf & Hm). destruct (replay_shrinks n s) as (Hu' & Hf' & Hm').
  repeat split; etrans; eauto.
Qed.

Lemma batch_Forall_In (P : Event → Prop) c ids bs :
  (∀ i b, In i ids → P (EvDelete c i b)) → Forall P (batch c ids bs).
Proof.
  unfold batch. revert bs. induction ids as [|i ids IH]; intros [|b bs] H; simpl; try done.
  constructor; [apply H; by left|]. apply IH. intros j b' Hj. apply H. by right.
Qed.

Lemma sender_query_targets s0 s u i :
  within s0 s → In i (queryIds messages "senderId" u s) → inDeletionSet s0 u i.
Proof.
  intros (_ & _ & Hm) (x & Hx & Hp)%In_matching.
  unfold messageField in Hp. simpl in Hp. apply bool_decide_eq_true in Hp.
  exists x. split; [by eapply lookup_weaken|by left].
Qed.

Lemma flat_query_targets s0 s u f i :
  within s0 s → ownsFlat s0 u f → In i (queryIds messages "flatID" f s) →
  inDeletionSet s0 u i.
Proof.
  intros (_ & _ & Hm) Ho (x & Hx & Hp)%In_matching.
  unfold messageField in Hp. simpl in Hp. apply bool_decide_eq_true in Hp.
  exists x. split; [by eapply lookup_weaken|]. right. by rewrite Hp.
Qed.

Lemma owner_query_targets s0 s u f :
  within s0 s → In f (queryIds flats "ownerID" u s) → ownsFlat s0 u f.
Proof.
  intros (_ & Hf & _) (x & Hx & Hp)%In_matching.
  unfold flatField in Hp. simpl in Hp. apply bool_decide_eq_true in Hp.
  exists x. split; [by eapply lookup_weaken|done].
Qed.

Lemma r_flatMessages_targets s0 u f s r n :
  within s0 s → ownsFlat s0 u f → r_flatMessages f s r n → Forall (target s0 u) n.
Proof.
  intros Hw Ho [[[[_ ->]|[? _]] _]|(ids & n1 & n2 & Hq & (bs & Hl & -> & _) & ->)]; try done.
  { by repeat constructor. }
  destruct Hq as [[? _]|[[= ->] ->]]; [done|].
  constructor; [done|]. apply batch_Forall_In. intros i b Hi. simpl.
  by eapply flat_query_targets.
Qed.

Lemma r_forOf_targets s0 u fids s r n :
  within s0 s → (∀ f, In f fids → ownsFlat s0 u f) →
  r_forOf fids r_flatMessages s r n → Forall (target s0 u) n.
Proof.
  revert s r n. induction fids as [|f fids IH]; simpl; intros s r n Hw Ho.
  - by intros [_ ->].
  - intros [[H _]|([] & n1 & n2 & H1 & H2 & ->)].
    + eapply r_flatMessages_targets; eauto.
    + apply Forall_app. split; [eapply r_flatMessages_targets; eauto|].
      eapply IH; [| |exact H2]; [by apply within_replay|eauto].
Qed.

Lemma r_afterMessages_targets s0 u s r n :
  within s0 s → r_afterMessages u s r n → Forall (target s0 u) n.
Proof.
  intros Hw [[[[_ ->]|[? _]] _]|(fids & n1 & n2 & Hq & H & ->)]; try done.
  { by repeat constructor. }
  destruct Hq as [[? _]|[[= ->] ->]]; [done|].
  assert (∀ f, In f (queryIds flats "ownerID" u s) → ownsFlat s0 u f) as Ho
      by (intros f; by apply owner_query_targets).
  constructor; [done|].
  destruct H as [[H _]|([] & nl & n' & Hl & H & ->)].
  - eapply r_forOf_targets; [| |exact H]; [by apply within_replay|done].
  - apply Forall_app. split.
    + eapply r_forOf_targets; [| |exact Hl]; [by apply within_replay|done].
    + eapply comp_Forall; [| |exact H].
      * intros ??? (bs & _ & -> & _). apply batch_Forall_In. intros i b Hi. simpl. auto.
      * intros ???? [_ ->]. constructor.
Qed.

Lemma r_try_targets u s r n : r_try u s r n → Forall (target s u) n.
Proof.
  intros [[(b & -> & _) _]|([] & n1 & n' & (b & -> & _) & H & ->)].
  { by repeat constructor. }
  constructor; [done|].
  assert (within s (replay [EvDelete users u b] s)) as Hw
      by apply within_replay, within_refl.
  destruct H as [[[[_ ->]|[? _]] _]|(ids & nq & n2 & Hq & H & ->)]; try done.
  { by repeat constructor. }
  destruct Hq as [[? _]|[[= ->] ->]]; [done|].
  constructor; [done|].
  destruct H as [[(bs & _ & -> & _) _]|([] & nb & n3 & (bs & _ & -> & _) & H & ->)].
  - apply batch_Forall_In. intros i b' Hi. simpl. by eapply sender_query_targets.
  - apply Forall_app. split.
    + apply batch_Forall_In. intros i b' Hi. simpl. by eapply sender_query_targets.
    + eapply r_afterMessages_targets; [|exact H]. by do 2 apply within_replay.
Qed.

(** Replaying deletions that address only the user's data leaves the rest. *)
Lemma replay_targets_frame s0 u n s :
  Forall (target s0 u) n →
  (∀ i, i ≠ u → st_users (replay n s) !! i = st_users s !! i) ∧
  (∀ i, ¬ ownsFlat s0 u i → st_flats (replay n s) !! i = st_flats s !! i) ∧
  (∀ i, ¬ inDeletionSet s0 u i → st_messages (replay n s) !! i = st_messages s !! i).
Proof.
  intros H. revert s. induction H as [|e n He _ IH]; intros s; [done|].
  change (replay (e :: n) s) with (replay n (applyEvent s e)).
  destruct (IH (applyEvent s e)) as (IHu & IHf & IHm).
  repeat split; intros i Hi.
  - rewrite IHu by done. destruct e as [[] j []| |]; simpl in *; try done.
    subst j. by rewrite lookup_delete_ne.
  - rewrite IHf by done. destruct e as [[] j []| |]; simpl in *; try done.
    rewrite lookup_delete_ne; [done|]. by intros ->.
  - rewrite IHm by done. destruct e as [[] j []| |]; simpl in *; try done.
    rewrite lookup_delete_ne; [done|]. by intros ->.
Qed.

(** X1.  Whatever the store rejects, [handleRemoveUser] deletes nothing but
    the user's own data: every other user document, every flat of another
    owner, and every message that the user did not send and that is not
    attached to one of the user's flats is still there, unchanged. *)
Theorem removal_touches_only_own_data (oracle : Oracle) (userId : string) (w : World) :
  let s := store w in
  let s' := store (handleRemoveUser oracle userId w).2 in
  (∀ i x, st_users s !! i = Some x → i ≠ userId → st_users s' !! i = Some x) ∧
  (∀ i x, st_flats s !! i = Some x → ownerID x ≠ Some userId → st_flats s' !! i = Some x) ∧
  (∀ i x, st_messages s !! i = Some x → senderId x ≠ userId →
          ¬ ownsFlat s userId (flatID x) → st_messages s' !! i = Some x).
Proof.
  destruct (removal_follows oracle userId w) as (_ & Hs & _ & _ & HR). simpl.
  apply r_try_targets in HR.
  destruct (replay_targets_frame _ _ _ (store w) HR) as (Hu & Hf & Hm).
  rewrite Hs. repeat split.
  - intros i x Hx Hi. by rewrite Hu.
  - intros i x Hx Hi. rewrite Hf; [done|]. intros (y & Hy & Ho). congruence.
  - intros i x Hx Hsnd Hflat. rewrite Hm; [done|].
    intros (y & Hy & [Hsy|Hfy]); assert (y = x) as -> by congruence; done.
Qed.

Lemma removal_touches_only_own_data_witness :
  st_users (store (handleRemoveUser (rejectDelete flats "f2") "u1" demoWorld).2) !! "u2"
    = Some (demoUser "bob@x.io") ∧
  st_flats (store (handleRemoveUser (rejectDelete flats "f2") "u1" demoWorld).2) !! "f3"
    = Some (demoFlat "u2").
Proof.
  pose proof (removal_touches_only_own_data (rejectDelete flats "f2") "u1" demoWorld)
    as (Hu & Hf & _).
  split.
  - apply Hu; [reflexivity|discriminate].
  - apply Hf; [reflexivity|discriminate].
Defined.

(** ** The store a complete run leaves, exactly *)

Lemma r_try_frame u s r n :
  r_try u s r n →
  (∀ i, i ≠ u → st_users (replay n s) !! i = st_users s !! i) ∧
  (∀ i, ¬ ownsFlat s u i → st_flats (replay n s) !! i = st_flats s !! i) ∧
  (∀ i, ¬ inDeletionSet s u i → st_messages (replay n s) !! i = st_messages s !! i).
Proof. intros H. apply replay_targets_frame. exact (r_try_targets _ _ _ _ H). Qed.

Lemma ownsFlat_within s0 s u f : within s0 s → ownsFlat s u f → ownsFlat s0 u f.
Proof. intros (_ & Hf & _) (x & Hx & Ho). exists x. split; [by eapply lookup_weaken|done]. Qed.

Lemma inDeletionSet_within s0 s u i :
  within s0 s → inDeletionSet s u i → inDeletionSet s0 u i.
Proof.
  intros Hw (x & Hx & H). exists x. split; [eapply lookup_weaken; [exact Hx|apply Hw]|].
  destruct H as [?|(y & Hy & Ho)]; [by left|]. right.
  exists y. split; [eapply lookup_weaken; [exact Hy|apply Hw]|done].
Qed.

(** No orphans, nothing added, nothing else removed: the store is the
    original one minus the user's data. *)
Lemma noOrphans_exact s s' u :
  noOrphans s s' u → within s s' →
  (∀ i, i ≠ u → st_users s' !! i = st_users s !! i) →
  (∀ i, ¬ ownsFlat s u i → st_flats s' !! i = st_flats s !! i) →
  (∀ i, ¬ inDeletionSet s u i → st_messages s' !! i = st_messages s !! i) →
  removedExactly s s' u.
Proof.
  intros (Hqm & Hqf & Hqfm & Hu) (Wu & Wf & Wm) Fu Ff Fm. repeat split.
  - by eapply lookup_weaken.
  - intros ->. congruence.
  - intros [Hx Hi]. by rewrite Fu.
  - by eapply lookup_weaken.
  - intros Ho. assert (In i (queryIds flats "ownerID" u s')) as Hin.
    { apply In_matching. exists x. split; [done|].
      unfold flatField. simpl. by apply bool_decide_eq_true. }
    by rewrite Hqf in Hin.
  - intros [Hx Ho]. rewrite Ff; [done|]. intros (y & Hy & Hoy). congruence.
  - by eapply lookup_weaken.
  - intros Hsnd. assert (In i (queryIds messages "senderId" u s')) as Hin.
    { apply In_matching. exists x. split; [done|].
      unfold messageField. simpl. by apply bool_decide_eq_true. }
    by rewrite Hqm in Hin.
  - intros (y & Hy & Ho).
    assert (In (flatID x) (queryIds flats "ownerID" u s)) as Hf.
    { apply In_matching. exists y. split; [done|].
      unfold flatField. simpl. by apply bool_decide_eq_true. }
    apply Hqfm in Hf.
    assert (In i (queryIds messages "flatID" (flatID x) s')) as Hin.
    { apply In_matching. exists x. split; [done|].
      unfold messageField. simpl. by apply bool_decide_eq_true. }
    by rewrite Hf in Hin.
  - intros (Hx & Hsnd & Hflat). rewrite Fm; [done|].
    intros (y & Hy & [Hsy|Hfy]); assert (y = x) as -> by congruence; done.
Qed.

(** X2.  When [handleRemoveUser] runs to the end, the store it leaves is
    exactly the store it started on minus the user document, the flats the
    user owned, and the messages the user sent or that were attached to one
    of those flats; every other document is there with the same content. *)
Theorem complete_removal_is_exact (oracle : Oracle) (userId : string) (w : World) :
  completed oracle userId w = true →
  removedExactly (store w) (store (handleRemoveUser oracle userId w).2) userId.
Proof.
  intros Hc.
  destruct (removal_follows oracle userId w) as (_ & Hs & _ & _ & HR).
  rewrite Hc in HR. rewrite Hs.
  destruct (r_try_frame _ _ _ _ HR) as (Fu & Ff & Fm).
  apply noOrphans_exact; try done.
  - by apply r_try_Ok_noOrphans.
  - apply within_replay, within_refl.
Qed.

Lemma complete_removal_is_exact_witness :
  completed reliable "u1" demoWorld = true ∧
  removedExactly demoStore (store (handleRemoveUser reliable "u1" demoWorld).2) "u1".
Proof.
  split; [reflexivity|].
  apply (complete_removal_is_exact reliable "u1" demoWorld). reflexivity.
Defined.

(** ** After a failure *)

Lemma queryIds_flats_ext f v s s' :
  st_flats s = st_flats s' → queryIds flats f v s = queryIds flats f v s'.
Proof. unfold queryIds. by intros ->. Qed.

(** How far a run got with the flats: either it attempted no flat deletion and
    threw, or it ends with the batch of the user's flats, reached after every
    message attached to one of them was deleted. *)
Lemma r_afterMessages_flats_cases u s r n :
  r_afterMessages u s r n →
  (none (isDelete flats) n ∧ r = Throw) ∨
  (∃ pre bs, n = pre ++ batch flats (queryIds flats "ownerID" u s) bs ∧
             length bs = length (queryIds flats "ownerID" u s) ∧
             none (isDelete flats) pre ∧ r = (if allOk bs then Ok tt else Throw) ∧
             ∀ f, In f (queryIds flats "ownerID" u s) →
                  noMessage (messageField "flatID" f) (replay pre s)).
Proof.
  intros [[[[_ ->]|[? _]] ->]|(fids & n1 & n2 & Hq & H & ->)]; try done.
  { left. split; [by repeat constructor|done]. }
  destruct Hq as [[? _]|[[= ->] ->]]; [done|].
  change (replay [EvQuery flats "ownerID" u (Some (queryIds flats "ownerID" u s))] s)
    with s in H.
  destruct H as [[H ->]|([] & nl & n' & Hl & H & ->)].
  - left. split; [|done]. constructor; [done|]. exact (r_forOf_none_flats _ _ _ _ H).
  - right.
    assert (∃ bs, n' = batch flats (queryIds flats "ownerID" u s) bs ∧
                  length bs = length (queryIds flats "ownerID" u s) ∧
                  r = if allOk bs then Ok tt else Throw) as (bs & -> & Hb & Hr).
    { destruct H as [[(bs & Hb & -> & Hr) ->]|([] & nb & ? & (bs & Hb & -> & Hr) & [-> ->] & ->)].
      - exists bs. by repeat split.
      - exists bs. rewrite app_nil_r. by repeat split. }
    exists (EvQuery flats "ownerID" u (Some (queryIds flats "ownerID" u s)) :: nl), bs.
    repeat split; try done.
    + constructor; [done|]. exact (r_forOf_none_flats _ _ _ _ Hl).
    + intros f Hf. apply (r_forOf_clean _ _ _ Hl f Hf).
Qed.

Lemma r_try_flats_cases u s r n :
  r_try u s r n →
  (none (isDelete flats) n ∧ r = Throw) ∨
  (∃ pre bs, n = pre ++ batch flats (queryIds flats "ownerID" u s) bs ∧
             length bs = length (queryIds flats "ownerID" u s) ∧
             none (isDelete flats) pre ∧ r = (if allOk bs then Ok tt else Throw) ∧
             ∀ f, In f (queryIds flats "ownerID" u s) →
                  noMessage (messageField "flatID" f) (replay pre s)).
Proof.
  intros [[(b & -> & _) ->]|([] & n1 & n' & (b & -> & _) & H & ->)].
  { left. split; [by repeat constructor|done]. }
  set (s1 := replay [EvDelete users u b] s) in *.
  destruct H as [[[[_ ->]|[? _]] ->]|(ids & nq & n2 & Hq & H & ->)]; try done.
  { left. split; [by repeat constructor|done]. }
  destruct Hq as [[? _]|[[= ->] ->]]; [done|].
  change (replay [EvQuery messages "senderId" u (Some (queryIds messages "senderId" u s1))] s1)
    with s1 in H.
  destruct H as [[(bs & _ & -> & _) ->]|([] & nb & n3 & (bs & _ & -> & _) & H & ->)].
  { left. split; [|done]. do 2 (constructor; [done|]). by apply batch_Forall. }
  set (s2 := replay (batch messages (queryIds messages "senderId" u s1) bs) s1) in *.
  assert (none (isDelete flats)
            ([EvDelete users u b] ++
             [EvQuery messages "senderId" u (Some (queryIds messages "senderId" u s1))] ++
             batch messages (queryIds messages "senderId" u s1) bs)) as Hpre.
  { do 2 (constructor; [done|]). by apply batch_Forall. }
  assert (st_flats s2 = st_flats s) as Hf2.
  { unfold s2, s1. rewrite !replay_none_flats; [done|by repeat constructor|].
    by apply batch_Forall. }
  rewrite <- (queryIds_flats_ext "ownerID" u s2 s Hf2).
  apply r_afterMessages_flats_cases in H as [[Hn ->]|(pre & bs' & -> & Hl & Hn & -> & Hclean)].
  - left. split; [|done]. rewrite !app_assoc. apply Forall_app. split; [|done].
    by rewrite <- !app_assoc.
  - right.
    exists ([EvDelete users u b] ++
            [EvQuery messages "senderId" u (Some (queryIds messages "senderId" u s1))] ++
            batch messages (queryIds messages "senderId" u s1) bs ++ pre), bs'.
    split; [by rewrite <- !app_assoc|]. split; [done|]. split.
    + rewrite !app_assoc. apply Forall_app. split; [|done]. by rewrite <- !app_assoc.
    + split; [done|]. intros f Hf. rewrite !app_assoc, replay_app, <- !app_assoc.
      change (replay ([EvDelete users u b] ++
                [EvQuery messages "senderId" u (Some (queryIds messages "senderId" u s1))] ++
                batch messages (queryIds messages "senderId" u s1) bs) s) with s2.
      by apply Hclean.
Qed.

(** A flat of the user that a run has deleted has no message left. *)
Lemma r_try_flat_gone u s r n f :
  r_try u s r n → In f (queryIds flats "ownerID" u s) →
  st_flats (replay n s) !! f = None →
  noMessage (messageField "flatID" f) (replay n s).
Proof.
  intros HR Hf Hgone.
  apply r_try_flats_cases in HR as [[Hn _]|(pre & bs & -> & _ & _ & _ & Hclean)].
  - exfalso. rewrite (replay_none_flats _ _ Hn) in Hgone.
    apply In_matching in Hf as (x & Hx & _). congruence.
  - rewrite replay_app. apply noMessage_replay. by apply Hclean.
Qed.

(** X3.  A run that fails can be repeated: whatever the first run did, once a
    second run on the store it left runs to the end, the store is exactly the
    original one minus the user's data, as after a single complete run. *)
Theorem retry_completes_the_removal (oracle1 oracle2 : Oracle) (userId : string) (w : World) :
  let w1 := (handleRemoveUser oracle1 userId w).2 in
  let w2 := (handleRemoveUser oracle2 userId w1).2 in
  completed oracle2 userId w1 = true →
  removedExactly (store w) (store w2) userId ∧ noOrphans (store w) (store w2) userId.
Proof.
  intros w1 w2 Hc. subst w2.
  destruct (removal_follows oracle1 userId w) as (_ & Hs1 & _ & _ & HR1).
  destruct (removal_follows oracle2 userId w1) as (_ & Hs2 & _ & _ & HR2).
  fold w1 in Hs1. rewrite Hc in HR2.
  set (s := store w) in *. set (s1 := store w1) in *.
  set (s2 := store (handleRemoveUser oracle2 userId w1).2) in *.
  assert (within s s1) as W1 by (rewrite Hs1; apply within_replay, within_refl).
  assert (within s1 s2) as W12 by (rewrite Hs2; apply within_replay, within_refl).
  assert (within s s2) as W2.
  { destruct W1 as (?&?&?), W12 as (?&?&?). repeat split; etrans; eauto. }
  destruct (r_try_frame _ _ _ _ HR1) as (Fu1 & Ff1 & Fm1). rewrite <- Hs1 in Fu1, Ff1, Fm1.
  destruct (r_try_frame _ _ _ _ HR2) as (Fu2 & Ff2 & Fm2). rewrite <- Hs2 in Fu2, Ff2, Fm2.
  pose proof (r_try_Ok_noOrphans _ _ _ HR2) as (Hqm & Hqf & Hqfm & Hu). rewrite <- Hs2 in *.
  assert (noOrphans s s2 userId) as HNO.
  { repeat split; try done. intros f Hf.
    destruct (st_flats s1 !! f) as [y|] eqn:Ey.
    - apply Hqfm. apply In_matching in Hf as (x & Hx & Hp). apply In_matching.
      exists y. split; [done|].
      assert (st_flats s !! f = Some y) as Hy
          by (eapply lookup_weaken; [exact Ey|apply W1]).
      congruence.
    - apply matching_nil. rewrite Hs2. apply noMessage_replay.
      rewrite Hs1. eapply r_try_flat_gone; eauto. by rewrite <- Hs1. }
  split; [|done]. apply noOrphans_exact; try done.
  - intros i Hi. by rewrite Fu2, Fu1.
  - intros i Hi. rewrite Ff2; [by rewrite Ff1|]. intros Ho. apply Hi.
    exact (ownsFlat_within _ _ _ _ W1 Ho).
  - intros i Hi. rewrite Fm2; [by rewrite Fm1|]. intros Hd. apply Hi.
    exact (inDeletionSet_within _ _ _ _ W1 Hd).
Qed.

Lemma retry_completes_the_removal_witness :
  completed (rejectDelete messages "m3") "u1" demoWorld = false ∧
  completed reliable "u1" (handleRemoveUser (rejectDelete messages "m3") "u1" demoWorld).2 = true ∧
  noOrphans demoStore
    (store (handleRemoveUser reliable "u1"
              (handleRemoveUser (rejectDelete messages "m3") "u1" demoWorld).2).2) "u1".
Proof.
  split; [reflexivity|]. split; [reflexivity|].
  apply (retry_completes_the_removal (rejectDelete messages "m3") reliable "u1" demoWorld).
  reflexivity.
Defined.

(** A rejected deletion of a batch without repeated ids leaves its document. *)
Lemma replay_batch_flats_other ids bs s i :
  ¬ In i ids → st_flats (replay (batch flats ids bs) s) !! i = st_flats s !! i.
Proof.
  unfold batch. revert bs s. induction ids as [|j ids IH]; intros [|b bs] s Hn; simpl; try done.
  change (st_flats (replay (zip_with (EvDelete flats) ids bs)
                           (applyEvent s (EvDelete flats j b))) !! i = st_flats s !! i).
  rewrite IH by (intros ?; apply Hn; by right).
  destruct b; simpl; [|done]. rewrite lookup_delete_ne; [done|]. intros ->. apply Hn. by left.
Qed.

Lemma batch_In_id c ids bs i b : In (EvDelete c i b) (batch c ids bs) → In i ids.
Proof.
  unfold batch. revert bs. induction ids as [|j ids IH]; intros [|b' bs]; simpl; try done.
  intros [[= -> _]|Hin]; [by left|]. right. by eapply IH.
Qed.

Lemma replay_batch_flats_rejected ids bs s i :
  NoDup ids → In (EvDelete flats i false) (batch flats ids bs) →
  st_flats (replay (batch flats ids bs) s) !! i = st_flats s !! i.
Proof.
  revert bs s. induction ids as [|j ids IH]; intros [|b bs] s Hnd; try done.
  apply NoDup_cons in Hnd as [Hj Hnd]. intros Hin.
  change (st_flats (replay (batch flats ids bs) (applyEvent s (EvDelete flats j b))) !! i
          = st_flats s !! i).
  change (EvDelete flats j b = EvDelete flats i false ∨
          In (EvDelete flats i false) (batch flats ids bs)) in Hin.
  destruct (decide (i = j)) as [->|Hne].
  - rewrite replay_batch_flats_other by (by rewrite <- list_elem_of_In).
    destruct Hin as [[= ->]|Hin]; [done|]. exfalso.
    apply batch_In_id in Hin. by apply Hj, list_elem_of_In.
  - destruct Hin as [[= ? _]|Hin]; [done|]. rewrite (IH bs _ Hnd Hin).
    destruct b; simpl; [|done]. by rewrite lookup_delete_ne.
Qed.

(** X4.  A run that fails after the user document has been deleted leaves an
    orphan whenever the user owned a flat: the user document is gone, and at
    least one flat still names the user as its owner. *)
Theorem failed_removal_leaves_orphan_flat
    (oracle : Oracle) (userId : string) (w : World) (flatId : string) :
  let s' := store (handleRemoveUser oracle userId w).2 in
  completed oracle userId w = false →
  In (EvDelete users userId true) (removalCalls oracle userId w) →
  ownsFlat (store w) userId flatId →
  st_users s' !! userId = None ∧ ∃ f, ownsFlat s' userId f.
Proof.
  intros s' Hc Hdel (x & Hx & Ho). subst s'.
  destruct (removal_follows oracle userId w) as (_ & Hs & _ & _ & HR).
  rewrite Hc in HR. rewrite Hs. split.
  - pose proof (r_try_runs _ _ _ _ HR) as (b & n2 & n3 & E & H2 & H3).
    assert (none (isDelete users) (n2 ++ n3)) as HnoU.
    { apply Forall_app; split; eapply Forall_impl; eauto; simpl.
      - by intros ? [? _]. - by intros ? [? _]. }
    rewrite E in Hdel |- *. destruct Hdel as [[= ->]|Hin].
    + change (st_users (replay (n2 ++ n3) (deleteFrom users userId (store w))) !! userId = None).
      rewrite replay_none_users by done. simpl. apply lookup_delete_eq.
    + exfalso. unfold none in HnoU. rewrite Forall_forall in HnoU.
      apply list_elem_of_In, HnoU in Hin. done.
  - apply r_try_flats_cases in HR as [[Hn _]|(pre & bs & -> & Hl & Hn & Hr & _)].
    + exists flatId, x. by rewrite (replay_none_flats _ _ Hn).
    + destruct (allOk bs) eqn:Hb; [done|].
      destruct (batch_failed flats _ bs Hl Hb) as (i & Hi).
      assert (In i (queryIds flats "ownerID" userId (store w))) as Hin
          by (by apply batch_In_id in Hi).
      apply In_matching in Hin as (y & Hy & Hp).
      unfold flatField in Hp. simpl in Hp. apply bool_decide_eq_true in Hp.
      exists i, y. split; [|done].
      rewrite replay_app, replay_batch_flats_rejected, replay_none_flats; try done.
      apply matching_NoDup.
Qed.

Lemma failed_removal_leaves_orphan_flat_witness :
  completed (rejectDelete flats "f2") "u1" demoWorld = false ∧
  st_users (store (handleRemoveUser (rejectDelete flats "f2") "u1" demoWorld).2) !! "u1" = None ∧
  ∃ f, ownsFlat (store (handleRemoveUser (rejectDelete flats "f2") "u1" demoWorld).2) "u1" f.
Proof.
  split; [reflexivity|].
  apply (failed_removal_leaves_orphan_flat (rejectDelete flats "f2") "u1" demoWorld "f1").
  - reflexivity.
  - vm_compute. auto.
  - exists (demoFlat "u1"). split; reflexivity.
Defined.

(** X5.  Removing a user the store knows nothing about (no document, no flat,
    no message of that user) changes nothing in the store, whatever the store
    rejects. *)
Theorem removal_of_unknown_user_changes_nothing
    (oracle : Oracle) (userId : string) (w : World) :
  unknownUser (store w) userId →
  store (handleRemoveUser oracle userId w).2 = store w.
Proof.
  intros (Hu & Hf & Hm).
  destruct (removal_follows oracle userId w) as (_ & Hs & _ & _ & HR).
  destruct (r_try_frame _ _ _ _ HR) as (Fu & Ff & Fm).
  destruct (replay_shrinks (removalCalls oracle userId w) (store w)) as (Su & Sf & Sm).
  rewrite Hs.
  assert (∀ st : Store, st_users st = st_users (store w) → st_flats st = st_flats (store w) →
                        st_messages st = st_messages (store w) → st = store w) as Heq.
  { intros [a b c]. destruct (store w). simpl. by intros -> -> ->. }
  apply Heq; apply map_eq; intros i.
  - destruct (decide (i = userId)) as [->|Hi]; [|by apply Fu].
    rewrite Hu. by eapply lookup_weaken_None.
  - apply Ff. intros (x & Hx & Ho). by eapply Hf.
  - apply Fm. intros (x & Hx & [Hs'|(y & Hy & Ho)]); [by eapply Hm|by eapply Hf].
Qed.

Lemma removal_of_unknown_user_changes_nothing_witness :
  unknownUser demoStore "u9" ∧
  store (handleRemoveUser rejectQueries "u9" demoWorld).2 = demoStore.
Proof.
  assert (unknownUser demoStore "u9") as H.
  { split; [reflexivity|]. split.
    - change (map_Forall (fun _ x => ownerID x ≠ Some "u9") (st_flats demoStore)).
      apply (bool_decide_unpack _). vm_compute. exact I.
    - change (map_Forall (fun _ x => senderId x ≠ "u9") (st_messages demoStore)).
      apply (bool_decide_unpack _). vm_compute. exact I. }
  split; [exact H|].
  exact (removal_of_unknown_user_changes_nothing rejectQueries "u9" demoWorld H).
Defined.

(** * More about [loginAction] *)

Lemma loginErrors_empty_inv e p :
  loginErrors e p = ∅ → validateField "email" e = None ∧ validateField "password" p = None.
Proof.
  intros E.
  assert (∀ k, loginErrors e p !! k = None) as Hk by (intros k; by rewrite E).
  unfold loginErrors in Hk. split.
  - specialize (Hk "email"). rewrite lookup_omap, lookup_insert_ne, lookup_insert_eq in Hk by done.
    simpl in Hk. destruct (validateField "email" _) as [msg|] eqn:Ev; [|done].
    unfold validateField, emailError in Ev. simpl in Ev.
    destruct (falsy _ || _); [injection Ev as <-; done|done].
  - specialize (Hk "password"). rewrite lookup_omap, lookup_insert_eq in Hk.
    simpl in Hk. destruct (validateField "password" _) as [msg|] eqn:Ev; [|done].
    unfold validateField, passwordError in Ev. simpl in Ev.
    destruct (falsy _ || _); [injection Ev as <-; done|].
    destruct (negb _ || _ || _); [injection Ev as <-; done|done].
Qed.

Lemma validateField_some name v : validateField name v = None → name = "email" ∨ name = "password" → ∃ s, v = Some s.
Proof.
  intros H [-> | ->]; unfold validateField, emailError, passwordError in H; simpl in H;
    destruct v as [s|]; eauto; done.
Qed.

(** X6.  [loginAction] answers [{ success: true, userID }] only for the id of
    a user document whose email and password are the submitted ones, and only
    when both fields pass their checks. *)
Theorem login_success_is_sound
    (oracle : Oracle) (formData : gmap string string) (w : World) (userID : string) :
  (loginAction oracle formData w).1 = Ok (ActSuccessUser userID) →
  ∃ user e p,
    st_users (store w) !! userID = Some user ∧
    formData !! "email" = Some e ∧ formData !! "password" = Some p ∧
    email user = Some e ∧ password user = Some p ∧
    validateField "email" (Some e) = None ∧ validateField "password" (Some p) = None.
Proof.
  unfold loginAction.
  destruct (hasErrors (loginErrors _ _)) eqn:E; [done|].
  apply hasErrors_false, loginErrors_empty_inv in E as [Hve Hvp].
  destruct (validateField_some _ _ Hve (or_introl eq_refl)) as (e & He).
  destruct (validateField_some _ _ Hvp (or_intror eq_refl)) as (p & Hp).
  rewrite He, Hp in *.
  unfold tryCatch, bind, getUserDocs, asString.
  destruct (oracle (trace w) (OpQuery users "email" e)); [done|].
  destruct (map_to_list _) as [|[i u] docs] eqn:Ed; [done|]. simpl.
  assert ((i, u) ∈ map_to_list (filter (λ kv : string * User, userField "email" e kv.2 = true)
                                       (st_users (store w)))) as Hin
      by (rewrite Ed; left).
  apply elem_of_map_to_list, map_lookup_filter_Some in Hin as [Hi Hf].
  unfold userField in Hf. simpl in Hf. apply bool_decide_eq_true in Hf.
  unfold storedPassword.
  destruct (bool_decide (password u ≠ Some p)) eqn:Eb; [done|].
  apply bool_decide_eq_false in Eb. apply dec_stable in Eb.
  intros [= <-]. exists u, e, p. repeat split; auto.
Qed.

Lemma login_success_is_sound_witness :
  (loginAction reliable (credentials "ann@x.io" "pass1!") demoWorld).1 = Ok (ActSuccessUser "u1") ∧
  ∃ user e p,
    st_users (store demoWorld) !! "u1" = Some user ∧
    credentials "ann@x.io" "pass1!" !! "email" = Some e ∧
    credentials "ann@x.io" "pass1!" !! "password" = Some p ∧
    email user = Some e ∧ password user = Some p ∧
    validateField "email" (Some e) = None ∧ validateField "password" (Some p) = None.
Proof.
  assert ((loginAction reliable (credentials "ann@x.io" "pass1!") demoWorld).1
          = Ok (ActSuccessUser "u1")) as H by (vm_compute; reflexivity).
  split; [exact H|].
  exact (login_success_is_sound reliable (credentials "ann@x.io" "pass1!") demoWorld "u1" H).
Defined.

(** X7.  [loginAction] never writes and never lets an exception escape.  When
    a field fails its check it returns the field errors without calling the
    store; when the lookup is rejected it returns the "Login failed" error. *)
Theorem login_failure_modes (oracle : Oracle) (formData : gmap string string) (w : World) :
  let r := loginAction oracle formData w in
  let errors := loginErrors (formData !! "email") (formData !! "password") in
  store r.2 = store w ∧ is_ok r.1 = true ∧
  (errors ≠ ∅ → r.1 = Ok (ActErrors errors) ∧ trace r.2 = trace w) ∧
  (errors = ∅ →
   oracle (trace w) (OpQuery users "email" (asString (formData !! "email"))) = true →
   r.1 = Ok (ActErrors {[ "general" := "Login failed. Please try again later." ]})).
Proof.
  unfold loginAction.
  destruct (hasErrors (loginErrors _ _)) eqn:E; simpl.
  { assert (loginErrors (formData !! "email") (formData !! "password") ≠ ∅) as Hne
        by (intros H; rewrite H, hasErrors_empty in E; done).
    repeat split; done. }
  apply hasErrors_false in E. rewrite E.
  unfold tryCatch, bind, getUserDocs.
  destruct (oracle (trace w) _); simpl.
  { repeat split; done. }
  destruct (map_to_list _) as [|[i u] docs]; simpl.
  { repeat split; done. }
  destruct (bool_decide _); simpl; repeat split; done.
Qed.

Lemma login_failure_modes_witness :
  (loginAction reliable (credentials "nomail" "x") demoWorld).1
    = Ok (ActErrors (loginErrors (Some "nomail") (Some "x"))) ∧
  (loginAction rejectQueries (credentials "ann@x.io" "pass1!") demoWorld).1
    = Ok (ActErrors {[ "general" := "Login failed. Please try again later." ]}).
Proof.
  split.
  - apply (login_failure_modes reliable (credentials "nomail" "x") demoWorld).
    intros H. apply (f_equal (fun m : gmap string string => m !! "email")) in H.
    vm_compute in H. discriminate.
  - apply (login_failure_modes rejectQueries (credentials "ann@x.io" "pass1!") demoWorld).
    + apply loginErrors_empty; reflexivity.
    + reflexivity.
Defined.

Lemma login_accepts o formData (e p : string) w :
  formData !! "email" = Some e → formData !! "password" = Some p →
  validateField "email" (Some e) = None → validateField "password" (Some p) = None →
  o (trace w) (OpQuery users "email" e) = false →
  (∃ i u, st_users (store w) !! i = Some u ∧ email u = Some e) →
  (∀ i u, st_users (store w) !! i = Some u → email u = Some e → password u = Some p) →
  ∃ i u, (loginAction o formData w).1 = Ok (ActSuccessUser i) ∧
         st_users (store w) !! i = Some u ∧ email u = Some e ∧ password u = Some p.
Proof.
  intros He Hp Hve Hvp Ho (i0 & u0 & Hi0 & Hu0) Hall. unfold loginAction. rewrite He, Hp.
  rewrite (loginErrors_empty _ _ Hve Hvp), hasErrors_empty.
  unfold tryCatch, bind, getUserDocs, asString. rewrite Ho.
  destruct (map_to_list _) as [|[i u] docs] eqn:Ed.
  { exfalso.
    assert ((i0, u0) ∈ map_to_list (filter (λ kv : string * User, userField "email" e kv.2 = true)
                                           (st_users (store w)))) as Hin.
    { apply elem_of_map_to_list, map_lookup_filter_Some. split; [done|].
      unfold userField. simpl. by apply bool_decide_eq_true. }
    rewrite Ed in Hin. by apply elem_of_nil in Hin. }
  assert ((i, u) ∈ map_to_list (filter (λ kv : string * User, userField "email" e kv.2 = true)
                                       (st_users (store w)))) as Hin
      by (rewrite Ed; left).
  apply elem_of_map_to_list, map_lookup_filter_Some in Hin as [Hi Hf].
  unfold userField in Hf. simpl in Hf. apply bool_decide_eq_true in Hf.
  pose proof (Hall i u Hi Hf) as Hpw. simpl. unfold storedPassword.
  rewrite bool_decide_eq_false_2 by (intros H; by apply H).
  exists i, u. auto.
Qed.

(** X8.  When the submitted fields pass their checks, the lookup is answered,
    the email is registered and every user document with that email has the
    submitted password, [loginAction] answers [{ success: true, userID }] with
    the id of such a document. *)
Theorem login_accepts_matching_credentials
    (oracle : Oracle) (formData : gmap string string) (e p : string) (w : World) :
  formData !! "email" = Some e → formData !! "password" = Some p →
  validateField "email" (Some e) = None → validateField "password" (Some p) = None →
  oracle (trace w) (OpQuery users "email" e) = false →
  (∃ i u, st_users (store w) !! i = Some u ∧ email u = Some e) →
  (∀ i u, st_users (store w) !! i = Some u → email u = Some e → password u = Some p) →
  ∃ i u, (loginAction oracle formData w).1 = Ok (ActSuccessUser i) ∧
         st_users (store w) !! i = Some u ∧ email u = Some e ∧ password u = Some p.
Proof. apply login_accepts. Qed.

Lemma login_accepts_matching_credentials_witness :
  ∃ i u, (loginAction reliable (credentials "bob@x.io" "pass1!") demoWorld).1
           = Ok (ActSuccessUser i) ∧
         st_users (store demoWorld) !! i = Some u ∧
         email u = Some "bob@x.io" ∧ password u = Some "pass1!".
Proof.
  apply (login_accepts_matching_credentials reliable (credentials "bob@x.io" "pass1!")
           "bob@x.io" "pass1!" demoWorld); try reflexivity.
  - exists "u2", (demoUser "bob@x.io"). split; reflexivity.
  - change (map_Forall (fun _ u => email u = Some "bob@x.io" → password u = Some "pass1!")
                       (st_users demoStore)).
    intros i u Hi _.
    assert (map_Forall (fun _ u => password u = Some "pass1!") (st_users demoStore)) as H
        by (apply (bool_decide_unpack _); vm_compute; exact I).
    exact (H i u Hi).
Defined.

(** ** The email pattern *)

Lemma code_eq (c : ascii) (n : N) : (n < 256)%N → (code c =? n)%N = true → c = ascii_of_N n.
Proof.
  intros _ H. apply N.eqb_eq in H. unfold code in H. rewrite <- H.
  by rewrite ascii_N_embedding.
Qed.

Lemma atSign_spec l a d :
  atSign l = Some (a, d) ↔
  l = a ++ "@"%char :: d ∧ forallb (fun c => negb (code c =? 64)%N) a = true.
Proof.
  revert a d. induction l as [|c l IH]; intros a d; simpl.
  - split; [done|]. intros [H _]. by destruct a.
  - destruct (code c =? 64)%N eqn:E.
    + apply code_eq in E; [|done]. subst c. split.
      * by intros [= <- <-].
      * intros [H Ha]. destruct a as [|c' a]; simpl in *.
        -- by injection H as ->.
        -- injection H as <- _. done.
    + split.
      * destruct (atSign l) as [[a' d']|] eqn:El; [|done].
        intros [= <- <-]. destruct (proj1 (IH a' d') eq_refl) as [-> Ha].
        simpl. by rewrite E.
      * intros [H Ha]. destruct a as [|c' a]; simpl in *.
        -- injection H as -> _. done.
        -- injection H as <- H. apply andb_prop in Ha as [_ Ha].
           by rewrite (proj2 (IH a d) (conj H Ha)).
Qed.

Lemma dotThenMore_spec l :
  dotThenMore l = true ↔ ∃ b c, l = b ++ "."%char :: c ∧ c ≠ [].
Proof.
  induction l as [|x l IH]; simpl.
  - split; [done|]. intros (b & c & H & _). by destruct b.
  - rewrite orb_true_iff, andb_true_iff, IH. split.
    + intros [[Hx Hl]|(b & c & -> & Hc)].
      * apply code_eq in Hx; [|done]. subst x. exists [], l. split; [done|].
        apply negb_true_iff, bool_decide_eq_false in Hl. done.
      * exists (x :: b), c. done.
    + intros ([|y b] & c & H & Hc); simpl in H; injection H as -> ->.
      * left. split; [done|]. by apply negb_true_iff, bool_decide_eq_false.
      * right. eauto.
Qed.

Lemma addressChar_not_at a :
  forallb isAddressChar a = true → forallb (fun c => negb (code c =? 64)%N) a = true.
Proof.
  induction a as [|c a IH]; simpl; [done|].
  intros [Hc Ha]%andb_prop. apply andb_prop in Hc as [_ Hc]. rewrite Hc. simpl. auto.
Qed.

Lemma emailPattern_shape (s : string) : emailPattern s = true ↔ emailShape s.
Proof.
  unfold emailPattern, emailShape. split.
  - destruct (atSign _) as [[a d]|] eqn:E; [|done].
    apply atSign_spec in E as [E _].
    intros [[[Ha Hfa]%andb_prop Hfd]%andb_prop Hd]%andb_prop.
    destruct d as [|x rest]; [done|].
    apply dotThenMore_spec in Hd as (b & c & -> & Hc).
    exists a, (x :: b), c. rewrite E. simpl in Hfd |- *.
    apply andb_prop in Hfd as [Hx Hfd]. rewrite forallb_app in Hfd.
    apply andb_prop in Hfd as [Hb Hcc]. simpl in Hcc.
    repeat split; try done.
    + apply negb_true_iff, bool_decide_eq_false in Ha. done.
    + by rewrite Hx, Hb.
  - intros (a & b & c & E & Ha & Hb & Hc & Hfa & Hfb & Hfc).
    assert (atSign (list_ascii_of_string s) = Some (a, b ++ "."%char :: c)) as ->.
    { apply atSign_spec. split; [done|]. by apply addressChar_not_at. }
    rewrite Hfa, forallb_app, Hfb. simpl. rewrite Hfc.
    rewrite (bool_decide_eq_false_2 _ Ha). simpl.
    destruct b as [|x b]; [done|]. simpl.
    apply dotThenMore_spec. by exists b, c.
Qed.

(** X9.  The test the actions apply to an email is the regular expression
    [/^[^\s@]+@[^\s@]+\.[^\s@]+$/]: it accepts exactly the strings of the
    shape [a@b.c] with [a], [b] and [c] non-empty and without white space or
    a further ["@"]. *)
Theorem emailPattern_is_the_regex (s : string) : emailPattern s = true ↔ emailShape s.
Proof. apply emailPattern_shape. Qed.


(** * More about [registerAction] *)

(** The three ways [registerAction] ends. *)
Lemma register_outcome o autoId dateIsValid calculateAge formData now w :
  let r := registerAction o autoId dateIsValid calculateAge formData now w in
  (registerErrors dateIsValid calculateAge formData ≠ ∅ ∧
   r.1 = Ok (ActErrors (registerErrors dateIsValid calculateAge formData)) ∧ r.2 = w) ∨
  (registerErrors dateIsValid calculateAge formData = ∅ ∧ store r.2 = store w ∧
   ∃ e, formData !! "email" = Some e ∧
        ((o (trace w) (OpQuery users "email" e) = true ∧
          r.1 = Ok (ActErrors {[ "general" := "Registration failed. Please try again." ]})) ∨
         (o (trace w) (OpQuery users "email" e) = false ∧
          (∃ i u, st_users (store w) !! i = Some u ∧ email u = Some e) ∧
          r.1 = Ok emailTaken) ∨
         (o (trace w) (OpQuery users "email" e) = false ∧
          (∀ i u, st_users (store w) !! i = Some u → email u ≠ Some e) ∧
          r.1 = Ok (ActErrors {[ "general" := "Registration failed. Please try again." ]})))) ∨
  (registerErrors dateIsValid calculateAge formData = ∅ ∧ r.1 = Ok ActSuccess ∧
   ∃ e i, formData !! "email" = Some e ∧
          o (trace w) (OpQuery users "email" e) = false ∧
          (∀ j u, st_users (store w) !! j = Some u → email u ≠ Some e) ∧
          store r.2 = insertUser i (newUser formData now) (store w)).
Proof.
  unfold registerAction.
  destruct (hasErrors (registerErrors dateIsValid calculateAge formData)) eqn:E; simpl.
  { left. split; [|done]. intros H. by rewrite H, hasErrors_empty in E. }
  apply hasErrors_false in E.
  destruct (registerErrors_email _ _ _ E) as (e & He). rewrite He.
  unfold tryCatch, bind, getUserDocs, asString.
  destruct (o (trace w) (OpQuery users "email" e)) eqn:Eo; simpl.
  { right. left. split; [done|]. split; [done|]. exists e. split; [done|]. by left. }
  destruct (map_to_list _) as [|[j v] docs] eqn:Ed; simpl.
  2: { right. left. split; [done|]. split; [done|]. exists e. split; [done|]. right. left.
       split; [done|]. split; [|done].
       assert ((j, v) ∈ map_to_list (filter (λ kv : string * User, userField "email" e kv.2 = true)
                                            (st_users (store w)))) as Hin
           by (rewrite Ed; left).
       apply elem_of_map_to_list, map_lookup_filter_Some in Hin as [Hj Hf].
       unfold userField in Hf. simpl in Hf. apply bool_decide_eq_true in Hf. eauto. }
  assert (∀ j u, st_users (store w) !! j = Some u → email u ≠ Some e) as Hnone.
  { intros j u Hj Hu.
    assert ((j, u) ∈ map_to_list (filter (λ kv : string * User, userField "email" e kv.2 = true)
                                         (st_users (store w)))) as Hin.
    { apply elem_of_map_to_list, map_lookup_filter_Some. split; [done|].
      unfold userField. simpl. by apply bool_decide_eq_true. }
    rewrite Ed in Hin. by apply elem_of_nil in Hin. }
  unfold addUser. simpl.
  destruct (o _ (OpAdd users)); simpl.
  { right. left. split; [done|]. split; [done|]. exists e. split; [done|]. right. right. done. }
  right. right. split; [done|]. split; [done|]. eexists e, _. repeat split; try done.
  unfold newUser. by rewrite He.
Qed.

(** X10.  [registerAction] keeps emails unique: on a store where no two user
    documents share an email, whatever is submitted and whatever the store
    rejects, no two user documents share an email afterwards. *)
Theorem register_keeps_emails_unique
    (oracle : Oracle) (autoId : list Event → string)
    (dateIsValid : string → bool) (calculateAge : string → Z)
    (formData : gmap string string) (now : Z) (w : World) :
  uniqueEmails (store w) →
  uniqueEmails (store (registerAction oracle autoId dateIsValid calculateAge formData now w).2).
Proof.
  intros HU.
  destruct (register_outcome oracle autoId dateIsValid calculateAge formData now w)
    as [(_ & _ & ->)|[(_ & -> & _)|(_ & _ & e & i & He & _ & Hnone & ->)]]; try done.
  intros j k u v. unfold insertUser. simpl.
  destruct (decide (j = i)) as [->|Hj], (decide (k = i)) as [->|Hk]; try done.
  - rewrite lookup_insert_eq, lookup_insert_ne by done. intros [= <-] Hv Heq.
    simpl in Heq. rewrite He in Heq. by destruct (Hnone k v Hv).
  - rewrite lookup_insert_eq, lookup_insert_ne by done. intros Hu [= <-] Heq.
    simpl in Heq. rewrite He in Heq. by destruct (Hnone j u Hu).
  - rewrite !lookup_insert_ne by done. apply HU.
Qed.

Lemma register_keeps_emails_unique_witness :
  uniqueEmails demoStore ∧
  uniqueEmails (store (registerAction reliable (fun _ => "u3") (fun _ => true) (fun _ => 36%Z)
                                      demoRegisterForm 0 demoWorld).2).
Proof.
  assert (uniqueEmails demoStore) as H.
  { assert (map_Forall (fun i u => map_Forall (fun j v => email u = email v → i = j)
                                               (st_users demoStore)) (st_users demoStore)) as HF
        by (apply (bool_decide_unpack _); vm_compute; exact I).
    intros i j u v Hi Hj. exact (HF i u Hi j v Hj). }
  split; [exact H|].
  exact (register_keeps_emails_unique reliable (fun _ => "u3") (fun _ => true) (fun _ => 36%Z)
           demoRegisterForm 0 demoWorld H).
Defined.

Lemma falsy_length (s : string) n : (S n ≤ String.length s)%nat → falsy (Some s) = false.
Proof. intros H. simpl. apply bool_decide_eq_false. intros ->. simpl in H. lia. Qed.

Lemma not_falsy_ne (v : FormValue) : falsy v = false → ∃ s, v = Some s ∧ s ≠ "".
Proof.
  destruct v as [s|]; [|done]. simpl. intros H. apply bool_decide_eq_false in H. eauto.
Qed.

(** The field checks of [registerAction], said at once. *)
Lemma registerErrors_registrable dateIsValid calculateAge formData :
  registerErrors dateIsValid calculateAge formData = ∅ ↔
  registrable dateIsValid calculateAge formData.
Proof.
  split.
  - unfold registerErrors. cbv zeta. intros H. peel H.
    repeat match goal with
           | H : falsy (formData !! _) = false |- _ => apply not_falsy_ne in H as (? & H & ?)
           end.
    repeat match goal with
           | H : formData !! _ = Some _ |- _ => rewrite H in *
           end.
    simpl in *.
    repeat match goal with
           | H : negb _ = false |- _ => apply negb_false_iff in H
           | H : (_ <? _)%nat = false |- _ => apply Nat.ltb_ge in H
           | H : (_ <? _)%Z = false |- _ => apply Z.ltb_ge in H
           | H : (_ >? _)%Z = false |- _ => rewrite Z.gtb_ltb in H; apply Z.ltb_ge in H
           | H : bool_decide _ = false |- _ => apply bool_decide_eq_false in H
           end.
    match goal with H : ¬ (Some _ ≠ formData !! "confirmPassword") |- _ =>
      apply dec_stable in H; symmetry in H end.
    eexists _, _, _, _, _. repeat split; try eassumption; try done.
    by apply emailPattern_shape.
  - intros (first & last & mail & pass & birth & Hf & Lf & Hl & Ll & Hm & Sm & Hp & Lp &
            Pl & Pd & Ps & Hc & Hb & Nb & Vb & A1 & A2).
    unfold registerErrors. cbv zeta. rewrite Hf, Hl, Hm, Hp, Hc, Hb.
    rewrite (falsy_length first 1), (falsy_length last 1), (falsy_length pass 5) by done.
    assert (falsy (Some mail) = false) as ->.
    { simpl. apply bool_decide_eq_false. intros ->.
      destruct Sm as (a & b & c & E & _). by destruct a. }
    assert (falsy (Some birth) = false) as -> by (by apply bool_decide_eq_false).
    unfold len, asString.
    rewrite (proj2 (Nat.ltb_ge _ _) Lf), (proj2 (Nat.ltb_ge _ _) Ll),
            (proj2 (Nat.ltb_ge _ _) Lp), (proj2 (emailPattern_shape mail) Sm),
            Pl, Pd, Ps, Vb.
    rewrite (bool_decide_eq_false_2 (Some pass ≠ Some pass)) by (intros H; by apply H).
    rewrite (proj2 (Z.ltb_ge _ _) A1). rewrite Z.gtb_ltb, (proj2 (Z.ltb_ge _ _) A2).
    done.
Qed.

Lemma registrable_login_fields dateIsValid calculateAge formData :
  registrable dateIsValid calculateAge formData →
  ∃ e p, formData !! "email" = Some e ∧ formData !! "password" = Some p ∧
         validateField "email" (Some e) = None ∧ validateField "password" (Some p) = None.
Proof.
  intros (first & last & mail & pass & birth & _ & _ & _ & _ & Hm & Sm & Hp & Lp &
          Pl & Pd & Ps & _).
  exists mail, pass. repeat split; try done.
  - unfold validateField, emailError. simpl.
    assert (mail ≠ "") as Hne by (intros ->; destruct Sm as ([|] & b & c & E & ? & _); done).
    rewrite (bool_decide_eq_false_2 _ Hne), (proj2 (emailPattern_shape mail) Sm). done.
  - unfold validateField, passwordError. simpl.
    assert (pass ≠ "") as Hne by (intros ->; simpl in Lp; lia).
    rewrite (bool_decide_eq_false_2 _ Hne), (proj2 (Nat.ltb_ge _ _) Lp), Pl, Pd, Ps. done.
Qed.

(** X11.  [registerAction] succeeds exactly when the form passes every field
    check, the lookup by email is answered and finds no user document with
    that email, and [addDoc] is not rejected.  On success the store gains the
    submitted document, under the id Firestore chose, and nothing else
    changes. *)
Theorem register_succeeds_exactly_when
    (oracle : Oracle) (autoId : list Event → string)
    (dateIsValid : string → bool) (calculateAge : string → Z)
    (formData : gmap string string) (now : Z) (w : World) :
  let r := registerAction oracle autoId dateIsValid calculateAge formData now w in
  (r.1 = Ok ActSuccess ↔
   registrable dateIsValid calculateAge formData ∧
   ∃ e, formData !! "email" = Some e ∧
        oracle (trace w) (OpQuery users "email" e) = false ∧
        (∀ j u, st_users (store w) !! j = Some u → email u ≠ Some e) ∧
        oracle (trace w ++ [EvQuery users "email" e (Some [])]) (OpAdd users) = false) ∧
  (r.1 = Ok ActSuccess →
   ∃ e, formData !! "email" = Some e ∧
        store r.2 = insertUser (autoId (trace w ++ [EvQuery users "email" e (Some [])]))
                               (newUser formData now) (store w)).
Proof.
  unfold registerAction.
  destruct (hasErrors (registerErrors dateIsValid calculateAge formData)) eqn:E; simpl.
  { split; [|done]. split; [done|]. intros [Hr _].
    apply registerErrors_registrable in Hr. by rewrite Hr, hasErrors_empty in E. }
  apply hasErrors_false in E.
  pose proof (proj1 (registerErrors_registrable _ _ _) E) as Hreg.
  destruct (registerErrors_email _ _ _ E) as (e & He). rewrite He.
  unfold tryCatch, bind, getUserDocs, asString.
  destruct (oracle (trace w) (OpQuery users "email" e)) eqn:Eo; simpl.
  { split; [|done]. split; [done|]. intros (_ & e' & [= <-] & ? & _). congruence. }
  destruct (map_to_list _) as [|[j v] docs] eqn:Ed; simpl.
  2: { split; [|done]. split; [done|]. intros (_ & e' & [= <-] & _ & Hnone & _). exfalso.
       assert ((j, v) ∈ map_to_list (filter (λ kv : string * User, userField "email" e kv.2 = true)
                                            (st_users (store w)))) as Hin
           by (rewrite Ed; left).
       apply elem_of_map_to_list, map_lookup_filter_Some in Hin as [Hj Hf].
       unfold userField in Hf. simpl in Hf. apply bool_decide_eq_true in Hf.
       by destruct (Hnone j v Hj). }
  assert (∀ j u, st_users (store w) !! j = Some u → email u ≠ Some e) as Hnone.
  { intros j u Hj Hu.
    assert ((j, u) ∈ map_to_list (filter (λ kv : string * User, userField "email" e kv.2 = true)
                                         (st_users (store w)))) as Hin.
    { apply elem_of_map_to_list, map_lookup_filter_Some. split; [done|].
      unfold userField. simpl. by apply bool_decide_eq_true. }
    rewrite Ed in Hin. by apply elem_of_nil in Hin. }
  unfold addUser. simpl.
  destruct (oracle _ (OpAdd users)) eqn:Ea; simpl.
  { split; [|done]. split; [done|]. intros (_ & e' & [= <-] & _ & _ & ?). congruence. }
  split.
  - split; [|done]. intros _. split; [done|]. exists e. done.
  - intros _. exists e. split; [done|]. unfold newUser. by rewrite He.
Qed.

Lemma register_succeeds_exactly_when_witness :
  let r := registerAction reliable (fun _ => "u3") (fun _ => true) (fun _ => 36%Z)
                          demoRegisterForm 0 demoWorld in
  r.1 = Ok ActSuccess ∧
  ∃ e, demoRegisterForm !! "email" = Some e ∧
       store r.2 = insertUser "u3" (newUser demoRegisterForm 0) demoStore.
Proof.
  assert ((registerAction reliable (fun _ => "u3") (fun _ => true) (fun _ => 36%Z)
                          demoRegisterForm 0 demoWorld).1 = Ok ActSuccess) as H
      by (vm_compute; reflexivity).
  split; [exact H|].
  apply (register_succeeds_exactly_when reliable (fun _ => "u3") (fun _ => true)
           (fun _ => 36%Z) demoRegisterForm 0 demoWorld). exact H.
Defined.

(** X12.  Register, then log in: after a successful registration, logging in
    with the email and password of the same form succeeds, provided the
    lookup is answered, and the id it returns is that of the document the
    registration wrote. *)
Theorem register_then_login
    (oracle : Oracle) (autoId : list Event → string)
    (dateIsValid : string → bool) (calculateAge : string → Z)
    (formData : gmap string string) (now : Z) (w : World) :
  let r := registerAction oracle autoId dateIsValid calculateAge formData now w in
  r.1 = Ok ActSuccess →
  oracle (trace r.2) (OpQuery users "email" (asString (formData !! "email"))) = false →
  ∃ i, (loginAction oracle formData r.2).1 = Ok (ActSuccessUser i) ∧
       st_users (store r.2) !! i = Some (newUser formData now).
Proof.
  intros r Hr Ho. subst r.
  destruct (register_outcome oracle autoId dateIsValid calculateAge formData now w)
    as [(_ & H & _)|[(_ & _ & e & _ & [[_ H]|[(_ & _ & H)|(_ & _ & H)]])|
                     (E & _ & e & i & He & _ & Hnone & Hs)]];
    try (rewrite H in Hr; discriminate).
  apply registerErrors_registrable in E.
  destruct (registrable_login_fields _ _ _ E) as (e' & p & He' & Hp & Hve & Hvp).
  assert (e' = e) as -> by congruence.
  rewrite He in Ho. simpl in Ho.
  destruct (login_accepts oracle formData e p _ He Hp Hve Hvp Ho) as (k & u & Hk & Hu & Hue & _).
  - exists i, (newUser formData now). rewrite Hs. simpl. by rewrite lookup_insert_eq.
  - intros k u. rewrite Hs. simpl. destruct (decide (k = i)) as [->|Hki].
    + rewrite lookup_insert_eq. intros [= <-] _. done.
    + rewrite lookup_insert_ne by done. intros Hu Hue. by destruct (Hnone k u Hu).
  - exists k. split; [done|]. rewrite Hs in Hu |- *. simpl in *.
    destruct (decide (k = i)) as [->|Hki].
    + by rewrite lookup_insert_eq.
    + rewrite lookup_insert_ne in Hu by done. by destruct (Hnone k u Hu).
Qed.

Lemma register_then_login_witness :
  let r := registerAction reliable (fun _ => "u3") (fun _ => true) (fun _ => 36%Z)
                          demoRegisterForm 0 demoWorld in
  r.1 = Ok ActSuccess ∧
  ∃ i, (loginAction reliable demoRegisterForm r.2).1 = Ok (ActSuccessUser i) ∧
       st_users (store r.2) !! i = Some (newUser demoRegisterForm 0).
Proof.
  assert ((registerAction reliable (fun _ => "u3") (fun _ => true) (fun _ => 36%Z)
                          demoRegisterForm 0 demoWorld).1 = Ok ActSuccess) as H
      by (vm_compute; reflexivity).
  split; [exact H|].
  exact (register_then_login reliable (fun _ => "u3") (fun _ => true) (fun _ => 36%Z)
           demoRegisterForm 0 demoWorld H eq_refl).
Defined.

(** X13.  An email that a user document already has is refused: when the form
    passes the field checks and the lookup is answered, [registerAction]
    returns the "email is not available" error and writes nothing. *)
Theorem register_refuses_taken_email
    (oracle : Oracle) (autoId : list Event → string)
    (dateIsValid : string → bool) (calculateAge : string → Z)
    (formData : gmap string string) (now : Z) (w : World) (e : string) :
  let r := registerAction oracle autoId dateIsValid calculateAge formData now w in
  registrable dateIsValid calculateAge formData →
  formData !! "email" = Some e →
  oracle (trace w) (OpQuery users "email" e) = false →
  (∃ i u, st_users (store w) !! i = Some u ∧ email u = Some e) →
  r.1 = Ok emailTaken ∧ store r.2 = store w.
Proof.
  intros r Hreg He Ho (i & u & Hi & Hu). subst r.
  apply registerErrors_registrable in Hreg.
  destruct (register_outcome oracle autoId dateIsValid calculateAge formData now w)
    as [(H & _)|[(_ & Hs & e' & He' & H)|(_ & _ & e' & ? & He' & _ & Hnone & _)]];
    try done; assert (e' = e) as -> by congruence.
  - destruct H as [[? _]|[(_ & _ & H)|(_ & Hnone & _)]]; [congruence|done|].
    by destruct (Hnone i u Hi).
  - by destruct (Hnone i u Hi).
Qed.

Lemma register_refuses_taken_email_witness :
  let form := <["email" := "ann@x.io"]> demoRegisterForm in
  let r := registerAction reliable (fun _ => "u3") (fun _ => true) (fun _ => 36%Z)
                          form 0 demoWorld in
  r.1 = Ok emailTaken ∧ store r.2 = demoStore.
Proof.
  apply (register_refuses_taken_email reliable (fun _ => "u3") (fun _ => true) (fun _ => 36%Z)
           (<["email" := "ann@x.io"]> demoRegisterForm) 0 demoWorld "ann@x.io").
  - apply registerErrors_registrable. apply map_eq. intros k. vm_compute. reflexivity.
  - reflexivity.
  - reflexivity.
  - exists "u1", (demoUser "ann@x.io"). split; reflexivity.
Defined.

(** X14.  [registerAction] never lets an exception escape.  When a field
    fails its check it returns the field errors and does not call the store at
    all; when the lookup by email is rejected it returns the "Registration
    failed" error and the store is as it was. *)
Theorem register_failure_modes
    (oracle : Oracle) (autoId : list Event → string)
    (dateIsValid : string → bool) (calculateAge : string → Z)
    (formData : gmap string string) (now : Z) (w : World) :
  let r := registerAction oracle autoId dateIsValid calculateAge formData now w in
  let errors := registerErrors dateIsValid calculateAge formData in
  is_ok r.1 = true ∧
  (errors ≠ ∅ → r.1 = Ok (ActErrors errors) ∧ r.2 = w) ∧
  (errors = ∅ →
   oracle (trace w) (OpQuery users "email" (asString (formData !! "email"))) = true →
   r.1 = Ok (ActErrors {[ "general" := "Registration failed. Please try again." ]}) ∧
   store r.2 = store w).
Proof.
  destruct (register_outcome oracle autoId dateIsValid calculateAge formData now w)
    as [(Hne & Hr & Hw)|[(He & Hs & e & Hm & H)|(He & Hr & e & i & Hm & Ho & _)]]; simpl.
  - rewrite Hr. repeat split; done.
  - split; [|split; [done|]].
    + destruct H as [[_ ->]|[(_ & _ & ->)|(_ & _ & ->)]]; done.
    + intros _ Ho. rewrite Hm in Ho. simpl in Ho. split; [|done].
      destruct H as [[_ ->]|[(Ho' & _)|(Ho' & _)]]; [done|congruence|congruence].
  - rewrite Hr. split; [done|]. split; [done|]. intros _ Ho'.
    rewrite Hm in Ho'. simpl in Ho'. congruence.
Qed.

Lemma register_failure_modes_witness :
  let form := <["password" := "short"]> demoRegisterForm in
  (registerAction reliable (fun _ => "u3") (fun _ => true) (fun _ => 36%Z) form 0 demoWorld).2
    = demoWorld ∧
  (registerAction rejectQueries (fun _ => "u3") (fun _ => true) (fun _ => 36%Z)
                  demoRegisterForm 0 demoWorld).1
    = Ok (ActErrors {[ "general" := "Registration failed. Please try again." ]}).
Proof.
  split.
  - apply (register_failure_modes reliable (fun _ => "u3") (fun _ => true) (fun _ => 36%Z)
             (<["password" := "short"]> demoRegisterForm) 0 demoWorld).
    intros H. apply (f_equal (fun m : gmap string string => m !! "password")) in H.
    vm_compute in H. discriminate.
  - apply (register_failure_modes rejectQueries (fun _ => "u3") (fun _ => true) (fun _ => 36%Z)
             demoRegisterForm 0 demoWorld).
    + apply map_eq. intros k. vm_compute. reflexivity.
    + reflexivity.
Defined.

(** * More about [newFlatAction] *)

(** The ways [newFlatAction] ends. *)
Lemma newFlat_outcome o autoId Number currentYear dateOutOfRange dateRangeMessage
    formData files localStorage now w :
  let r := newFlatAction o autoId Number currentYear dateOutOfRange dateRangeMessage
                         formData files localStorage now w in
  let errors := newFlatErrors Number currentYear dateOutOfRange dateRangeMessage formData files in
  (errors ≠ ∅ ∧ r.1 = Ok (ActErrors errors) ∧ r.2 = w) ∨
  (errors = ∅ ∧ o (trace w) (OpAdd flats) = true ∧ store r.2 = store w ∧
   r.1 = Ok (ActErrors {[ "general" := "Failed to add flat. Please try again." ]})) ∨
  (errors = ∅ ∧ o (trace w) (OpAdd flats) = false ∧ r.1 = Ok ActSuccess ∧
   store r.2 = insertFlat (autoId (trace w))
                          (newFlat Number formData files localStorage now) (store w)).
Proof.
  unfold newFlatAction.
  destruct (hasErrors (newFlatErrors _ _ _ _ _ _)) eqn:E; simpl.
  { left. split; [|done]. intros H. by rewrite H, hasErrors_empty in E. }
  apply hasErrors_false in E. right.
  unfold tryCatch, bind, addFlat. destruct (o (trace w) (OpAdd flats)); simpl.
  - left. done.
  - right. done.
Qed.

(** X15.  [newFlatAction] never lets an exception escape and writes only when
    it succeeds.  When a field fails its check it returns the field errors
    without calling the store; when [addDoc] is rejected it returns the
    "Failed to add flat" error and the store is as it was; otherwise it
    succeeds, and the store gains the one flat document and nothing else
    changes. *)
Theorem newFlat_writes_only_on_success
    (oracle : Oracle) (autoId : list Event → string)
    (Number : string → spec_float) (currentYear : spec_float)
    (dateOutOfRange : string → bool) (dateRangeMessage : string)
    (formData files localStorage : gmap string string) (now : Z) (w : World) :
  let r := newFlatAction oracle autoId Number currentYear dateOutOfRange dateRangeMessage
                         formData files localStorage now w in
  let errors := newFlatErrors Number currentYear dateOutOfRange dateRangeMessage formData files in
  is_ok r.1 = true ∧
  (errors ≠ ∅ → r.1 = Ok (ActErrors errors) ∧ r.2 = w) ∧
  (errors = ∅ → oracle (trace w) (OpAdd flats) = true →
   r.1 = Ok (ActErrors {[ "general" := "Failed to add flat. Please try again." ]}) ∧
   store r.2 = store w) ∧
  (errors = ∅ → oracle (trace w) (OpAdd flats) = false →
   r.1 = Ok ActSuccess ∧
   store r.2 = insertFlat (autoId (trace w))
                          (newFlat Number formData files localStorage now) (store w)) ∧
  (r.1 ≠ Ok ActSuccess → store r.2 = store w).
Proof.
  destruct (newFlat_outcome oracle autoId Number currentYear dateOutOfRange dateRangeMessage
              formData files localStorage now w)
    as [(Hne & Hr & Hw)|[(He & Ho & Hs & Hr)|(He & Ho & Hr & Hs)]]; simpl.
  - rewrite Hr, Hw. repeat split; done.
  - rewrite Hr. repeat split; try done; congruence.
  - rewrite Hr. repeat split; try done; congruence.
Qed.

Lemma newFlat_writes_only_on_success_witness :
  let r := newFlatAction (fun _ op => match op with OpAdd _ => true | _ => false end)
                         (fun _ => "f9") demoNumber (double 2026) (fun _ => false)
                         "out of range" demoFlatForm demoFiles demoLocalStorage 0 demoWorld in
  r.1 = Ok (ActErrors {[ "general" := "Failed to add flat. Please try again." ]}) ∧
  store r.2 = demoStore.
Proof.
  apply (newFlat_writes_only_on_success
           (fun _ op => match op with OpAdd _ => true | _ => false end)
           (fun _ => "f9") demoNumber (double 2026) (fun _ => false)
           "out of range" demoFlatForm demoFiles demoLocalStorage 0 demoWorld).
  - apply map_eq. intros k. vm_compute. reflexivity.
  - reflexivity.
Defined.

Lemma lookup_flag_ne cond key msg errors k :
  key ≠ k → flag cond key msg errors !! k = errors !! k.
Proof. intros H. unfold flag. destruct cond; [by rewrite lookup_insert_ne|done]. Qed.

Lemma lookup_flag_eq cond key msg errors :
  flag cond key msg errors !! key = if cond then Some msg else errors !! key.
Proof. unfold flag. destruct cond; [by rewrite lookup_insert_eq|done]. Qed.

(** X16.  The check of [streetNumber] in [newFlatAction] asks only for a
    non-empty value that [Number] does not turn into [NaN]: although the
    message speaks of a number "greater than zero", zero and negative street
    numbers pass. *)
Theorem newFlat_street_number_check
    (Number : string → spec_float) (currentYear : spec_float)
    (dateOutOfRange : string → bool) (dateRangeMessage : string)
    (formData files : gmap string string) :
  newFlatErrors Number currentYear dateOutOfRange dateRangeMessage formData files
    !! "streetNumber" = None ↔
  ∃ s, formData !! "streetNumber" = Some s ∧ s ≠ "" ∧ isNaNdouble (Number s) = false.
Proof.
  unfold newFlatErrors. cbv zeta.
  rewrite lookup_flag_ne by done.
  assert (∀ (c : bool) m1 m2 (e1 e2 : gmap string string),
            e1 !! "streetNumber" = e2 !! "streetNumber" →
            (if c then <["dateAvailable" := m1]> e1 else flag (dateOutOfRange m2) "dateAvailable"
                                                             dateRangeMessage e1)
              !! "streetNumber" = e2 !! "streetNumber") as Hdate.
  { intros [] ???? H; [by rewrite lookup_insert_ne|by rewrite lookup_flag_ne]. }
  erewrite Hdate; [|reflexivity].
  rewrite !lookup_flag_ne by done. rewrite lookup_flag_eq.
  rewrite !lookup_flag_ne by done. rewrite lookup_empty.
  unfold isNaN, toNumber. destruct (formData !! "streetNumber") as [s|]; simpl.
  - destruct (bool_decide (s = "")) eqn:Es; simpl.
    + apply bool_decide_eq_true in Es. split; [done|]. by intros (? & [= <-] & ? & _).
    + apply bool_decide_eq_false in Es. destruct (isNaNdouble (Number s)) eqn:En.
      * split; [done|]. intros (? & [= <-] & _ & ?). congruence.
      * split; [|done]. intros _. by exists s.
  - split; [done|]. by intros (? & ? & _).
Qed.

Example negative_street_number_passes :
  newFlatErrors (fun _ => double (-5)) (double 2026) (fun _ => false) "out of range"
                (<["streetNumber" := "-5"]> demoFlatForm) demoFiles !! "streetNumber" = None.
Proof. vm_compute. reflexivity. Qed.

(** X17.  [newFlatAction] does not ask that somebody is logged in: when
    [localStorage] has no ["loggedInUser"], a valid submission still writes the
    flat, with [ownerID] [null].  No run of [handleRemoveUser], for whatever
    user, ever deletes that flat. *)
Theorem ownerless_flat_is_never_removed
    (oracle : Oracle) (autoId : list Event → string)
    (Number : string → spec_float) (currentYear : spec_float)
    (dateOutOfRange : string → bool) (dateRangeMessage : string)
    (formData files localStorage : gmap string string) (now : Z) (w : World)
    (oracle' : Oracle) (userId : string) :
  let r := newFlatAction oracle autoId Number currentYear dateOutOfRange dateRangeMessage
                         formData files localStorage now w in
  let flat := newFlat Number formData files localStorage now in
  r.1 = Ok ActSuccess →
  localStorage !! "loggedInUser" = None →
  ownerID flat = None ∧
  st_flats (store r.2) !! autoId (trace w) = Some flat ∧
  st_flats (store (handleRemoveUser oracle' userId r.2).2) !! autoId (trace w) = Some flat.
Proof.
  intros r flat Hr Hnone. subst r flat.
  destruct (newFlat_outcome oracle autoId Number currentYear dateOutOfRange dateRangeMessage
              formData files localStorage now w)
    as [(_ & H & _)|[(_ & _ & _ & H)|(_ & _ & _ & Hs)]];
    try (rewrite H in Hr; discriminate).
  split; [done|].
  assert (st_flats (store (newFlatAction oracle autoId Number currentYear dateOutOfRange
                             dateRangeMessage formData files localStorage now w).2)
            !! autoId (trace w)
          = Some (newFlat Number formData files localStorage now)) as Hi
      by (rewrite Hs; simpl; apply lookup_insert_eq).
  split; [done|].
  destruct (removal_follows oracle' userId
              (newFlatAction oracle autoId Number currentYear dateOutOfRange dateRangeMessage
                 formData files localStorage now w).2) as (_ & Hs' & _ & _ & HR).
  destruct (r_try_frame _ _ _ _ HR) as (_ & Ff & _).
  rewrite Hs', Ff; [done|]. intros (x & Hx & Ho). rewrite Hi in Hx. injection Hx as <-.
  simpl in Ho. congruence.
Qed.

Lemma ownerless_flat_is_never_removed_witness :
  let r := newFlatAction reliable (fun _ => "f9") demoNumber (double 2026) (fun _ => false)
                         "out of range" demoFlatForm demoFiles ∅ 0 demoWorld in
  r.1 = Ok ActSuccess ∧
  st_flats (store (handleRemoveUser reliable "u1" r.2).2) !! "f9"
    = Some (newFlat demoNumber demoFlatForm demoFiles ∅ 0).
Proof.
  assert ((newFlatAction reliable (fun _ => "f9") demoNumber (double 2026) (fun _ => false)
             "out of range" demoFlatForm demoFiles ∅ 0 demoWorld).1 = Ok ActSuccess) as H
      by (vm_compute; reflexivity).
  split; [exact H|].
  apply (ownerless_flat_is_never_removed reliable (fun _ => "f9") demoNumber (double 2026)
           (fun _ => false) "out of range" demoFlatForm demoFiles ∅ 0 demoWorld
           reliable "u1" H). reflexivity.
Defined.

(** X18.  Create, then remove the owner: a flat written by [newFlatAction]
    for the logged-in user is gone after a run of [handleRemoveUser] for that
    user that runs to the end. *)
Theorem created_flat_goes_with_its_owner
    (oracle : Oracle) (autoId : list Event → string)
    (Number : string → spec_float) (currentYear : spec_float)
    (dateOutOfRange : string → bool) (dateRangeMessage : string)
    (formData files localStorage : gmap string string) (now : Z) (w : World)
    (oracle' : Oracle) (userId : string) :
  let r := newFlatAction oracle autoId Number currentYear dateOutOfRange dateRangeMessage
                         formData files localStorage now w in
  r.1 = Ok ActSuccess →
  localStorage !! "loggedInUser" = Some userId →
  completed oracle' userId r.2 = true →
  is_Some (st_flats (store r.2) !! autoId (trace w)) ∧
  st_flats (store (handleRemoveUser oracle' userId r.2).2) !! autoId (trace w) = None.
Proof.
  intros r Hr Huser Hc. subst r.
  destruct (newFlat_outcome oracle autoId Number currentYear dateOutOfRange dateRangeMessage
              formData files localStorage now w)
    as [(_ & H & _)|[(_ & _ & _ & H)|(_ & _ & _ & Hs)]];
    try (rewrite H in Hr; discriminate).
  set (w1 := (newFlatAction oracle autoId Number currentYear dateOutOfRange dateRangeMessage
                formData files localStorage now w).2) in *.
  assert (st_flats (store w1) !! autoId (trace w)
          = Some (newFlat Number formData files localStorage now)) as Hi
      by (rewrite Hs; simpl; apply lookup_insert_eq).
  split; [by rewrite Hi|].
  destruct (removal_follows oracle' userId w1) as (_ & Hs' & _ & _ & HR).
  rewrite Hc in HR. pose proof (r_try_Ok_noOrphans _ _ _ HR) as (_ & Hqf & _).
  rewrite <- Hs' in Hqf.
  destruct (st_flats (store (handleRemoveUser oracle' userId w1).2) !! autoId (trace w))
    as [x|] eqn:Ex; [|done]. exfalso.
  assert (x = newFlat Number formData files localStorage now) as ->.
  { assert (st_flats (store w1) !! autoId (trace w) = Some x) as Hx.
    { eapply lookup_weaken; [exact Ex|]. rewrite Hs'. apply replay_shrinks. }
    congruence. }
  assert (In (autoId (trace w))
             (queryIds flats "ownerID" userId (store (handleRemoveUser oracle' userId w1).2)))
    as Hin.
  { apply In_matching. eexists. split; [exact Ex|].
    unfold flatField. simpl. by apply bool_decide_eq_true. }
  by rewrite Hqf in Hin.
Qed.

Lemma created_flat_goes_with_its_owner_witness :
  let r := newFlatAction reliable (fun _ => "f9") demoNumber (double 2026) (fun _ => false)
                         "out of range" demoFlatForm demoFiles demoLocalStorage 0 demoWorld in
  r.1 = Ok ActSuccess ∧
  st_flats (store (handleRemoveUser reliable "u1" r.2).2) !! "f9" = None.
Proof.
  assert ((newFlatAction reliable (fun _ => "f9") demoNumber (double 2026) (fun _ => false)
             "out of range" demoFlatForm demoFiles demoLocalStorage 0 demoWorld).1
          = Ok ActSuccess) as H by (vm_compute; reflexivity).
  split; [exact H|].
  apply (created_flat_goes_with_its_owner reliable (fun _ => "f9") demoNumber (double 2026)
           (fun _ => false) "out of range" demoFlatForm demoFiles demoLocalStorage 0 demoWorld
           reliable "u1" H); reflexivity.
Defined.

(** * [editFlatLoader] and [editFlatAction] *)

(** X19.  [editFlatLoader] returns the flat, with the id it was asked for,
    exactly when the read is answered and the document exists, and what it
    returns is the stored document; in every other case it throws.  It never
    writes. *)
Theorem editFlatLoader_spec (oracle : Oracle) (flatID : string) (w : World) :
  let r := editFlatLoader oracle flatID w in
  store r.2 = store w ∧
  (∀ i flat, r.1 = Ok (i, flat) ↔
             i = flatID ∧ oracle (trace w) (OpQuery flats "__name__" flatID) = false ∧
             st_flats (store w) !! flatID = Some flat) ∧
  (r.1 = Throw ↔
   oracle (trace w) (OpQuery flats "__name__" flatID) = true ∨
   st_flats (store w) !! flatID = None).
Proof.
  unfold editFlatLoader, tryCatch, bind, getFlat, throw, ret.
  destruct (oracle (trace w) (OpQuery flats "__name__" flatID)); simpl.
  { split; [done|]. split; [|by split; auto]. intros i flat. split; [done|]. by intros (_ & ? & _). }
  destruct (st_flats (store w) !! flatID) as [f|]; simpl.
  - split; [done|]. split.
    + intros i flat. split; [by intros [= <- <-]|]. by intros (-> & _ & [= ->]).
    + split; [done|]. by intros [|].
  - split; [done|]. split; [|by split; auto].
    intros i flat. split; [done|]. by intros (_ & _ & ?).
Qed.

(** The ways [editFlatAction] ends. *)
Lemma edit_outcome o Number currentYear midnight today oneYear formatDate
    formData imageFile flatID w :
  let r := editFlatAction o Number currentYear midnight today oneYear formatDate
                          formData imageFile flatID w in
  let asked := trace w ++ [EvQuery flats "__name__" flatID (Some [flatID])] in
  (r.1 = Throw ∧ store r.2 = store w ∧
   (o (trace w) (OpQuery flats "__name__" flatID) = true ∨
    (o (trace w) (OpQuery flats "__name__" flatID) = false ∧
     st_flats (store w) !! flatID = None))) ∨
  (∃ original,
     o (trace w) (OpQuery flats "__name__" flatID) = false ∧
     st_flats (store w) !! flatID = Some original ∧
     let errors := editFlatErrors Number currentYear midnight today oneYear formatDate
                                  formData imageFile original in
     ((errors ≠ ∅ ∧ r.1 = Ok (ActErrors errors) ∧ store r.2 = store w) ∨
      (errors = ∅ ∧ o asked (OpAdd flats) = true ∧ store r.2 = store w ∧
       r.1 = Ok (ActErrors {[ "general" := "Failed to update flat. Please try again." ]})) ∨
      (errors = ∅ ∧ o asked (OpAdd flats) = false ∧ r.1 = Ok ActSuccess ∧
       store r.2 = withFlat flatID (editedFlat Number formData imageFile original) (store w)))).
Proof.
  unfold editFlatAction, bind, getFlat, throw.
  destruct (o (trace w) (OpQuery flats "__name__" flatID)) eqn:Eo; simpl.
  { left. auto. }
  destruct (st_flats (store w) !! flatID) as [f|] eqn:Ef; simpl.
  2: { left. auto. }
  right. exists f. split; [done|]. split; [done|]. simpl.
  destruct (hasErrors (editFlatErrors _ _ _ _ _ _ _ _ _)) eqn:E; simpl.
  { left. split; [|done]. intros H. by rewrite H, hasErrors_empty in E. }
  apply hasErrors_false in E. right.
  unfold tryCatch, bind, updateFlat. simpl. rewrite Ef.
  rewrite (bool_decide_eq_true_2 (is_Some (Some f))) by eauto. simpl. rewrite orb_false_r.
  destruct (o _ (OpAdd flats)); simpl.
  - left. done.
  - right. repeat split; try done. unfold withFlat. f_equal.
    apply map_eq. intros j. destruct (decide (j = flatID)) as [->|Hj].
    + by rewrite lookup_alter_eq, lookup_insert_eq, Ef.
    + by rewrite lookup_alter_ne, lookup_insert_ne.
Qed.

(** X20.  Whatever is submitted and however it ends, [editFlatAction] leaves
    users and messages alone, leaves every other flat alone, creates and
    deletes no flat, and never changes the owner or the creation time of the
    flat it edits. *)
Theorem edit_keeps_owner_and_other_documents
    (oracle : Oracle) (Number : string → spec_float) (currentYear : spec_float)
    (midnight : FormValue → spec_float) (today oneYear : spec_float)
    (formatDate : spec_float → string)
    (formData : gmap string string) (imageFile : option Upload) (flatID : string) (w : World) :
  let s := store w in
  let s' := store (editFlatAction oracle Number currentYear midnight today oneYear formatDate
                                  formData imageFile flatID w).2 in
  st_users s' = st_users s ∧ st_messages s' = st_messages s ∧
  (∀ i, i ≠ flatID → st_flats s' !! i = st_flats s !! i) ∧
  (st_flats s !! flatID = None → st_flats s' !! flatID = None) ∧
  (∀ flat, st_flats s !! flatID = Some flat →
           ∃ flat', st_flats s' !! flatID = Some flat' ∧
                    ownerID flat' = ownerID flat ∧ flatCreatedAt flat' = flatCreatedAt flat).
Proof.
  destruct (edit_outcome oracle Number currentYear midnight today oneYear formatDate
              formData imageFile flatID w)
    as [(_ & -> & _)|(f & _ & Hf & [(_ & _ & ->)|[(_ & _ & -> & _)|(_ & _ & _ & ->)]])];
    simpl; try (repeat split; eauto; done).
  repeat split; try done.
  - intros i Hi. by rewrite lookup_insert_ne.
  - by rewrite Hf.
  - intros flat. rewrite Hf. intros [= <-]. eexists. rewrite lookup_insert_eq. done.
Qed.

Lemma edit_keeps_owner_and_other_documents_witness :
  ∃ flat', st_flats (store (editFlatAction reliable demoNumber (double 2026) demoMidnight
                              (double 200) (double 565) (fun _ => "a date")
                              demoEditForm None "f1" demoWorld).2) !! "f1" = Some flat' ∧
           ownerID flat' = ownerID (demoFlat "u1") ∧
           flatCreatedAt flat' = flatCreatedAt (demoFlat "u1").
Proof.
  apply (edit_keeps_owner_and_other_documents reliable demoNumber (double 2026) demoMidnight
           (double 200) (double 565) (fun _ => "a date") demoEditForm None "f1" demoWorld).
  reflexivity.
Defined.

Lemma editFlatLoader_spec_witness :
  (editFlatLoader reliable "f1" demoWorld).1 = Ok ("f1", demoFlat "u1") ∧
  (editFlatLoader reliable "f7" demoWorld).1 = Throw.
Proof.
  destruct (editFlatLoader_spec reliable "f1" demoWorld) as (_ & H1 & _).
  destruct (editFlatLoader_spec reliable "f7" demoWorld) as (_ & _ & H2).
  split.
  - apply H1. repeat split; reflexivity.
  - apply H2. right. reflexivity.
Defined.

(** Take an empty errors object of [editFlatAction] apart. *)
Ltac peelEdit H :=
  repeat first
    [ apply flag_empty in H as [? H]
    | match type of H with
      | (if ?c then _ else _) = ∅ =>
          destruct c eqn:?; try (by apply insert_non_empty in H)
      | match ?x with Some _ => _ | None => _ end = ∅ => destruct x eqn:?
      end ];
  repeat match goal with
         | E : (_ || _) = false |- _ => apply orb_false_elim in E as [? ?]
         end.

(** X21.  When [editFlatAction] succeeds, the flat it was asked to edit holds
    the submitted text fields, [Number] of the submitted numbers, which meet
    the checked conditions ([areaSize > 0], [rentPrice > 0],
    [1900 <= yearBuilt <= current year]), and the name of the uploaded file
    when a file with a name was uploaded, the former image otherwise. *)
Theorem edit_success_document
    (oracle : Oracle) (Number : string → spec_float) (currentYear : spec_float)
    (midnight : FormValue → spec_float) (today oneYear : spec_float)
    (formatDate : spec_float → string)
    (formData : gmap string string) (imageFile : option Upload) (flatID : string) (w : World) :
  let r := editFlatAction oracle Number currentYear midnight today oneYear formatDate
                          formData imageFile flatID w in
  isNaNdouble currentYear = false →
  r.1 = Ok ActSuccess →
  ∃ original flat aS yB rP,
    st_flats (store w) !! flatID = Some original ∧
    st_flats (store r.2) !! flatID = Some flat ∧
    flat = editedFlat Number formData imageFile original ∧
    formData !! "areaSize" = Some aS ∧ areaSize flat = Number aS ∧
    formData !! "yearBuilt" = Some yB ∧ yearBuilt flat = Number yB ∧
    formData !! "rentPrice" = Some rP ∧ rentPrice flat = Number rP ∧
    SFltb (S754_zero false) (areaSize flat) = true ∧
    SFltb (S754_zero false) (rentPrice flat) = true ∧
    SFleb (double 1900) (yearBuilt flat) = true ∧
    SFleb (yearBuilt flat) currentYear = true ∧
    image flat = match imageFile with
                 | Some file => if bool_decide (fileName file = "") then image original
                                else Some (fileName file)
                 | None => image original
                 end.
Proof.
  intros r Hyear Hr. subst r.
  destruct (edit_outcome oracle Number currentYear midnight today oneYear formatDate
              formData imageFile flatID w)
    as [(H & _)|(f & _ & Hf & [(_ & H & _)|[(_ & _ & _ & H)|(E & _ & _ & Hs)]])];
    try (rewrite H in Hr; discriminate).
  assert (∃ aS yB rP,
            formData !! "areaSize" = Some aS ∧ formData !! "yearBuilt" = Some yB ∧
            formData !! "rentPrice" = Some rP ∧
            SFltb (S754_zero false) (Number aS) = true ∧
            SFltb (S754_zero false) (Number rP) = true ∧
            SFleb (double 1900) (Number yB) = true ∧
            SFleb (Number yB) currentYear = true) as (aS & yB & rP & HaS & HyB & HrP & R1 & R2 & R3 & R4).
  { unfold editFlatErrors in E. cbv zeta in E. peelEdit E;
      repeat match goal with
             | H : falsy (formData !! _) = false |- _ => apply not_falsy in H as [? H]
             end;
      repeat match goal with
             | H : formData !! _ = Some _ |- _ => rewrite H in *
             end;
      unfold isNaN, notPositive, below, above, toNumber in *;
      eexists _, _, _; repeat split; try reflexivity;
      first [by apply not_le_gt | by apply not_lt_ge]. }
  exists f, (editedFlat Number formData imageFile f), aS, yB, rP.
  rewrite Hs. simpl. rewrite lookup_insert_eq, HaS, HyB, HrP. simpl.
  repeat split; try done.
  destruct imageFile as [file|]; [|done]. by destruct (bool_decide (fileName file = "")).
Qed.

Lemma edit_success_document_witness :
  let r := editFlatAction reliable demoNumber (double 2026) demoMidnight
                          (double 200) (double 565) (fun _ => "a date")
                          demoEditForm (Some (mkUpload "b.png" "image/png")) "f1" demoWorld in
  r.1 = Ok ActSuccess ∧
  ∃ flat, st_flats (store r.2) !! "f1" = Some flat ∧
          rentPrice flat = demoNumber "450" ∧ image flat = Some "b.png" ∧
          ownerID flat = Some "u1".
Proof.
  assert ((editFlatAction reliable demoNumber (double 2026) demoMidnight
             (double 200) (double 565) (fun _ => "a date")
             demoEditForm (Some (mkUpload "b.png" "image/png")) "f1" demoWorld).1
          = Ok ActSuccess) as H by (vm_compute; reflexivity).
  split; [exact H|].
  destruct (edit_success_document reliable demoNumber (double 2026) demoMidnight
              (double 200) (double 565) (fun _ => "a date")
              demoEditForm (Some (mkUpload "b.png" "image/png")) "f1" demoWorld eq_refl H)
    as (original & flat & aS & yB & rP & Ho & Hf & Hflat & _ & _ & _ & _ & HrP & Hr & _ & _ & _ & _ & Hi).
  exists flat. split; [exact Hf|].
  assert (rP = "450") as -> by (vm_compute in HrP; by injection HrP).
  split; [exact Hr|]. split; [exact Hi|].
  rewrite Hflat. simpl. vm_compute in Ho. by injection Ho as <-.
Defined.

(** X22.  How [editFlatAction] fails.  It throws, before any check, exactly
    when the read of the flat is rejected or the flat does not exist.  When a
    field fails its check it returns the field errors; when [updateDoc] is
    rejected it returns the "Failed to update flat" error.  In all these cases
    the store is as it was. *)
Theorem edit_failure_modes
    (oracle : Oracle) (Number : string → spec_float) (currentYear : spec_float)
    (midnight : FormValue → spec_float) (today oneYear : spec_float)
    (formatDate : spec_float → string)
    (formData : gmap string string) (imageFile : option Upload) (flatID : string) (w : World) :
  let r := editFlatAction oracle Number currentYear midnight today oneYear formatDate
                          formData imageFile flatID w in
  (r.1 = Throw ↔
   oracle (trace w) (OpQuery flats "__name__" flatID) = true ∨
   st_flats (store w) !! flatID = None) ∧
  (r.1 ≠ Ok ActSuccess → store r.2 = store w) ∧
  (∀ original,
     oracle (trace w) (OpQuery flats "__name__" flatID) = false →
     st_flats (store w) !! flatID = Some original →
     let errors := editFlatErrors Number currentYear midnight today oneYear formatDate
                                  formData imageFile original in
     (errors ≠ ∅ → r.1 = Ok (ActErrors errors)) ∧
     (errors = ∅ →
      oracle (trace w ++ [EvQuery flats "__name__" flatID (Some [flatID])]) (OpAdd flats) = true →
      r.1 = Ok (ActErrors {[ "general" := "Failed to update flat. Please try again." ]}))).
Proof.
  destruct (edit_outcome oracle Number currentYear midnight today oneYear formatDate
              formData imageFile flatID w)
    as [(Hr & Hs & H)|(f & Ho & Hf & H)]; simpl in *.
  - rewrite Hr. split; [|split; [done|]].
    + split; [|done]. intros _. destruct H as [?|[_ ?]]; auto.
    + intros original Ho Hf. destruct H as [?|[_ ?]]; congruence.
  - split; [|split].
    + split.
      * intros Hr. destruct H as [(_ & H & _)|[(_ & _ & _ & H)|(_ & _ & H & _)]]; congruence.
      * intros [?|?]; congruence.
    + intros Hne. destruct H as [(_ & _ & ?)|[(_ & _ & ? & _)|(_ & _ & ? & _)]]; done.
    + intros original _ Hf'. assert (original = f) as -> by congruence. split.
      * intros Hne. destruct H as [(_ & ? & _)|[(? & _)|(? & _)]]; done.
      * intros He Hu. destruct H as [(? & _)|[(_ & _ & _ & ?)|(_ & ? & _)]]; [done|done|congruence].
Qed.

Lemma edit_failure_modes_witness :
  (editFlatAction reliable demoNumber (double 2026) demoMidnight (double 200) (double 565)
                  (fun _ => "a date") demoEditForm None "f7" demoWorld).1 = Throw ∧
  store (editFlatAction reliable demoNumber (double 2026) demoMidnight (double 200) (double 565)
                        (fun _ => "a date") demoEditForm None "f7" demoWorld).2 = demoStore.
Proof.
  destruct (edit_failure_modes reliable demoNumber (double 2026) demoMidnight (double 200)
              (double 565) (fun _ => "a date") demoEditForm None "f7" demoWorld)
    as (H1 & H2 & _).
  assert ((editFlatAction reliable demoNumber (double 2026) demoMidnight (double 200) (double 565)
                  (fun _ => "a date") demoEditForm None "f7" demoWorld).1 = Throw) as Ht
      by (apply H1; right; reflexivity).
  split; [exact Ht|]. apply H2. rewrite Ht. discriminate.
Defined.

(** ** The date window of [editFlatAction] *)

Lemma le_not_lt x c : SFleb c x = true → SFltb x c = false.
Proof.
  unfold SFltb, SFleb. rewrite (SFcompare_antisym c x).
  by destruct (SFcompare c x) as [[]|].
Qed.

Lemma SFltb_nan_l x : isNaNdouble x = true → ∀ y, SFltb x y = false.
Proof. by destruct x. Qed.

Lemma SFltb_nan_r y : isNaNdouble y = true → ∀ x, SFltb x y = false.
Proof. destruct y; try done. by intros _ []. Qed.

(** The entry of [dateAvailable] in the errors of [editFlatAction]. *)
Lemma editFlatErrors_date (Number : string → spec_float) (currentYear : spec_float)
    (midnight : FormValue → spec_float) (today oneYear : spec_float)
    (formatDate : spec_float → string)
    (formData : gmap string string) (imageFile : option Upload) (original : Flat) :
  let originalDate := midnight (storedDateAvailable original) in
  let selected := midnight (formData !! "dateAvailable") in
  let lower := if SFltb today originalDate then today else originalDate in
  editFlatErrors Number currentYear midnight today oneYear formatDate formData imageFile original
    !! "dateAvailable" = None ↔
  falsy (formData !! "dateAvailable") = false ∧
  SFltb selected lower = false ∧ SFltb oneYear selected = false.
Proof.
  intros originalDate selected lower. unfold editFlatErrors. cbv zeta.
  match goal with
  | |- match imageFile with Some _ => _ | None => ?e end !! _ = _ ↔ _ =>
      set (errors := e);
      assert (match imageFile with
              | Some file =>
                  if negb (bool_decide (fileName file = ""))
                  then flag (negb (bool_decide (fileType file ∈ validImageTypes)))
                            "image" "Only JPG, PNG, and GIF images are allowed." errors
                  else errors
              | None => errors
              end !! "dateAvailable" = errors !! "dateAvailable") as ->
  end.
  { destruct imageFile as [file|]; [|done].
    destruct (negb (bool_decide (fileName file = ""))); [|done].
    by apply lookup_flag_ne. }
  subst errors. fold originalDate selected.
  destruct (falsy (formData !! "dateAvailable")) eqn:Hd.
  - rewrite lookup_insert_eq. split; [done|]. by intros [? _].
  - subst lower. destruct (SFltb today originalDate); rewrite lookup_flag_eq, !lookup_flag_ne by done;
      rewrite lookup_empty.
    + destruct (SFltb selected today), (SFltb oneYear selected); simpl; split; try done;
        by intros (_ & ? & ?).
    + destruct (SFltb selected originalDate), (SFltb oneYear selected); simpl; split; try done;
        by intros (_ & ? & ?).
Qed.

(** X23.  The date check of [editFlatAction].  With dates that are numbers,
    the submitted date is accepted exactly when it is not empty and lies
    between the lower bound and one year from today, both included; the lower
    bound is today when the flat's stored date is after today, and the stored
    date otherwise, so a date that has passed can be kept. *)
Theorem edit_date_window (Number : string → spec_float) (currentYear : spec_float)
    (midnight : FormValue → spec_float) (today oneYear : spec_float)
    (formatDate : spec_float → string)
    (formData : gmap string string) (imageFile : option Upload) (original : Flat) :
  let originalDate := midnight (storedDateAvailable original) in
  let selected := midnight (formData !! "dateAvailable") in
  let lower := if SFltb today originalDate then today else originalDate in
  isNaNdouble selected = false → isNaNdouble lower = false → isNaNdouble oneYear = false →
  (editFlatErrors Number currentYear midnight today oneYear formatDate formData imageFile original
     !! "dateAvailable" = None ↔
   falsy (formData !! "dateAvailable") = false ∧
   SFleb lower selected = true ∧ SFleb selected oneYear = true).
Proof.
  intros originalDate selected lower Hs Hl Hy.
  rewrite (editFlatErrors_date Number currentYear midnight today oneYear formatDate
             formData imageFile original).
  fold originalDate selected lower. split.
  - intros (? & ? & ?). repeat split; [done| |]; by apply not_lt_ge.
  - intros (? & ? & ?). repeat split; [done| |]; by apply le_not_lt.
Qed.

Lemma edit_date_window_witness :
  editFlatErrors demoNumber (double 2026) demoMidnight (double 200) (double 565)
                 (fun _ => "a date") demoEditForm None (demoFlat "u1")
    !! "dateAvailable" = None ↔
  falsy (demoEditForm !! "dateAvailable") = false ∧
  SFleb (double 100) (demoMidnight (demoEditForm !! "dateAvailable")) = true ∧
  SFleb (demoMidnight (demoEditForm !! "dateAvailable")) (double 565) = true.
Proof.
  apply (edit_date_window demoNumber (double 2026) demoMidnight (double 200) (double 565)
           (fun _ => "a date") demoEditForm None (demoFlat "u1")); reflexivity.
Defined.

(** X24.  A submitted [dateAvailable] that is not empty and is not a date
    passes the date check of [editFlatAction]: its comparisons with the bounds
    are all false, so no error is recorded for the field. *)
Theorem edit_accepts_invalid_date (Number : string → spec_float) (currentYear : spec_float)
    (midnight : FormValue → spec_float) (today oneYear : spec_float)
    (formatDate : spec_float → string)
    (formData : gmap string string) (imageFile : option Upload) (original : Flat) (d : string) :
  formData !! "dateAvailable" = Some d → d ≠ "" →
  isNaNdouble (midnight (Some d)) = true →
  editFlatErrors Number currentYear midnight today oneYear formatDate formData imageFile original
    !! "dateAvailable" = None.
Proof.
  intros Hd Hne Hnan.
  apply (editFlatErrors_date Number currentYear midnight today oneYear formatDate
           formData imageFile original).
  rewrite Hd. repeat split.
  - simpl. by apply bool_decide_eq_false.
  - by apply SFltb_nan_l.
  - by apply SFltb_nan_r.
Qed.

Lemma edit_accepts_invalid_date_witness :
  editFlatErrors demoNumber (double 2026) demoMidnight (double 200) (double 565)
                 (fun _ => "a date") (<["dateAvailable" := "soon"]> demoEditForm) None
                 (demoFlat "u1")
    !! "dateAvailable" = None.
Proof.
  apply (edit_accepts_invalid_date demoNumber (double 2026) demoMidnight (double 200)
           (double 565) (fun _ => "a date") (<["dateAvailable" := "soon"]> demoEditForm) None
           (demoFlat "u1") "soon"); [reflexivity|discriminate|reflexivity].
Defined.

(** * The registration page *)

(** The entry of a field after a two-level check. *)
Lemma lookup_branch (c c' : bool) (k m m' : string) (errors : gmap string string) (n : string) :
  (if c then <[k := m]> errors else flag c' k m' errors) !! n =
  if decide (k = n) then (if c then Some m else if c' then Some m' else errors !! n)
  else errors !! n.
Proof.
  case_decide as E.
  - subst. destruct c; [by rewrite lookup_insert_eq|by rewrite lookup_flag_eq].
  - destruct c; [by rewrite lookup_insert_ne|by rewrite lookup_flag_ne].
Qed.

Lemma lookup_flag (c : bool) (k m : string) (errors : gmap string string) (n : string) :
  flag c k m errors !! n =
  if decide (k = n) then (if c then Some m else errors !! n) else errors !! n.
Proof.
  case_decide as E; [subst; apply lookup_flag_eq|by apply lookup_flag_ne].
Qed.

(** The entry of a field in the errors of [registerAction]. *)
Lemma registerErrors_lookup dateIsValid calculateAge (st : Register.State) name value :
  name ≠ "email" → Register.formData st !! name = Some value →
  registerErrors dateIsValid calculateAge (Register.formData st) !! name =
  truthyMessage (Some (Register.fieldError dateIsValid calculateAge name value st)).
Proof.
  intros Hmail Hv. unfold Register.fieldError.
  repeat case_decide; subst; unfold registerErrors; cbv zeta.
  all: repeat (first [rewrite lookup_flag | rewrite lookup_branch];
               case_decide; [try (exfalso; congruence)|try (exfalso; congruence)]).
  all: rewrite ?lookup_empty, ?Hv; simpl falsy; simpl len; simpl asString.
  all: repeat match goal with
              | |- context [if ?c then _ else _] => destruct c eqn:?
              end; simpl; try done; try congruence.
  all: repeat match goal with
              | H : bool_decide _ = true |- _ => apply bool_decide_eq_true in H
              | H : bool_decide _ = false |- _ => apply bool_decide_eq_false in H
              end; naive_solver.
Qed.

Lemma registerErrors_lookup_email dateIsValid calculateAge (formData : gmap string string) value :
  formData !! "email" = Some value →
  registerErrors dateIsValid calculateAge formData !! "email" =
  if falsy (Some value) || negb (emailPattern value)
  then Some "Email must be in a valid format." else None.
Proof.
  intros Hv. unfold registerErrors. cbv zeta.
  repeat (first [rewrite lookup_flag | rewrite lookup_branch];
          case_decide; [try (exfalso; congruence)|try (exfalso; congruence)]).
  by rewrite lookup_empty, Hv.
Qed.

(** What the lookup by email answers. *)
Lemma getUserDocs_email o value w :
  o (trace w) (OpQuery users "email" value) = false →
  ∃ docs, getUserDocs o "email" value w =
          (Ok docs, log (EvQuery users "email" value (Some docs.*1)) w) ∧
          ((docs = [] ∧ ∀ i u, st_users (store w) !! i = Some u → email u ≠ Some value) ∨
           (docs ≠ [] ∧ ∃ i u, st_users (store w) !! i = Some u ∧ email u = Some value)).
Proof.
  intros Ho. unfold getUserDocs. rewrite Ho. eexists. split; [reflexivity|].
  destruct (map_to_list _) as [|[j v] docs] eqn:Ed.
  - left. split; [done|]. intros i u Hi Hu.
    assert ((i, u) ∈ map_to_list (filter (λ kv : string * User, userField "email" value kv.2 = true)
                                         (st_users (store w)))) as Hin.
    { apply elem_of_map_to_list, map_lookup_filter_Some. split; [done|].
      unfold userField. simpl. by apply bool_decide_eq_true. }
    rewrite Ed in Hin. by apply elem_of_nil in Hin.
  - right. split; [done|].
    assert ((j, v) ∈ map_to_list (filter (λ kv : string * User, userField "email" value kv.2 = true)
                                         (st_users (store w)))) as Hin
        by (rewrite Ed; left).
    apply elem_of_map_to_list, map_lookup_filter_Some in Hin as [Hj Hf].
    unfold userField in Hf. simpl in Hf. apply bool_decide_eq_true in Hf. eauto.
Qed.

(** X25.  The check the registration page makes of a field when the field is
    left is the check [registerAction] makes of it when the form is sent: the
    page records the message the action would give for the field, and when the
    action has none, the page records the "not available" message for an email
    that a user already has, and the empty message otherwise. *)
Theorem register_page_checks_as_the_action
    (oracle : Oracle) (dateIsValid : string → bool) (calculateAge : string → Z)
    (name value : string) (st : Register.State) (w : World) :
  let r := Register.validateField oracle dateIsValid calculateAge name value st w in
  Register.formData st !! name = Some value →
  r.1.1 = Ok tt →
  ∃ error,
    Register.fieldErrors r.1.2 !! name = Some (Some error) ∧
    match registerErrors dateIsValid calculateAge (Register.formData st) !! name with
    | Some message => error = message
    | None =>
        (name = "email" ∧ error = Register.emailNotAvailable ∧
         ∃ i u, st_users (store w) !! i = Some u ∧ email u = Some value) ∨
        (error = "" ∧
         (name = "email" → ∀ i u, st_users (store w) !! i = Some u → email u ≠ Some value))
    end.
Proof.
  intros r Hv Hr. subst r. unfold Register.validateField in *.
  destruct (decide (name = "email")) as [->|Hne].
  - rewrite (registerErrors_lookup_email _ _ _ _ Hv).
    destruct (falsy (Some value) || negb (emailPattern value)) eqn:Ef.
    + eexists. simpl. rewrite lookup_insert_eq. done.
    + destruct (oracle (trace w) (OpQuery users "email" value)) eqn:Eo.
      { unfold getUserDocs in Hr. rewrite Eo in Hr. done. }
      destruct (getUserDocs_email oracle value w Eo) as (docs & -> & [(-> & Hd)|(Hd & Hu)]).
      * eexists. simpl. rewrite lookup_insert_eq. split; [done|]. right. by split.
      * eexists. simpl. rewrite lookup_insert_eq. split; [done|].
        rewrite bool_decide_eq_false_2 by done. left. by split.
  - eexists. simpl. rewrite lookup_insert_eq. split; [done|].
    rewrite (registerErrors_lookup dateIsValid calculateAge st name value Hne Hv). simpl.
    destruct (bool_decide _) eqn:E.
    + apply bool_decide_eq_true in E. right. by split.
    + done.
Qed.

Lemma register_page_checks_as_the_action_witness :
  ∃ error,
    Register.fieldErrors
      (Register.validateField reliable (fun _ => true) (fun _ => 30%Z) "email" "ann@x.io"
         (Register.mkState ∅ (<["email" := "ann@x.io"]> demoRegisterForm) None false)
         demoWorld).1.2 !! "email" = Some (Some error) ∧
    error = Register.emailNotAvailable.
Proof.
  destruct (register_page_checks_as_the_action reliable (fun _ => true) (fun _ => 30%Z)
              "email" "ann@x.io"
              (Register.mkState ∅ (<["email" := "ann@x.io"]> demoRegisterForm) None false)
              demoWorld) as (error & H1 & H2); [vm_compute; reflexivity..|].
  exists error. split; [exact H1|].
  vm_compute in H1. by injection H1 as <-.
Defined.

(** Once [isCheckingEmail] is set, only a check of the email field resets
    it. *)
Lemma checking_persists oracle dateIsValid calculateAge inputs sw :
  Register.isCheckingEmail sw.1 = true →
  Forall (fun i => Register.onEmail i = false) inputs →
  Register.isCheckingEmail
    (Register.handleAll oracle dateIsValid calculateAge inputs sw).1 = true.
Proof.
  intros Hc Hi. revert sw Hc. induction Hi as [|i inputs Hi _ IH]; intros sw Hc; [done|].
  simpl. apply IH. destruct i as [name value|name value]; simpl in *; [done|].
  apply bool_decide_eq_false in Hi. unfold Register.validateField.
  by destruct (decide (name = "email")).
Qed.

(** X26.  When the lookup that checks whether an email is available is
    rejected, [validateField] ends with an error, records no message, and
    leaves [isCheckingEmail] set.  From then on [isFormValid] answers false,
    whatever is typed and whatever other field is left, until the email field
    is checked again. *)
Theorem rejected_email_check_blocks_the_form
    (oracle : Oracle) (dateIsValid : string → bool) (calculateAge : string → Z)
    (value : string) (st : Register.State) (w : World) (inputs : list Register.Input) :
  let r := Register.validateField oracle dateIsValid calculateAge "email" value st w in
  falsy (Some value) = false → emailPattern value = true →
  oracle (trace w) (OpQuery users "email" value) = true →
  Forall (fun i => Register.onEmail i = false) inputs →
  r.1.1 = Throw ∧
  Register.fieldErrors r.1.2 = Register.fieldErrors st ∧
  store r.2 = store w ∧
  Register.isFormValid
    (Register.handleAll oracle dateIsValid calculateAge inputs (r.1.2, r.2)).1 = false.
Proof.
  intros r Hf Hp Ho Hi.
  assert (r = (Throw, Register.setIsCheckingEmail true st,
               log (EvQuery users "email" value None) w)) as ->.
  { subst r. unfold Register.validateField, getUserDocs. simpl decide.
    destruct (decide ("email" = "email")); [|done]. by rewrite Hf, Hp, Ho. }
  repeat split; try done.
  unfold Register.isFormValid.
  pose proof (checking_persists oracle dateIsValid calculateAge inputs
                (Register.setIsCheckingEmail true st, log (EvQuery users "email" value None) w)
                eq_refl Hi) as Hc.
  cbn [fst snd]. rewrite Hc.
  by rewrite andb_false_r.
Qed.

Lemma rejected_email_check_blocks_the_form_witness :
  Register.isFormValid
    (Register.handleAll rejectQueries (fun _ => true) (fun _ => 30%Z)
       [Register.Change "firstName" "Cleo"; Register.Blur "firstName" "Cleo"]
       ((Register.validateField rejectQueries (fun _ => true) (fun _ => 30%Z)
           "email" "cleo@x.io" (Register.mkState ∅ demoRegisterForm None false) demoWorld).1.2,
        (Register.validateField rejectQueries (fun _ => true) (fun _ => 30%Z)
           "email" "cleo@x.io" (Register.mkState ∅ demoRegisterForm None false) demoWorld).2)).1
  = false.
Proof.
  apply (rejected_email_check_blocks_the_form rejectQueries (fun _ => true) (fun _ => 30%Z)
           "cleo@x.io" (Register.mkState ∅ demoRegisterForm None false) demoWorld
           [Register.Change "firstName" "Cleo"; Register.Blur "firstName" "Cleo"]);
    try reflexivity.
  repeat constructor.
Defined.

(** X27.  After a change of a field the form counts as valid as soon as the
    new value is not blank, no email check is pending, and the other fields
    are filled and without a message: [handleChange] clears the message of the
    field, so the new value is not checked before the field is left. *)
Theorem change_clears_the_message_of_the_field (name value : string) (st : Register.State) :
  Register.isFormValid (Register.handleChange name value st) = true ↔
  blank value = false ∧ Register.isCheckingEmail st = false ∧
  (∀ k e, k ≠ name → Register.fieldErrors st !! k = Some e → falsy e = true) ∧
  (∀ k v, k ≠ name → Register.formData st !! k = Some v → blank v = false).
Proof.
  unfold Register.isFormValid, Register.handleChange. simpl.
  rewrite !andb_true_iff, !bool_decide_eq_true, negb_true_iff.
  rewrite !map_Forall_lookup. split.
  - intros [[He Hv] Hc]. repeat split; [|done| |].
    + apply (Hv name). by rewrite lookup_insert_eq.
    + intros k e Hk Hl. apply (He k). by rewrite lookup_insert_ne.
    + intros k v Hk Hl. apply (Hv k). by rewrite lookup_insert_ne.
  - intros (Hb & Hc & He & Hv). repeat split; [| |done].
    + intros k e. destruct (decide (name = k)) as [->|Hk].
      * rewrite lookup_insert_eq. by intros [= <-].
      * rewrite lookup_insert_ne by done. by apply He.
    + intros k v. destruct (decide (name = k)) as [->|Hk].
      * rewrite lookup_insert_eq. by intros [= <-].
      * rewrite lookup_insert_ne by done. by apply Hv.
Qed.

(** * The page that adds a flat *)

(** X28.  The page that adds a flat checks the text and number fields as
    [newFlatAction] does: leaving a field records a message exactly when the
    action would reject the field, and the message is the action's, except
    for [streetNumber], where the page says "must be a valid number" and the
    action "must be greater than zero" for the same test. *)
Theorem newFlat_page_checks_as_the_action
    (Number : string → spec_float) (currentYear : spec_float)
    (pageDateOutOfRange dateOutOfRange : string → bool)
    (pageDateRangeMessage dateRangeMessage : string)
    (formData files : gmap string string) (fieldErrors : gmap string FormValue)
    (name value : string) :
  let errors := newFlatErrors Number currentYear dateOutOfRange dateRangeMessage formData files in
  name ≠ "dateAvailable" → name ≠ "image" →
  formData !! name = Some value →
  ∃ error,
    NewFlat.validateField Number currentYear pageDateOutOfRange pageDateRangeMessage
                          name value fieldErrors !! name = Some (Some error) ∧
    (error = "" ↔ errors !! name = None) ∧
    (error ≠ "" →
     if decide (name = "streetNumber")
     then error = "Street number must be a valid number." ∧
          errors !! name = Some "Street number must be greater than zero."
     else errors !! name = Some error).
Proof.
  intros errors Hd Hi Hv. subst errors. eexists. unfold NewFlat.validateField.
  rewrite lookup_insert_eq. split; [done|].
  unfold NewFlat.fieldError. repeat case_decide; subst; try done.
  all: unfold newFlatErrors; cbv zeta.
  all: repeat (first [rewrite lookup_flag | rewrite lookup_branch];
               case_decide; [try (exfalso; congruence)|try (exfalso; congruence)]).
  all: rewrite ?lookup_empty, ?Hv; simpl falsy; simpl len.
  all: repeat match goal with
              | |- context [if ?c then _ else _] => destruct c eqn:?
              end; simpl; try done.
Qed.

Lemma newFlat_page_checks_as_the_action_witness :
  ∃ error,
    NewFlat.validateField demoNumber (double 2026) (fun _ => false) "out of range"
                          "streetNumber" "x1" ∅ !! "streetNumber" = Some (Some error) ∧
    error = "Street number must be a valid number." ∧
    newFlatErrors demoNumber (double 2026) (fun _ => false) "out of range"
                  (<["streetNumber" := "x1"]> demoFlatForm) demoFiles
      !! "streetNumber" = Some "Street number must be greater than zero.".
Proof.
  destruct (newFlat_page_checks_as_the_action demoNumber (double 2026)
              (fun _ => false) (fun _ => false) "out of range" "out of range"
              (<["streetNumber" := "x1"]> demoFlatForm) demoFiles ∅ "streetNumber" "x1")
    as (error & H1 & H2 & H3); [discriminate|discriminate|vm_compute; reflexivity|].
  exists error. split; [exact H1|].
  apply H3. vm_compute in H1. injection H1 as <-. discriminate.
Defined.
